(** * Kindle Cloud Reader screenshot extension: capture loop and PDF assembly

    A shallow embedding of the extension's service worker
    (background/service-worker.js), its offscreen document
    (offscreen/offscreen.js) and the start-button handler of the popup
    (popup/popup.js), with the properties of the capture loop, the
    zoom/capture/restore cycle, the blank-page retry and the batch
    reassembly proved or refuted on the embedding.

    Conventions.
    - Page numbers, pixel sizes, delays and counters are JavaScript numbers
      holding integers: they are modelled in [Z].
    - Ratios ([scale], [sizeKB], zoom levels) are JavaScript doubles: they
      are modelled as exact rationals in [Q].  The divisions by 4 and 1024
      of [sizeKB] are exact in binary floating point.
    - A data URL is a [string]; [null] is [None].
    - [x || 0] on a number is written [orZero]. *)

From Stdlib Require Import ZArith QArith Qround Qminmax List String Ascii Bool Arith Lia.
From Stdlib Require Import Permutation.
Import ListNotations.

Local Open Scope Z_scope.

Definition DataUrl := string.

(** [x || d] for a number [x]: [0] is falsy. *)
Definition orDefault (x d : Z) : Z := if x =? 0 then d else x.
Definition orZero (x : Z) : Z := orDefault x 0.

(** Truthiness of a number. *)
Definition truthy (x : Z) : bool := negb (x =? 0).

(** The four size options carried by the PDF messages ([pdfOpts]). *)
Record PdfOptions := mkPdfOptions {
  opt_cropWidth : Z;
  opt_cropHeight : Z;
  opt_outputWidth : Z;
  opt_outputHeight : Z
}.

(** Messages addressed to the offscreen document ([target: 'offscreen']). *)
Inductive OffMsg :=
| GeneratePdf (images : list DataUrl) (opts : PdfOptions)
| GeneratePdfBatchInit (total : Z) (totalImages : Z) (opts : PdfOptions)
| GeneratePdfBatch (batchIndex : Z) (images : list DataUrl) (isLast : bool).

(* ================================================================== *)
(** * The offscreen document *)
(* ================================================================== *)

Module Offscreen.

(** The module-level variables of offscreen.js. *)
Record State := mkState {
  batchedImages : list DataUrl;
  totalBatches : Z;
  receivedBatches : Z;
  cropSettings : Z * Z;      (* cropWidth, cropHeight *)
  sizeSettings : Z * Z       (* outputWidth, outputHeight *)
}.

(** Their values when the document is created. *)
Definition initial : State :=
  {| batchedImages := []; totalBatches := 0; receivedBatches := 0;
     cropSettings := (0, 0); sizeSettings := (0, 0) |}.

(** One invocation [buildPdf(images)]: the argument, and the settings the
    function reads from the module variables before its first await. *)
Record BuildCall := mkBuildCall {
  bc_images : list DataUrl;
  bc_crop : Z * Z;
  bc_size : Z * Z
}.

Definition cropOf (o : PdfOptions) : Z * Z :=
  (orZero (opt_cropWidth o), orZero (opt_cropHeight o)).
Definition sizeOf (o : PdfOptions) : Z * Z :=
  (orZero (opt_outputWidth o), orZero (opt_outputHeight o)).

(** The [onMessage] listener: the new state and the [buildPdf] calls made. *)
Definition onMessage (s : State) (msg : OffMsg) : State * list BuildCall :=
  match msg with
  | GeneratePdf images opts =>
      let s1 := {| batchedImages := batchedImages s;
                   totalBatches := totalBatches s;
                   receivedBatches := receivedBatches s;
                   cropSettings := cropOf opts;
                   sizeSettings := sizeOf opts |} in
      (s1, [mkBuildCall images (cropSettings s1) (sizeSettings s1)])
  | GeneratePdfBatchInit total _ opts =>
      ({| batchedImages := [];
          totalBatches := total;
          receivedBatches := 0;
          cropSettings := cropOf opts;
          sizeSettings := sizeOf opts |}, [])
  | GeneratePdfBatch _ images isLast =>
      let pushed := batchedImages s ++ images in
      let received := receivedBatches s + 1 in
      if isLast || (totalBatches s <=? received) then
        ({| batchedImages := [];
            totalBatches := totalBatches s;
            receivedBatches := received;
            cropSettings := cropSettings s;
            sizeSettings := sizeSettings s |},
         [mkBuildCall pushed (cropSettings s) (sizeSettings s)])
      else
        ({| batchedImages := pushed;
            totalBatches := totalBatches s;
            receivedBatches := received;
            cropSettings := cropSettings s;
            sizeSettings := sizeSettings s |}, [])
  end.

(** Messages handled one after the other, in their order of arrival. *)
Fixpoint deliver (s : State) (msgs : list OffMsg) : State * list BuildCall :=
  match msgs with
  | [] => (s, [])
  | m :: rest =>
      let '(s1, calls1) := onMessage s m in
      let '(s2, calls2) := deliver s1 rest in
      (s2, calls1 ++ calls2)
  end.

(** ** Images and the two canvas transforms *)

Record Image := mkImage {
  src : DataUrl;
  naturalWidth : Z;
  naturalHeight : Z;
  width : Z;
  height : Z
}.

(** What is drawn on a canvas before [toDataURL] is called on it. *)
Record Canvas := mkCanvas {
  cv_width : Z;
  cv_height : Z;
  cv_image : Image;
  cv_sx : Z; cv_sy : Z; cv_sw : Z; cv_sh : Z;   (* source rectangle *)
  cv_dw : Z; cv_dh : Z                           (* destination size *)
}.

(** The [{ dataUrl, width, height }] objects of the transforms. *)
Record Processed := mkProcessed {
  dataUrl : DataUrl;
  p_width : Z;
  p_height : Z
}.

(** [Math.floor(n / 2)] for an integer [n]. *)
Definition floorHalf (n : Z) : Z := n / 2.

(** [Math.round(x)]: the nearest integer, halves rounded up. *)
Definition mathRound (x : Q) : Z := Qfloor (x + (1 # 2)).

Section Transforms.

Variable toDataURL : Canvas -> DataUrl.

Definition cropImage (img : Image) (targetWidth targetHeight : Z) : Processed :=
  let srcW := naturalWidth img in
  let srcH := naturalHeight img in
  if (negb (truthy targetWidth) && negb (truthy targetHeight))
     || ((srcW <=? targetWidth) && (srcH <=? targetHeight))
  then mkProcessed (src img) srcW srcH
  else
    let cropW := if truthy targetWidth && (targetWidth <? srcW)
                 then targetWidth else srcW in
    let cropH := if truthy targetHeight && (targetHeight <? srcH)
                 then targetHeight else srcH in
    let sx := floorHalf (srcW - cropW) in
    let sy := floorHalf (srcH - cropH) in
    let canvas := mkCanvas cropW cropH img sx sy cropW cropH cropW cropH in
    mkProcessed (toDataURL canvas) cropW cropH.

(** The source size [resizeImage] works from:
    [img.naturalWidth || img.width]. *)
Definition resizeSrcW (img : Image) : Z := orDefault (naturalWidth img) (width img).
Definition resizeSrcH (img : Image) : Z := orDefault (naturalHeight img) (height img).

(** The scale factor, for a source of positive size (a division by a zero
    size is infinite in JavaScript and is not represented here). *)
Definition resizeScale (srcW srcH targetWidth targetHeight : Z) : Q :=
  if truthy targetWidth && truthy targetHeight then
    Qmin (inject_Z targetWidth / inject_Z srcW)
         (inject_Z targetHeight / inject_Z srcH)
  else if truthy targetWidth then (inject_Z targetWidth / inject_Z srcW)%Q
  else (inject_Z targetHeight / inject_Z srcH)%Q.

Definition resizeImage (img : Image) (targetWidth targetHeight : Z) : Processed :=
  let srcW := resizeSrcW img in
  let srcH := resizeSrcH img in
  if negb (truthy targetWidth) && negb (truthy targetHeight)
  then mkProcessed (src img) srcW srcH
  else
    let scale := resizeScale srcW srcH targetWidth targetHeight in
    if Qle_bool 1 scale
    then mkProcessed (src img) srcW srcH
    else
      let newW := mathRound (inject_Z srcW * scale) in
      let newH := mathRound (inject_Z srcH * scale) in
      let canvas := mkCanvas newW newH img 0 0 srcW srcH newW newH in
      mkProcessed (toDataURL canvas) newW newH.

(** ** Building the document *)

(** [loadImage]: [None] when the promise rejects. *)
Variable loadImage : DataUrl -> option Image.

Definition processImage (img : Image) (url : DataUrl)
    (needsCrop : bool) (cropW cropH : Z)
    (needsResize : bool) (outW outH : Z) : option Processed :=
  let result := if needsCrop then cropImage img cropW cropH
                else mkProcessed url (naturalWidth img) (naturalHeight img) in
  if needsResize then
    match loadImage (dataUrl result) with
    | Some tempImg => Some (resizeImage tempImg outW outH)
    | None => None
    end
  else Some result.

Inductive Orientation := Landscape | Portrait.

Definition orientationOf (w h : Z) : Orientation :=
  if h <? w then Landscape else Portrait.

(** [25.4 / 72] millimetres per pixel. *)
Definition pxToMm : Q := 254 # 720.

Record Page := mkPage {
  pg_format : Q * Q;
  pg_orientation : Orientation;
  pg_image : DataUrl;           (* drawn at 0,0 over the whole page *)
  pg_imageSize : Q * Q
}.

(** The two error texts of [buildPdf]: the one for an empty input, and the
    one of the [catch] clause (followed there by the exception's message). *)
Inductive BuildError := NoImagesToBuild | BuildThrew.

(** Messages the offscreen document sends back. *)
Inductive Reply :=
| PdfReady (pages : list Page)
| CaptureError (error : BuildError).

Definition loadAndProcess (call : BuildCall) (url : DataUrl) : option Processed :=
  let '(cw, ch) := bc_crop call in
  let '(ow, oh) := bc_size call in
  match loadImage url with
  | Some img =>
      processImage img url ((0 <? cw) || (0 <? ch)) cw ch
                           ((0 <? ow) || (0 <? oh)) ow oh
  | None => None
  end.

(** The pages added for [images[i..]]; [first] is the format the document
    was created with, used by the page of [images[0]]. *)
Fixpoint addPages (call : BuildCall) (first : Processed) (i : nat)
    (images : list DataUrl) : option (list Page) :=
  match images with
  | [] => Some []
  | url :: rest =>
      match loadAndProcess call url with
      | None => None
      | Some processed =>
          let w := (inject_Z (p_width processed) * pxToMm)%Q in
          let h := (inject_Z (p_height processed) * pxToMm)%Q in
          let page :=
            match i with
            | O => mkPage ((inject_Z (p_width first) * pxToMm)%Q,
                           (inject_Z (p_height first) * pxToMm)%Q)
                          (orientationOf (p_width first) (p_height first))
                          (dataUrl processed) (w, h)
            | S _ => mkPage (w, h)
                          (orientationOf (p_width processed) (p_height processed))
                          (dataUrl processed) (w, h)
            end in
          match addPages call first (S i) rest with
          | Some pages => Some (page :: pages)
          | None => None
          end
      end
  end.

Definition buildPdf (call : BuildCall) : Reply :=
  match bc_images call with
  | [] => CaptureError NoImagesToBuild
  | url0 :: _ =>
      match loadAndProcess call url0 with
      | None => CaptureError BuildThrew
      | Some first =>
          match addPages call first O (bc_images call) with
          | Some pages => PdfReady pages
          | None => CaptureError BuildThrew
          end
      end
  end.

End Transforms.

End Offscreen.

(* ================================================================== *)
(** * The service worker *)
(* ================================================================== *)

Module ServiceWorker.

(** ** Session state *)

(** The [captureState] object. *)
Record CaptureState := mkCaptureState {
  isRunning : bool;
  currentPage : Z;
  startPage : Z;
  endPage : Z;
  totalPages : Z;
  pageDirection : string;
  cropWidth : Z;
  cropHeight : Z;
  outputWidth : Z;
  outputHeight : Z;
  zoomLevel : Q;
  delay : Z;
  images : list DataUrl;
  tabId : option Z;
  windowId : option Z
}.

Definition initialState : CaptureState :=
  {| isRunning := false; currentPage := 0; startPage := 1; endPage := 10;
     totalPages := 0; pageDirection := "left"%string;
     cropWidth := 0; cropHeight := 0; outputWidth := 0; outputHeight := 0;
     zoomLevel := 2; delay := 2000; images := []; tabId := None;
     windowId := None |}.

Definition set_isRunning (b : bool) (s : CaptureState) : CaptureState :=
  mkCaptureState b (currentPage s) (startPage s) (endPage s) (totalPages s)
    (pageDirection s) (cropWidth s) (cropHeight s) (outputWidth s)
    (outputHeight s) (zoomLevel s) (delay s) (images s) (tabId s) (windowId s).

Definition set_currentPage (p : Z) (s : CaptureState) : CaptureState :=
  mkCaptureState (isRunning s) p (startPage s) (endPage s) (totalPages s)
    (pageDirection s) (cropWidth s) (cropHeight s) (outputWidth s)
    (outputHeight s) (zoomLevel s) (delay s) (images s) (tabId s) (windowId s).

Definition set_images (l : list DataUrl) (s : CaptureState) : CaptureState :=
  mkCaptureState (isRunning s) (currentPage s) (startPage s) (endPage s)
    (totalPages s) (pageDirection s) (cropWidth s) (cropHeight s)
    (outputWidth s) (outputHeight s) (zoomLevel s) (delay s) l (tabId s)
    (windowId s).

(** ** Messages *)

(** The [startCapture] request.  Fields the popup does not send are
    [undefined]: [None]. *)
Record StartMsg := mkStartMsg {
  m_startPage : Z;
  m_endPage : Z;
  m_pageDirection : option string;
  m_cropWidth : option Z;
  m_cropHeight : option Z;
  m_outputWidth : option Z;
  m_outputHeight : option Z;
  m_zoomLevel : Q;
  m_delay : Z
}.

(** The reasons of [captureError] and of an error response. *)
Inductive ErrorText :=
| AlreadyRunning            (* the session is already capturing *)
| NoActiveTab
| NotKindlePage
| Exception                 (* [err.message] of a caught exception *)
| PdfSetupFailed
| DownloadFailed.

(** What [sendResponse] is called with. *)
Inductive Response :=
| RespOk
| RespError (e : ErrorText).

(** What the service worker passes to [chrome.runtime.sendMessage]:
    notifications for the popup, and requests to the offscreen document. *)
Inductive Msg :=
| Progress (captured total : Z)
| CaptureComplete
| CaptureStopped
| CaptureErrorMsg (e : ErrorText)
| DownloadReady (total : Z)
| ToOffscreen (m : OffMsg).

(** Requests to the content script. *)
Inductive TabRequest :=
| Ping
| TurnPage (direction : string) (timeout : Z)
| TurnPageClick (direction : string) (timeout : Z)
| IsContentReady.

(** Calls of the [chrome] API (and [sleep]) the capture makes. *)
Inductive Call :=
| SetZoom (factor : Q)
| CaptureVisibleTab
| TabSend (r : TabRequest)
| Sleep (ms : Z).

Record Tab := mkTab {
  tab_id : Z;
  tab_windowId : Z;
  tab_url : option string
}.

(** The result of a [try] block. *)
Inductive Outcome (A : Type) :=
| Returned (a : A)
| Threw.
Arguments Returned {A} a.
Arguments Threw {A}.

(** ** The environment

    Everything the service worker cannot decide: whether each call of the
    browser API resolves or rejects and with what, and when the popup's
    [stopCapture] message is handled.  The capture is a sequence of awaits;
    a message can only be handled while the worker is suspended in one.
    Of the messages the listener accepts, [stopCapture] is the only one
    that changes what a running capture does ([getStatus] only reads, and
    [startCapture] is refused while [isRunning] is set), so it is the only
    one that arrives during a capture here. *)
Record Env := mkEnv {
  (* a stopCapture message is handled during the await number [t] *)
  stopRequested : nat -> bool;
  (* the [k]-th call of tabs.setZoom, for this factor, resolves *)
  setZoomOk : nat -> Q -> bool;
  (* the [k]-th call of tabs.captureVisibleTab: the data URL, or rejection *)
  captured : nat -> option DataUrl;
  (* the [k]-th tabs.sendMessage: rejection, or whether the response is
     present with [ready] true *)
  tabReply : nat -> option bool;
  (* tabs.query, at await [t]: rejection, or the active tab if any *)
  activeTab : nat -> Outcome (option Tab);
  (* scripting.executeScript, at await [t], resolves *)
  executeScriptOk : nat -> bool;
  (* runtime.getContexts, at await [t]: rejection, or whether an offscreen
     document exists *)
  offscreenExists : nat -> option bool;
  (* offscreen.createDocument, at await [t], resolves *)
  createDocumentOk : nat -> bool;
  (* downloads.download, at await [t], resolves *)
  downloadOk : nat -> bool
}.

(** The worker's memory and what it has done so far. *)
Record World := mkWorld {
  state : CaptureState;
  clock : nat;                 (* awaits completed *)
  zoom : Q;                    (* zoom factor of the tab *)
  zooms : nat;                 (* calls of setZoom so far *)
  shots : nat;                 (* calls of captureVisibleTab so far *)
  tabMsgs : nat;               (* calls of tabs.sendMessage so far *)
  keepAlive : bool;            (* the keepAlive alarm exists *)
  sent : list Msg;             (* runtime.sendMessage, oldest first *)
  responses : list Response;   (* sendResponse, oldest first *)
  calls : list Call            (* API calls, oldest first *)
}.

Definition initialWorld : World :=
  mkWorld initialState 0 1 0 0 0 false [] [] [].

(** ** A state monad over the world *)

Definition M (A : Type) : Type := World -> A * World.

Definition ret {A} (a : A) : M A := fun w => (a, w).

Definition bind {A B} (c : M A) (k : A -> M B) : M B :=
  fun w => let (a, w1) := c w in k a w1.

Notation "x <- c ;; k" := (bind c (fun x => k))
  (at level 61, c at next level, right associativity).
Notation "c ;;; k" := (bind c (fun _ => k))
  (at level 61, right associativity).

Definition getState : M CaptureState := fun w => (state w, w).

Definition modifyState (f : CaptureState -> CaptureState) : M unit :=
  fun w => (tt, mkWorld (f (state w)) (clock w) (zoom w) (zooms w) (shots w)
                        (tabMsgs w) (keepAlive w) (sent w) (responses w)
                        (calls w)).

(** [chrome.runtime.sendMessage(msg)], not awaited. *)
Definition send (m : Msg) : M unit :=
  fun w => (tt, mkWorld (state w) (clock w) (zoom w) (zooms w) (shots w)
                        (tabMsgs w) (keepAlive w) (sent w ++ [m])
                        (responses w) (calls w)).

Definition broadcast (m : Msg) : M unit := send m.

Definition broadcastProgress (capturedPages total : Z) : M unit :=
  broadcast (Progress capturedPages total).

Definition sendResponse (r : Response) : M unit :=
  fun w => (tt, mkWorld (state w) (clock w) (zoom w) (zooms w) (shots w)
                        (tabMsgs w) (keepAlive w) (sent w)
                        (responses w ++ [r]) (calls w)).

Definition setAlarm (b : bool) : M unit :=
  fun w => (tt, mkWorld (state w) (clock w) (zoom w) (zooms w) (shots w)
                        (tabMsgs w) b (sent w) (responses w) (calls w)).

Definition startKeepAlive : M unit := setAlarm true.
Definition stopKeepAlive : M unit := setAlarm false.

Definition logCall (c : Call) : M unit :=
  fun w => (tt, mkWorld (state w) (clock w) (zoom w) (zooms w) (shots w)
                        (tabMsgs w) (keepAlive w) (sent w) (responses w)
                        (calls w ++ [c])).

(** The listener's [stopCapture] case. *)
Definition handleStopCapture : M unit :=
  modifyState (set_isRunning false) ;;; sendResponse RespOk.

Section WithEnv.

Variable env : Env.

(** One await: the worker is suspended and the clock advances; a
    [stopCapture] message that arrives meanwhile is handled before the
    worker resumes ([isRunning] cleared, [{ ok: true }] answered, as
    [handleStopCapture] does).  The result is the number of the await. *)
Definition await : M nat :=
  fun w =>
    let t := clock w in
    let stop := stopRequested env t in
    (t, mkWorld (if stop then set_isRunning false (state w) else state w)
                (S t) (zoom w) (zooms w) (shots w) (tabMsgs w) (keepAlive w)
                (sent w)
                (if stop then responses w ++ [RespOk] else responses w)
                (calls w)).

Definition sleep (ms : Z) : M unit :=
  logCall (Sleep ms) ;;; _ <- await ;; ret tt.

(** [await chrome.tabs.setZoom(tabId, factor)]: [true] when it resolves,
    and then the tab has that zoom factor. *)
Definition setZoom (factor : Q) : M bool :=
  logCall (SetZoom factor) ;;;
  _ <- await ;;
  fun w =>
    let k := zooms w in
    let ok := setZoomOk env k factor in
    (ok, mkWorld (state w) (clock w) (if ok then factor else zoom w) (S k)
                 (shots w) (tabMsgs w) (keepAlive w) (sent w) (responses w)
                 (calls w)).

(** [await chrome.tabs.captureVisibleTab(...)]: [None] when it rejects. *)
Definition captureVisibleTab : M (option DataUrl) :=
  logCall CaptureVisibleTab ;;;
  _ <- await ;;
  fun w =>
    let k := shots w in
    (captured env k,
     mkWorld (state w) (clock w) (zoom w) (zooms w) (S k) (tabMsgs w)
             (keepAlive w) (sent w) (responses w) (calls w)).

(** [await chrome.tabs.sendMessage(tabId, r)]. *)
Definition tabSend (r : TabRequest) : M (option bool) :=
  logCall (TabSend r) ;;;
  _ <- await ;;
  fun w =>
    let k := tabMsgs w in
    (tabReply env k,
     mkWorld (state w) (clock w) (zoom w) (zooms w) (shots w) (S k)
             (keepAlive w) (sent w) (responses w) (calls w)).

(** ** Capture with zoom *)

Definition MAX_RETRIES : Z := 3.

(** The [try] block of one attempt: zoom in, capture, restore the zoom. *)
Definition zoomedAttempt (level : Q) : M (Outcome DataUrl) :=
  zoomed <- setZoom level ;;
  if zoomed then
    sleep 400 ;;;
    shot <- captureVisibleTab ;;
    match shot with
    | Some url =>
        restored <- setZoom 1 ;;
        if restored then sleep 200 ;;; ret (Returned url) else ret Threw
    | None => ret Threw
    end
  else ret Threw.

(** The [for] loop of [captureWithZoom], entered at [attempt]; [fuel] is
    the number of iterations left before [attempt] reaches [MAX_RETRIES]. *)
Fixpoint captureWithZoomFrom (fuel : nat) (attempt : Z) (level : Q)
    : M (option DataUrl) :=
  match fuel with
  | O => ret None
  | S fuel' =>
      if attempt <? MAX_RETRIES then
        r <- zoomedAttempt level ;;
        match r with
        | Returned url => ret (Some url)
        | Threw =>
            (* try to restore zoom even on error; a failure is ignored *)
            _ <- setZoom 1 ;;
            sleep 300 ;;;
            if attempt =? MAX_RETRIES - 1 then
              (* last attempt: try without zoom *)
              captureVisibleTab
            else captureWithZoomFrom fuel' (attempt + 1) level
        end
      else ret None
  end.

Definition captureWithZoom (level : Q) : M (option DataUrl) :=
  captureWithZoomFrom (Z.to_nat MAX_RETRIES) 0 level.

(** ** Page turning *)

Definition turnPage (direction : string) (waitMs : Z) : M unit :=
  r <- tabSend (TurnPage direction waitMs) ;;
  match r with
  | Some _ => ret tt
  | None =>
      (* fallback: click-based page turn; its failure is only logged *)
      _ <- tabSend (TurnPageClick direction waitMs) ;; ret tt
  end ;;;
  sleep 300.

(** ** Blank page detection and retry *)

Definition MAX_CHECKS : Z := 5.
Definition CHECK_INTERVAL : Z := 600.

Fixpoint waitForContentReadyFrom (fuel : nat) (i : Z) : M unit :=
  match fuel with
  | O => ret tt
  | S fuel' =>
      if i <? MAX_CHECKS then
        r <- tabSend IsContentReady ;;
        match r with
        | Some true => ret tt
        | Some false =>
            sleep CHECK_INTERVAL ;;; waitForContentReadyFrom fuel' (i + 1)
        | None => ret tt
        end
      else ret tt
  end.

Definition waitForContentReady : M unit :=
  waitForContentReadyFrom (Z.to_nat MAX_CHECKS) 0.

Definition RETRY_WAIT : Z := 1500.

(** [(dataUrl.length * 3) / 4 / 1024]. *)
Definition sizeKB (url : DataUrl) : Q :=
  (inject_Z (Z.of_nat (String.length url) * 3) / 4 / 1024)%Q.

(** [sizeKB > 30]. *)
Definition looksReal (url : DataUrl) : bool := negb (Qle_bool (sizeKB url) 30).

(** [!dataUrl] for a data URL or [null]. *)
Definition falsy (d : option DataUrl) : bool :=
  match d with
  | None => true
  | Some url => (String.length url =? 0)%nat
  end.

(** The [for] loop of [captureWithRetry] entered at [attempt], followed by
    the capture made after the loop. *)
Fixpoint captureWithRetryFrom (fuel : nat) (attempt : Z) (level : Q)
    : M (option DataUrl) :=
  match fuel with
  | O => captureWithZoom level
  | S fuel' =>
      if attempt <? MAX_RETRIES then
        d <- captureWithZoom level ;;
        if falsy d then ret None
        else
          match d with
          | Some url =>
              if looksReal url then ret (Some url)
              else
                sleep (RETRY_WAIT * (attempt + 1)) ;;;
                waitForContentReady ;;;
                captureWithRetryFrom fuel' (attempt + 1) level
          | None => ret None
          end
      else captureWithZoom level
  end.

Definition captureWithRetry (level : Q) : M (option DataUrl) :=
  captureWithRetryFrom (Z.to_nat MAX_RETRIES) 0 level.

(** ** PDF generation through the offscreen document *)

Definition BATCH_SIZE : nat := 20.

(** [Math.ceil(n / BATCH_SIZE)]. *)
Definition batchCount (n : nat) : Z :=
  Qceiling (inject_Z (Z.of_nat n) / inject_Z (Z.of_nat BATCH_SIZE)).

(** The loop [for (i = 0; i < images.length; i += BATCH_SIZE)] entered at
    [i]: the batch messages it sends.  Each iteration advances [i], so
    [images.length] iterations are always enough. *)
Fixpoint sendBatchesFrom (fuel : nat) (i : nat) (imgs : list DataUrl)
    : list OffMsg :=
  match fuel with
  | O => []
  | S fuel' =>
      if (i <? List.length imgs)%nat then
        GeneratePdfBatch (Z.of_nat (i / BATCH_SIZE))
                         (firstn BATCH_SIZE (skipn i imgs))
                         (List.length imgs <=? i + BATCH_SIZE)%nat
        :: sendBatchesFrom fuel' (i + BATCH_SIZE) imgs
      else []
  end.

(** The messages [generatePdf] sends for a non-empty [images]. *)
Definition pdfMessages (imgs : list DataUrl) (opts : PdfOptions)
    : list OffMsg :=
  if (List.length imgs <=? BATCH_SIZE)%nat then [GeneratePdf imgs opts]
  else
    GeneratePdfBatchInit (batchCount (List.length imgs))
                         (Z.of_nat (List.length imgs)) opts
    :: sendBatchesFrom (List.length imgs) 0 imgs.

Definition pdfOpts (st : CaptureState) : PdfOptions :=
  mkPdfOptions (cropWidth st) (cropHeight st) (outputWidth st)
               (outputHeight st).

Fixpoint sendAll (msgs : list OffMsg) : M unit :=
  match msgs with
  | [] => ret tt
  | m :: rest => send (ToOffscreen m) ;;; sendAll rest
  end.

(** [true] when neither [getContexts] nor [createDocument] rejects. *)
Definition setupOffscreenDocument : M bool :=
  t <- await ;;
  match offscreenExists env t with
  | None => ret false
  | Some true => ret true
  | Some false => t' <- await ;; ret (createDocumentOk env t')
  end.

Definition generatePdf : M unit :=
  st <- getState ;;
  if (List.length (images st) =? 0)%nat then ret tt
  else
    ready <- setupOffscreenDocument ;;
    if ready then
      st' <- getState ;;
      sendAll (pdfMessages (images st') (pdfOpts st'))
    else broadcast (CaptureErrorMsg PdfSetupFailed).

(** The download once the offscreen document has answered [pdfReady]. *)
Definition handlePdfReady : M unit :=
  t <- await ;;
  if downloadOk env t then
    st <- getState ;;
    broadcast (DownloadReady (Z.of_nat (List.length (images st)))) ;;;
    modifyState (set_images []) ;;;
    _ <- await ;;             (* closeDocument, a failure is ignored *)
    ret tt
  else broadcast (CaptureErrorMsg DownloadFailed).

(** ** The capture loop *)

(** Turning pages up to the start page:
    [for (i = 1; i < startPage; i++)]. *)
Fixpoint skipToStartFrom (fuel : nat) (i : Z) (start : Z)
    (nextDirection : string) (wait : Z) : M unit :=
  match fuel with
  | O => ret tt
  | S fuel' =>
      if i <? start then
        st <- getState ;;
        if negb (isRunning st) then ret tt
        else
          turnPage nextDirection wait ;;;
          skipToStartFrom fuel' (i + 1) start nextDirection wait
      else ret tt
  end.

(** How one iteration of the main loop ends. *)
Inductive BodyExit :=
| StoppedAtTop                      (* the [return] of the first check *)
| Broke                             (* the [break] after the page turn *)
| Continued (d : option DataUrl).   (* the end of the body; [d] is what
                                       [captureWithRetry] returned *)

Definition pushImage (url : DataUrl) (st : CaptureState) : CaptureState :=
  set_images (images st ++ [url]) st.

(** The body of the main loop for [page]. *)
Definition loopBody (start : Z) (nextDirection : string) (level : Q)
    (wait : Z) (page : Z) : M BodyExit :=
  st <- getState ;;
  if negb (isRunning st) then
    broadcast CaptureStopped ;;;
    stopKeepAlive ;;;
    st1 <- getState ;;
    (if (0 <? List.length (images st1))%nat then generatePdf else ret tt) ;;;
    ret StoppedAtTop
  else
    modifyState (set_currentPage page) ;;;
    (if start <? page then turnPage nextDirection wait
     else sleep (Z.min wait 1000)) ;;;
    st2 <- getState ;;
    if negb (isRunning st2) then ret Broke
    else
      waitForContentReady ;;;
      d <- captureWithRetry level ;;
      match d with
      | Some url =>
          if falsy d then ret tt else modifyState (pushImage url)
      | None => ret tt
      end ;;;
      st3 <- getState ;;
      broadcastProgress (page - start + 1) (totalPages st3) ;;;
      ret (Continued d).

(** How the main loop is left. *)
Inductive LoopExit :=
| FunctionReturned      (* [captureLoop] returned from inside the loop *)
| LoopDone.             (* [break], or [page] beyond [endPage] *)

(** [for (page = startPage; page <= endPage; page++)] entered at [page]. *)
Fixpoint mainLoopFrom (fuel : nat) (page : Z) (start last : Z)
    (nextDirection : string) (level : Q) (wait : Z) : M LoopExit :=
  match fuel with
  | O => ret LoopDone
  | S fuel' =>
      if page <=? last then
        r <- loopBody start nextDirection level wait page ;;
        match r with
        | StoppedAtTop => ret FunctionReturned
        | Broke => ret LoopDone
        | Continued _ =>
            mainLoopFrom fuel' (page + 1) start last nextDirection level wait
        end
      else ret LoopDone
  end.

(** What follows the main loop when it was not left by [return]. *)
Definition afterLoop : M unit :=
  st <- getState ;;
  if negb (isRunning st) && (List.length (images st) =? 0)%nat then
    stopKeepAlive
  else
    modifyState (set_isRunning false) ;;;
    stopKeepAlive ;;;
    broadcast CaptureComplete ;;;
    generatePdf.

Definition nextDirectionOf (direction : string) : string :=
  if String.eqb direction "left" then "prev"%string else "next"%string.

(** The constants [captureLoop] reads from [captureState] on entry are the
    fields of [st] below. *)

(** Navigate to the start page: if [startPage > 1], turn pages to reach
    it. *)
Definition navigateToStart (st : CaptureState) : M unit :=
  if 1 <? startPage st then
    broadcastProgress 0 (totalPages st) ;;;
    skipToStartFrom (Z.to_nat (startPage st - 1)) 1 (startPage st)
                    (nextDirectionOf (pageDirection st)) (delay st)
  else ret tt.

(** The main loop, cut after at most [fuel] iterations. *)
Definition mainLoop (st : CaptureState) (fuel : nat) : M LoopExit :=
  mainLoopFrom fuel (startPage st) (startPage st) (endPage st)
               (nextDirectionOf (pageDirection st)) (zoomLevel st) (delay st).

(** The number of iterations after which [page] exceeds [endPage]. *)
Definition pagesToVisit (st : CaptureState) : nat :=
  Z.to_nat (endPage st - startPage st + 1).

Definition captureLoop : M unit :=
  st <- getState ;;
  navigateToStart st ;;;
  r <- mainLoop st (pagesToVisit st) ;;
  match r with
  | FunctionReturned => ret tt
  | LoopDone => afterLoop
  end.

(** ** Starting a session *)

(** [url.includes(part)]. *)
Definition includes (url part : string) : bool :=
  match String.index 0 part url with
  | Some _ => true
  | None => false
  end.

Definition optDefault {A} (o : option A) (d : A) : A :=
  match o with
  | Some a => a
  | None => d
  end.

(** [msg.pageDirection || 'left']. *)
Definition directionOrLeft (o : option string) : string :=
  match o with
  | Some d => if (String.length d =? 0)%nat then "left"%string else d
  | None => "left"%string
  end.

(** The assignments under [// Initialize state]. *)
Definition initSession (msg : StartMsg) (tab : Tab) : CaptureState :=
  {| isRunning := true;
     startPage := m_startPage msg;
     endPage := m_endPage msg;
     totalPages := m_endPage msg - m_startPage msg + 1;
     currentPage := m_startPage msg;
     pageDirection := directionOrLeft (m_pageDirection msg);
     cropWidth := orZero (optDefault (m_cropWidth msg) 0);
     cropHeight := orZero (optDefault (m_cropHeight msg) 0);
     outputWidth := orZero (optDefault (m_outputWidth msg) 0);
     outputHeight := orZero (optDefault (m_outputHeight msg) 0);
     zoomLevel := m_zoomLevel msg;
     delay := m_delay msg;
     images := [];
     tabId := Some (tab_id tab);
     windowId := Some (tab_windowId tab) |}.

(** [true] unless [executeScript] rejects in the [catch] clause. *)
Definition ensureContentScript : M bool :=
  r <- tabSend Ping ;;
  match r with
  | Some _ => ret true
  | None =>
      t <- await ;;
      if executeScriptOk env t then sleep 300 ;;; ret true else ret false
  end.

(** The [catch] clause of [handleStartCapture]. *)
Definition startFailed : M unit :=
  modifyState (set_isRunning false) ;;;
  stopKeepAlive ;;;
  sendResponse (RespError Exception).

Definition handleStartCapture (msg : StartMsg) : M unit :=
  st <- getState ;;
  if isRunning st then sendResponse (RespError AlreadyRunning)
  else
    t <- await ;;
    match activeTab env t with
    | Threw => startFailed
    | Returned None => sendResponse (RespError NoActiveTab)
    | Returned (Some tab) =>
        if negb (includes (optDefault (tab_url tab) EmptyString) "read.amazon."%string)
        then sendResponse (RespError NotKindlePage)
        else
          modifyState (fun _ => initSession msg tab) ;;;
          sendResponse RespOk ;;;
          injected <- ensureContentScript ;;
          if injected then startKeepAlive ;;; captureLoop
          else startFailed
    end.

End WithEnv.



End ServiceWorker.

(* ================================================================== *)
(** * The popup's start button *)
(* ================================================================== *)

Module Popup.

Import ServiceWorker.

(** The settings form as the click handler reads it: [parseInt] and
    [parseFloat] give [NaN] ([None]) or a number. *)
Record Form := mkForm {
  f_pageDirection : string;
  f_startPage : option Z;
  f_endPage : option Z;
  f_zoomLevel : Q;
  f_delay : option Z
}.

Inductive FormError :=
| BadPageNumber       (* page numbers are not entered correctly *)
| StartAfterEnd       (* the start page must not exceed the end page *)
| DelayTooShort.      (* the interval must be 500 ms or more *)

(** What the handler does: show an error, or send [startCapture]. *)
Inductive Action :=
| ShowError (e : FormError)
| SendStart (msg : StartMsg).

Definition onStartClick (f : Form) : Action :=
  match f_startPage f, f_endPage f with
  | Some start, Some last =>
      if (start <? 1) || (last <? 1) then ShowError BadPageNumber
      else if last <? start then ShowError StartAfterEnd
      else
        match f_delay f with
        | Some wait =>
            if wait <? 500 then ShowError DelayTooShort
            else SendStart (mkStartMsg start last (Some (f_pageDirection f))
                                       None None None None
                                       (f_zoomLevel f) wait)
        | None => ShowError DelayTooShort
        end
  | _, _ => ShowError BadPageNumber
  end.




(** The click seen from the service worker: nothing reaches it unless the
    handler sends the request. *)
Definition clickStart (env : Env) (f : Form) : M unit :=
  match onStartClick f with
  | ShowError _ => ret tt
  | SendStart msg => handleStartCapture env msg
  end.

End Popup.

(* ================================================================== *)
(** * The content script *)
(* ================================================================== *)

Module Content.

(** ** Page navigation *)

(** The options of the keyboard events [simulateKey] dispatches. *)
Record KeyOpts := mkKeyOpts {
  key : string;
  code : string;
  keyCode : Z;
  which : Z;
  bubbles : bool;
  cancelable : bool
}.

(** What the navigation functions do to the document. *)
Inductive DomEvent :=
| KeyDown (o : KeyOpts)
| KeyUp (o : KeyOpts)
| ElementClick (id : string)                (* [knownEl.click()] *)
| MouseClick (target : string) (x : Z) (y : Q).

Definition simulateKey (k : string) : list DomEvent :=
  let right := String.eqb k "ArrowRight" in
  let opts := mkKeyOpts k
                (if right then "ArrowRight"%string else "ArrowLeft"%string)
                (if right then 39 else 37)
                (if right then 39 else 37)
                true true in
  [KeyDown opts; KeyUp opts].

(** What [clickPageTurn] reads from the page. *)
Record Viewport := mkViewport {
  hasElementWithId : string -> bool;
  innerWidth : Z;
  innerHeight : Z;
  elementFromPoint : Z -> Q -> option string
}.

Definition clickPageTurn (v : Viewport) (direction : string) : list DomEvent :=
  let selectorId := if String.eqb direction "next"
                    then "kindleReader_pageTurnAreaRight"%string
                    else "kindleReader_pageTurnAreaLeft"%string in
  if hasElementWithId v selectorId then [ElementClick selectorId]
  else
    let x := if String.eqb direction "next" then innerWidth v - 30 else 30 in
    let y := (inject_Z (innerHeight v) / 2)%Q in
    match elementFromPoint v x y with
    | Some target => [MouseClick target x y]
    | None => []
    end.

(** [msg.direction || 'next']. *)
Definition directionOrNext (o : option string) : string :=
  match o with
  | Some d => if (String.length d =? 0)%nat then "next"%string else d
  | None => "next"%string
  end.

(** The events dispatched by the listener's [turnPage] case. *)
Definition onTurnPage (direction : option string) : list DomEvent :=
  simulateKey (if String.eqb (directionOrNext direction) "next"
               then "ArrowRight"%string else "ArrowLeft"%string).

(** The events dispatched by the listener's [turnPageClick] case. *)
Definition onTurnPageClick (v : Viewport) (direction : option string)
    : list DomEvent :=
  clickPageTurn v (directionOrNext direction).

(** ** Readiness of the displayed page *)

(** [ctx.getImageData(x, y, 1, 1).data]. *)
Record Pixel := mkPixel {
  red : Z;
  green : Z;
  blue : Z;
  alpha : Z
}.

(** What [canvas.getContext('2d')] and [getImageData] give: no context,
    an exception (a canvas tainted by cross-origin data), or the pixels. *)
Inductive Context2d :=
| NoContext
| Tainted
| Readable (pixelAt : Z -> Z -> Pixel).

Record CanvasEl := mkCanvasEl {
  canvas_visible : bool;          (* [offsetParent !== null] *)
  canvas_width : Z;
  canvas_height : Z;
  canvas_context : Context2d
}.

(** What reading [iframe.contentDocument] down to the children of its body
    gives: an exception, no document or no body, or the number of
    children. *)
Inductive FrameBody :=
| FrameThrows
| FrameWithoutBody
| FrameChildren (n : nat).

Record IframeEl := mkIframeEl {
  iframe_visible : bool;
  iframe_body : FrameBody
}.

Record ImgEl := mkImgEl {
  img_visible : bool;
  img_complete : bool
}.

(** An element found for one of the loading selectors. *)
Record LoadingEl := mkLoadingEl {
  loading_offsetParent : bool;    (* [offsetParent !== null] *)
  loading_displayed : bool;       (* [display !== 'none'] *)
  loading_notHidden : bool;       (* [visibility !== 'hidden'] *)
  loading_text : string;          (* [textContent || ''] *)
  loading_children : nat
}.

(** The four selectors of [loadingSelectors], in their order. *)
Inductive LoadingSelector :=
| ClassLoading
| ClassSpinner
| ClassProgress
| ClassOverlay.

Definition loadingSelectors : list LoadingSelector :=
  [ClassLoading; ClassSpinner; ClassProgress; ClassOverlay].

(** What [isContentRendered] reads from the document. *)
Record Dom := mkDom {
  canvases : list CanvasEl;                        (* querySelectorAll *)
  iframes : list IframeEl;
  images : list ImgEl;
  querySelector : LoadingSelector -> option LoadingEl
}.

Fixpoint areImagesLoadedIn (imgs : list ImgEl) : bool :=
  match imgs with
  | [] => true
  | img :: rest =>
      if img_visible img && negb (img_complete img) then false
      else areImagesLoadedIn rest
  end.

Definition areImagesLoaded (d : Dom) : bool := areImagesLoadedIn (images d).

(** The three sampled points: the centre and two points on the diagonal. *)
Definition samplePoints (w h : Z) : list (Z * Z) :=
  [(w / 2, h / 2); (w / 4, h / 4); (3 * w / 4, 3 * h / 4)].

(** A sampled pixel that shows content: not transparent and not
    near-white. *)
Definition showsContent (p : Pixel) : bool :=
  (0 <? alpha p) &&
  ((red p <? 250) || (green p <? 250) || (blue p <? 250)).

(** The loop over the sampled points: [hasContent]. *)
Fixpoint hasContentAt (pixelAt : Z -> Z -> Pixel) (points : list (Z * Z))
    : bool :=
  match points with
  | [] => false
  | (x, y) :: rest =>
      if showsContent (pixelAt x y) then true else hasContentAt pixelAt rest
  end.

(** The loop over the canvases: [false] when it returns [false], [true]
    when it runs to its end. *)
Fixpoint canvasesRendered (cs : list CanvasEl) : bool :=
  match cs with
  | [] => true
  | c :: rest =>
      if negb (canvas_visible c) then canvasesRendered rest
      else if (canvas_width c =? 0) || (canvas_height c =? 0) then false
      else
        match canvas_context c with
        | NoContext => canvasesRendered rest
        | Tainted => canvasesRendered rest
        | Readable pixelAt =>
            if hasContentAt pixelAt
                 (samplePoints (canvas_width c) (canvas_height c))
            then canvasesRendered rest
            else false
        end
  end.

(** The loop over the iframes. *)
Fixpoint iframesRendered (fs : list IframeEl) : bool :=
  match fs with
  | [] => true
  | f :: rest =>
      if negb (iframe_visible f) then iframesRendered rest
      else
        match iframe_body f with
        | FrameChildren O => false
        | _ => iframesRendered rest
        end
  end.

Definition includesText (text part : string) : bool :=
  match String.index 0 part text with
  | Some _ => true
  | None => false
  end.

(** A visible loading indicator that says it is loading, or is empty. *)
Definition indicatesLoading (el : LoadingEl) : bool :=
  loading_offsetParent el && loading_displayed el && loading_notHidden el &&
  (includesText (loading_text el) "loading"
   || includesText (loading_text el) "読み込み"
   || (loading_children el =? 0)%nat).

(** The loop over the loading selectors. *)
Fixpoint noLoadingIndicator (d : Dom) (sels : list LoadingSelector) : bool :=
  match sels with
  | [] => true
  | sel :: rest =>
      match querySelector d sel with
      | Some el => if indicatesLoading el then false
                   else noLoadingIndicator d rest
      | None => noLoadingIndicator d rest
      end
  end.

(** The events the message listener dispatches for a request of the
    service worker: [turnPage] presses a key, [turnPageClick] clicks, the
    other requests only answer. *)
Definition onMessage (v : Viewport) (r : ServiceWorker.TabRequest)
    : list DomEvent :=
  match r with
  | ServiceWorker.TurnPage direction _ => onTurnPage (Some direction)
  | ServiceWorker.TurnPageClick direction _ =>
      onTurnPageClick v (Some direction)
  | ServiceWorker.Ping => []
  | ServiceWorker.IsContentReady => []
  end.

Definition isContentRendered (d : Dom) : bool :=
  if negb (canvasesRendered (canvases d)) then false
  else if negb (iframesRendered (iframes d)) then false
  else if negb (noLoadingIndicator d loadingSelectors) then false
  else areImagesLoaded d.

End Content.

(* ================================================================== *)
(** * The chunked transfer for an arbitrary partition *)
(* ================================================================== *)

Module Chunked.

(** The sender above always cuts batches of [BATCH_SIZE] frames.  The
    reassembly is stated for any partition of the frames: these are the
    messages of the protocol as the design words it, each batch tagged with
    its index and the last one flagged. *)
Fixpoint batchMsgsFrom (k : Z) (batches : list (list DataUrl)) : list OffMsg :=
  match batches with
  | [] => []
  | b :: rest =>
      match rest with
      | [] => [GeneratePdfBatch k b true]
      | _ :: _ => GeneratePdfBatch k b false :: batchMsgsFrom (k + 1) rest
      end
  end.

Definition initMsg (batches : list (list DataUrl)) (opts : PdfOptions) : OffMsg :=
  GeneratePdfBatchInit (Z.of_nat (List.length batches))
                       (Z.of_nat (List.length (List.concat batches))) opts.

(** The [buildPdf] calls of the offscreen document when the init message is
    followed by the batch messages in the order [arrival]. *)
Definition assembled (s : Offscreen.State) (batches : list (list DataUrl))
    (opts : PdfOptions) (arrival : list OffMsg) : list Offscreen.BuildCall :=
  snd (Offscreen.deliver s (initMsg batches opts :: arrival)).

(** The [buildPdf] calls of a single [generatePdf] message. *)
Definition direct (s : Offscreen.State) (frames : list DataUrl)
    (opts : PdfOptions) : list Offscreen.BuildCall :=
  snd (Offscreen.deliver s [GeneratePdf frames opts]).

End Chunked.

(* ================================================================== *)
(** * Predicates and sample inputs used by the proofs *)
(* ================================================================== *)

Module OffscreenAux.

Import Offscreen.

Definition isInit (m : OffMsg) : bool :=
  match m with
  | GeneratePdfBatchInit _ _ _ => true
  | _ => false
  end.

(** What holds between two messages as long as no init message came. *)
Definition uninitialised (s : State) : Prop :=
  totalBatches s = 0 /\ batchedImages s = [] /\ 0 <= receivedBatches s.


End OffscreenAux.

Module CaptureAux.

Import ServiceWorker.

(** The frame an iteration appends for what [captureWithRetry] returned. *)
Definition keep (d : option DataUrl) : list DataUrl :=
  match d with
  | Some url => if falsy d then [] else [url]
  | None => []
  end.

(** What [captureWithRetry] returned for each page the main loop processed
    to the end of its body, in page order. *)
Fixpoint pageResultsFrom (env : Env) (fuel : nat) (page : Z) (start last : Z)
    (nextDirection : string) (level : Q) (wait : Z) (w : World)
    : list (option DataUrl) :=
  match fuel with
  | O => []
  | S fuel' =>
      if page <=? last then
        match loopBody env start nextDirection level wait page w with
        | (Continued d, w1) =>
            d :: pageResultsFrom env fuel' (page + 1) start last
                                 nextDirection level wait w1
        | _ => []
        end
      else []
  end.

Definition pageResults (env : Env) (st : CaptureState) (fuel : nat)
    (w : World) : list (option DataUrl) :=
  pageResultsFrom env fuel (startPage st) (startPage st) (endPage st)
                  (nextDirectionOf (pageDirection st)) (zoomLevel st)
                  (delay st) w.

(** No [stopCapture] message ever arrives. *)
Definition neverStopped (env : Env) : Prop :=
  forall t, stopRequested env t = false.

(** What an await, or a computation made of awaits and API calls only, can
    change: nothing is sent, the alarm is untouched, the session state is
    the same except that a stop request may have cleared [isRunning], and
    the counters do not decrease. *)
Definition quietStep (env : Env) (w w' : World) : Prop :=
  sent w' = sent w /\
  keepAlive w' = keepAlive w /\
  (state w' = state w \/ state w' = set_isRunning false (state w)) /\
  (neverStopped env -> state w' = state w) /\
  (zooms w <= zooms w')%nat /\
  (clock w <= clock w')%nat.

Definition quiet {A} (env : Env) (c : M A) : Prop :=
  forall w, quietStep env w (snd (c w)).

(** The factor of the last [setZoom] call of a trace. *)
Fixpoint lastZoom (cs : list Call) : option Q :=
  match cs with
  | [] => None
  | c :: rest =>
      match lastZoom rest with
      | Some q => Some q
      | None =>
          match c with
          | SetZoom q => Some q
          | _ => None
          end
      end
  end.

(** Every call [setZoom(tabId, 1.0)] resolves. *)
Definition restoreResolves (env : Env) : Prop :=
  forall k, setZoomOk env k 1%Q = true.

(** The zoom has been put back: the last zoom call of the trace asked for
    1.0, and the tab is at 1.0 provided such calls resolve. *)
Definition zoomPutBack (env : Env) (w : World) : Prop :=
  lastZoom (calls w) = Some 1%Q /\ (restoreResolves env -> zoom w = 1%Q).

(** An environment in which zooming in and capturing work but the browser
    rejects every call that restores the zoom. *)
Definition restoreRejected : Env :=
  mkEnv (fun _ => false)
        (fun _ q => negb (Qeq_bool q 1))
        (fun _ => Some "data:image/png;base64,AAAA"%string)
        (fun _ => Some true)
        (fun _ => Returned None) (fun _ => true) (fun _ => Some true)
        (fun _ => true) (fun _ => true).

(** A data URL of [n] characters. *)
Fixpoint filler (n : nat) : DataUrl :=
  match n with
  | O => EmptyString
  | S k => String "A"%char (filler k)
  end.

(** Data URLs just above and exactly at the blank threshold:
    [40961 * 3 / 4 / 1024 > 30] and [40960 * 3 / 4 / 1024 = 30]. *)
Definition realFrame : DataUrl := filler (Z.to_nat 40961).

(** The frame of the [k]-th capture when every page has real content; the
    frames differ in length, so that their order can be told. *)
Definition pageFrame (k : nat) : DataUrl := filler (Z.to_nat 40961 + k).

Definition kindleTab : Tab :=
  mkTab 7 1 (Some "https://read.amazon.co.jp/?asin=B000000000"%string).

(** An environment in which every call of the browser API resolves, an
    offscreen document exists, the content script answers that the page is
    ready, a stop request arrives during the awaits selected by [stop], and
    the [k]-th capture returns [shot k]. *)
Definition cooperative (stop : nat -> bool) (shot : nat -> option DataUrl)
    : Env :=
  mkEnv stop (fun _ _ => true) shot (fun _ => Some true)
        (fun _ => Returned (Some kindleTab)) (fun _ => true)
        (fun _ => Some true) (fun _ => true) (fun _ => true).

Definition never : nat -> bool := fun _ => false.

(** Counting the notifications of one kind. *)
Definition countIf (p : Msg -> bool) (l : list Msg) : nat :=
  List.length (filter p l).

Definition isStopped (m : Msg) : bool :=
  match m with CaptureStopped => true | _ => false end.
Definition isError (m : Msg) : bool :=
  match m with CaptureErrorMsg _ => true | _ => false end.
Definition isDownload (m : Msg) : bool :=
  match m with DownloadReady _ => true | _ => false end.
Definition isToOffscreen (m : Msg) : bool :=
  match m with ToOffscreen _ => true | _ => false end.

(** What [generatePdf] may send: requests to the offscreen document only,
    or the one error notification of its [catch] clause. *)
Definition pdfOutput (gen : list Msg) : Prop :=
  Forall (fun m => isToOffscreen m = true) gen \/
  gen = [CaptureErrorMsg PdfSetupFailed].

(** The progress notifications of [n] consecutive pages from [page]. *)
Fixpoint progressFrom (start total page : Z) (n : nat) : list Msg :=
  match n with
  | O => []
  | S k => Progress (page - start + 1) total
           :: progressFrom start total (page + 1) k
  end.

(** The session data other than [isRunning] and [currentPage] are the
    same in two worlds. *)
Definition sameSession (w w' : World) : Prop :=
  images (state w') = images (state w) /\
  totalPages (state w') = totalPages (state w) /\
  pdfOpts (state w') = pdfOpts (state w).

(** What was sent between two worlds of one run. *)
Definition emitted (w w' : World) : list Msg :=
  skipn (List.length (sent w)) (sent w').

(** The world in which the main loop of [captureLoop] starts. *)
Definition atLoopEntry (env : Env) (w : World) : World :=
  snd (navigateToStart env (state w) w).

(** The stop request is observed by the check at the top of an iteration:
    the main loop is left by its [return]. *)
Definition stoppedAtLoopTop (env : Env) (w : World) : Prop :=
  fst (mainLoop env (state w) (pagesToVisit (state w)) (atLoopEntry env w))
  = FunctionReturned.


(** An environment in which everything works except that every capture is
    rejected. *)
Definition blind : Env := cooperative never (fun _ => None).

(** A running session over pages 1 to 2, as [handleStartCapture] sets it
    up. *)
Definition twoPages : World :=
  mkWorld (initSession (mkStartMsg 1 2 None None None None None 2 2000)
                       kindleTab)
          0 1 0 0 0 true [] [RespOk] [].

(** A small data URL, below the blank threshold. *)
Definition tinyFrame : DataUrl := "data:image/png;base64,iVBORw0KGgo"%string.

(** ** Deciding the equality of message logs *)

Fixpoint listEqb {A} (eqb : A -> A -> bool) (a b : list A) : bool :=
  match a, b with
  | [], [] => true
  | x :: a', y :: b' => eqb x y && listEqb eqb a' b'
  | _, _ => false
  end.

Definition optsEqb (a b : PdfOptions) : bool :=
  (opt_cropWidth a =? opt_cropWidth b) &&
  (opt_cropHeight a =? opt_cropHeight b) &&
  (opt_outputWidth a =? opt_outputWidth b) &&
  (opt_outputHeight a =? opt_outputHeight b).

Definition offMsgEqb (a b : OffMsg) : bool :=
  match a, b with
  | GeneratePdf i1 o1, GeneratePdf i2 o2 =>
      listEqb String.eqb i1 i2 && optsEqb o1 o2
  | GeneratePdfBatchInit t1 n1 o1, GeneratePdfBatchInit t2 n2 o2 =>
      (t1 =? t2) && (n1 =? n2) && optsEqb o1 o2
  | GeneratePdfBatch k1 i1 l1, GeneratePdfBatch k2 i2 l2 =>
      (k1 =? k2) && listEqb String.eqb i1 i2 && Bool.eqb l1 l2
  | _, _ => false
  end.

Definition errorEqb (a b : ErrorText) : bool :=
  match a, b with
  | AlreadyRunning, AlreadyRunning
  | NoActiveTab, NoActiveTab
  | NotKindlePage, NotKindlePage
  | Exception, Exception
  | PdfSetupFailed, PdfSetupFailed
  | DownloadFailed, DownloadFailed => true
  | _, _ => false
  end.

Definition msgEqb (a b : Msg) : bool :=
  match a, b with
  | Progress c1 t1, Progress c2 t2 => (c1 =? c2) && (t1 =? t2)
  | CaptureComplete, CaptureComplete => true
  | CaptureStopped, CaptureStopped => true
  | CaptureErrorMsg e1, CaptureErrorMsg e2 => errorEqb e1 e2
  | DownloadReady t1, DownloadReady t2 => t1 =? t2
  | ToOffscreen m1, ToOffscreen m2 => offMsgEqb m1 m2
  | _, _ => false
  end.

(** ** The session of the stop scenario *)

(** Pages 1 to 5 at zoom 2 with 2000 ms between pages, as the popup sends
    it. *)
Definition fivePages : StartMsg :=
  mkStartMsg 1 5 (Some "left"%string) None None None None 2 2000.

(** Every call works and every page has real content.  The awaits of the
    session are numbered from 0: tabs.query (0), the ping (1), page 1
    (2 to 8: the initial sleep, isContentReady, and the five awaits of a
    zoomed capture), page 2 (9 to 16: the turnPage message, its
    stabilisation sleep, isContentReady, the capture), and the turnPage
    message for page 3 is await 17. *)
Definition stopDuringThirdTurn : Env :=
  cooperative (fun t => (t =? 17)%nat) (fun k => Some (pageFrame k)).

(** The same with the stop request handled during the capture of page 3
    (await 20 is its first zoom call). *)
Definition stopDuringThirdCapture : Env :=
  cooperative (fun t => (t =? 20)%nat) (fun k => Some (pageFrame k)).

(** The same with the stop request handled during the capture of the last
    page (pages 3 and 4 take awaits 17 to 32, page 5 is turned to at 33 and
    its capture starts at await 36). *)
Definition stopDuringLastCapture : Env :=
  cooperative (fun t => (t =? 36)%nat) (fun k => Some (pageFrame k)).



End CaptureAux.

(* ================================================================== *)
(** * Further predicates for the offscreen document *)
(* ================================================================== *)

Module OffscreenMore.

Import Offscreen ServiceWorker.

(** The frames of the batches [sendBatchesFrom] sends, batch by batch. *)
Fixpoint chunksFrom (fuel : nat) (i : nat) (imgs : list DataUrl)
    : list (list DataUrl) :=
  match fuel with
  | O => []
  | S fuel' =>
      if (i <? List.length imgs)%nat then
        firstn BATCH_SIZE (skipn i imgs)
        :: chunksFrom fuel' (i + BATCH_SIZE) imgs
      else []
  end.

Definition chunks (imgs : list DataUrl) : list (list DataUrl) :=
  chunksFrom (List.length imgs) 0 imgs.


(** A page is covered by its picture: the picture is drawn at the size of
    the page. *)
Definition covered (pg : Page) : Prop :=
  pg_format pg = pg_imageSize pg.

(** An image decoder for examples: every data URL decodes to a picture of
    800 by 600 pixels, except the empty one. *)
Definition sampleLoad (u : DataUrl) : option Image :=
  if (String.length u =? 0)%nat then None
  else Some (mkImage u 800 600 800 600).

Definition sampleEncode (c : Canvas) : DataUrl := "data:canvas"%string.

Definition plainCall : BuildCall :=
  mkBuildCall ["data:one"%string; "data:two"%string] (0, 0) (0, 0).

(** The pages of the example call. *)
Definition plainPages : list Page :=
  match buildPdf sampleEncode sampleLoad plainCall with
  | PdfReady pages => pages
  | CaptureError _ => []
  end.

(** Twenty-one frames: one more than a batch holds. *)
Definition twentyOneFrames : list DataUrl := repeat "data:frame"%string 21.

End OffscreenMore.


(** * Counting and status predicates for the service worker *)

Module CaptureMore.

Import ServiceWorker CaptureAux Popup.

(** The number of readiness polls made from message number [k] when at
    most [n] are allowed: polling goes on while the answer is "not ready". *)
Fixpoint pollCount (env : Env) (k : nat) (n : nat) : nat :=
  match n with
  | O => O
  | S n' =>
      match tabReply env k with
      | Some false => S (pollCount env (S k) n')
      | _ => 1%nat
      end
  end.

(** The parts of the world a readiness poll or a sleep leaves alone. *)
Definition sameCamera (w w' : World) : Prop :=
  shots w' = shots w /\ zooms w' = zooms w /\ zoom w' = zoom w /\
  sent w' = sent w.


(** The requests to the offscreen document among the messages sent. *)
Fixpoint offscreenRequests (l : list Msg) : list OffMsg :=
  match l with
  | [] => []
  | ToOffscreen m :: rest => m :: offscreenRequests rest
  | _ :: rest => offscreenRequests rest
  end.

(** The session state is the same, except that a stop request may have
    cleared [isRunning]. *)
Definition stoppedOrSame (s s' : CaptureState) : Prop :=
  s' = s \/ s' = set_isRunning false s.

(** The settings of the session, which no step of a run writes. *)
Definition sameSettings (s s' : CaptureState) : Prop :=
  startPage s' = startPage s /\ endPage s' = endPage s /\
  totalPages s' = totalPages s /\ pdfOpts s' = pdfOpts s.

(** Between two worlds, the requests sent to the offscreen document are
    none, or those of one [generatePdf] over the frames and options of the
    second world. *)
Definition assemblyRequested (w w' : World) : Prop :=
  offscreenRequests (sent w') = offscreenRequests (sent w) \/
  (images (state w') <> [] /\
   offscreenRequests (sent w') =
     offscreenRequests (sent w)
     ++ pdfMessages (images (state w')) (pdfOpts (state w'))).




(** The content script answers "not ready" twice, then "ready". *)
Definition slowPage : Env :=
  mkEnv never (fun _ _ => true) (fun _ => None)
        (fun k => if (k <? 2)%nat then Some false else Some true)
        (fun _ => Returned (Some kindleTab)) (fun _ => true)
        (fun _ => Some true) (fun _ => true) (fun _ => true).

(** A form asking for pages 3 to 5. *)
Definition threeToFive : Form :=
  mkForm "right" (Some 3) (Some 5) 2 (Some 2000).


(** A [turnPage] request to the content script. *)
Definition isTurn (c : Call) : bool :=
  match c with
  | TabSend (TurnPage _ _) => true
  | _ => false
  end.

(** The number of [turnPage] requests made so far. *)
Definition turns (w : World) : nat := List.length (filter isTurn (calls w)).

(** A computation that requests no page turn. *)
Definition noTurn {A} (c : M A) : Prop :=
  forall w, turns (snd (c w)) = turns w.

End CaptureMore.

(** * Readiness predicates for the content script *)

Module ContentMore.

Import Content.


(** A visible canvas passes the check: it has a size, and when its pixels
    can be read, one of the sampled pixels shows content. *)
Definition canvasPasses (c : CanvasEl) : Prop :=
  canvas_width c <> 0 /\ canvas_height c <> 0 /\
  forall pixelAt, canvas_context c = Readable pixelAt ->
    exists x y, In (x, y) (samplePoints (canvas_width c) (canvas_height c)) /\
                showsContent (pixelAt x y) = true.

(** The document as [isContentRendered] wants it. *)
Definition rendered (d : Dom) : Prop :=
  (forall c, In c (canvases d) -> canvas_visible c = true -> canvasPasses c) /\
  (forall f, In f (iframes d) -> iframe_visible f = true ->
             iframe_body f <> FrameChildren 0) /\
  (forall sel el, querySelector d sel = Some el -> indicatesLoading el = false) /\
  (forall img, In img (images d) -> img_visible img = true ->
               img_complete img = true).


(** The key of a reading direction: its name and its code. *)
Definition arrowOf (pageDirection : string) : string * Z :=
  if String.eqb pageDirection "left" then ("ArrowLeft"%string, 37)
  else ("ArrowRight"%string, 39).

(** The page-turn area of a reading direction, and the abscissa of the
    fallback click. *)
Definition turnAreaOf (v : Viewport) (pageDirection : string) : string * Z :=
  if String.eqb pageDirection "left"
  then ("kindleReader_pageTurnAreaLeft"%string, 30)
  else ("kindleReader_pageTurnAreaRight"%string, innerWidth v - 30).

Definition inkPixel : Pixel := mkPixel 20 20 20 255.

(** A visible canvas of 800 by 600 pixels painted dark. *)
Definition paintedCanvas : CanvasEl :=
  mkCanvasEl true 800 600 (Readable (fun _ _ => inkPixel)).

Definition paintedDom : Dom :=
  mkDom [paintedCanvas] [] [mkImgEl true true] (fun _ => None).

End ContentMore.
(* ================================================================== *)
(** * Properties of the offscreen document *)
(* ================================================================== *)

Module OffscreenProofs.

Import Offscreen OffscreenAux.

Lemma deliver_app (s : State) (a b : list OffMsg) :
  deliver s (a ++ b) =
  (fst (deliver (fst (deliver s a)) b),
   snd (deliver s a) ++ snd (deliver (fst (deliver s a)) b)).
Proof.
  revert s; induction a as [|m a IH]; intros s; simpl.
  - now destruct (deliver s b).
  - destruct (onMessage s m) as [s1 c1].
    rewrite IH.
    destruct (deliver s1 a) as [s2 c2]; simpl.
    destruct (deliver s2 b) as [s3 c3]; simpl.
    now rewrite app_assoc.
Qed.

(** ** Crop and resize *)

Lemma floor_of_half_above (n : Z) : Qfloor (inject_Z n + (1 # 2)) = n.
Proof.
  unfold Qfloor, Qplus, inject_Z; simpl.
  symmetry; apply Z.div_unique with (r := 1); lia.
Qed.

Lemma mathRound_le (x : Q) (n : Z) : (x <= inject_Z n)%Q -> mathRound x <= n.
Proof.
  intros H; unfold mathRound.
  rewrite <- (floor_of_half_above n).
  apply Qfloor_resp_le.
  now apply Qplus_le_l.
Qed.

Lemma scaled_below (n : Z) (q : Q) :
  0 < n -> Qle_bool 1 q = false -> (inject_Z n * q <= inject_Z n)%Q.
Proof.
  intros Hn Hq.
  assert (Hlt : (q < 1)%Q).
  { apply Qnot_le_lt; intros Hle.
    apply Qle_bool_iff in Hle; congruence. }
  rewrite <- (Qmult_1_r (inject_Z n)) at 2.
  apply Qmult_le_l.
  - change 0%Q with (inject_Z 0); now rewrite <- Zlt_Qlt.
  - now apply Qlt_le_weak.
Qed.

Lemma cropImage_width (f : Canvas -> DataUrl) (img : Image) (tw th : Z) :
  p_width (cropImage f img tw th) <= naturalWidth img.
Proof.
  unfold cropImage.
  destruct (_ || _); simpl; [lia|].
  destruct (truthy tw && (tw <? naturalWidth img)) eqn:E; [|lia].
  apply andb_prop in E; destruct E as [_ E]; apply Z.ltb_lt in E; lia.
Qed.

Lemma cropImage_height (f : Canvas -> DataUrl) (img : Image) (tw th : Z) :
  p_height (cropImage f img tw th) <= naturalHeight img.
Proof.
  unfold cropImage.
  destruct (_ || _); simpl; [lia|].
  destruct (truthy th && (th <? naturalHeight img)) eqn:E; [|lia].
  apply andb_prop in E; destruct E as [_ E]; apply Z.ltb_lt in E; lia.
Qed.

Lemma resizeImage_bounds (f : Canvas -> DataUrl) (img : Image) (tw th : Z) :
  0 < resizeSrcW img -> 0 < resizeSrcH img ->
  p_width (resizeImage f img tw th) <= resizeSrcW img /\
  p_height (resizeImage f img tw th) <= resizeSrcH img.
Proof.
  intros HW HH; unfold resizeImage.
  destruct (negb (truthy tw) && negb (truthy th)); simpl; [lia|].
  destruct (Qle_bool 1 _) eqn:E; simpl; [lia|].
  split; apply mathRound_le; now apply scaled_below.
Qed.





(** Crop then resize, as [processImage] chains them, when the cropped
    picture is decoded with the size of its canvas. *)
Lemma processImage_never_enlarges
    (f : Canvas -> DataUrl) (load : DataUrl -> option Image)
    (img : Image) (url : DataUrl) (cw ch ow oh : Z) (r : Processed) :
  (forall u i, load u = Some i -> 0 < naturalWidth i /\ 0 < naturalHeight i) ->
  load (dataUrl (cropImage f img cw ch)) =
    Some (mkImage (dataUrl (cropImage f img cw ch))
                  (p_width (cropImage f img cw ch))
                  (p_height (cropImage f img cw ch))
                  (p_width (cropImage f img cw ch))
                  (p_height (cropImage f img cw ch))) ->
  processImage f load img url true cw ch true ow oh = Some r ->
  p_width r <= naturalWidth img /\ p_height r <= naturalHeight img.
Proof.
  intros Hpos Hload; unfold processImage; rewrite Hload.
  intros [= <-].
  destruct (Hpos _ _ Hload) as [HW HH]; simpl in HW, HH.
  pose proof (cropImage_width f img cw ch).
  pose proof (cropImage_height f img cw ch).
  match goal with
  | |- p_width (resizeImage f ?i ow oh) <= _ /\ _ =>
      destruct (resizeImage_bounds f i ow oh) as [B1 B2]
  end.
  - unfold resizeSrcW, orDefault; simpl. destruct (_ =? 0); exact HW.
  - unfold resizeSrcH, orDefault; simpl. destruct (_ =? 0); exact HH.
  - unfold resizeSrcW, resizeSrcH, orDefault in B1, B2; simpl in B1, B2.
    destruct (p_width (cropImage f img cw ch) =? 0);
      destruct (p_height (cropImage f img cw ch) =? 0); lia.
Qed.

(** ** Batches without an init message *)



Lemma uninitialised_step (s : State) (m : OffMsg) :
  uninitialised s -> isInit m = false -> uninitialised (fst (onMessage s m)).
Proof.
  intros (Ht & Hb & Hr) Hm.
  destruct m as [imgs o|t n o|k imgs l]; simpl in *; try discriminate.
  - repeat split; assumption.
  - replace (totalBatches s <=? receivedBatches s + 1) with true
      by (symmetry; apply Z.leb_le; lia).
    rewrite orb_true_r; repeat split; simpl; try assumption; lia.
Qed.

Lemma uninitialised_deliver (msgs : list OffMsg) (s : State) :
  uninitialised s -> forallb (fun m => negb (isInit m)) msgs = true ->
  uninitialised (fst (deliver s msgs)).
Proof.
  revert s; induction msgs as [|m msgs IH]; intros s Hs Hm; simpl in *.
  - exact Hs.
  - apply andb_prop in Hm; destruct Hm as [Hm1 Hm2].
    apply negb_true_iff in Hm1.
    pose proof (uninitialised_step s m Hs Hm1) as Hs1.
    destruct (onMessage s m) as [s1 c1]; simpl in Hs1.
    specialize (IH s1 Hs1 Hm2).
    now destruct (deliver s1 msgs).
Qed.

(** C10.  When no [generatePdfBatchInit] has been handled since the
    offscreen document was created, whatever other messages came before,
    [totalBatches] is still 0 and a [generatePdfBatch] message makes the
    listener call [buildPdf] at once with exactly the frames of that batch,
    whether [isLast] is set or not. *)
Theorem batch_without_init_builds_at_once
    (before : list OffMsg) (k : Z) (frames : list DataUrl) (isLast : bool) :
  forallb (fun m => negb (isInit m)) before = true ->
  let s := fst (deliver initial before) in
  totalBatches s = 0 /\
  snd (onMessage s (GeneratePdfBatch k frames isLast)) =
    [mkBuildCall frames (cropSettings s) (sizeSettings s)].
Proof.
  intros Hb s.
  assert (Hs : uninitialised s).
  { apply uninitialised_deliver; [|exact Hb].
    repeat split; simpl; lia. }
  destruct Hs as (Ht & Himgs & Hr).
  split; [exact Ht|].
  simpl.
  replace (totalBatches s <=? receivedBatches s + 1) with true
    by (symmetry; apply Z.leb_le; lia).
  rewrite orb_true_r, Himgs; reflexivity.
Qed.

Lemma batch_without_init_builds_at_once_witness :
  forallb (fun m => negb (isInit m))
          [GeneratePdfBatch 3 ["x"%string] false] = true /\
  snd (onMessage (fst (deliver initial [GeneratePdfBatch 3 ["x"%string] false]))
                 (GeneratePdfBatch 0 ["a"%string; "b"%string] false)) =
    [mkBuildCall ["a"%string; "b"%string] (0, 0) (0, 0)].
Proof.
  split; [reflexivity|].
  apply (batch_without_init_builds_at_once
           [GeneratePdfBatch 3 ["x"%string] false] 0
           ["a"%string; "b"%string] false).
  reflexivity.
Defined.

(** ** Reassembly of batches *)

Lemma batches_in_order (batches : list (list DataUrl)) :
  forall (k : Z) (s : State),
    batches <> [] ->
    receivedBatches s = k ->
    totalBatches s = k + Z.of_nat (List.length batches) ->
    snd (deliver s (Chunked.batchMsgsFrom k batches)) =
      [mkBuildCall (batchedImages s ++ List.concat batches)
                   (cropSettings s) (sizeSettings s)].
Proof.
  induction batches as [|b rest IH]; intros k s Hne Hr Ht; [congruence|].
  destruct rest as [|b' rest'].
  - simpl. now rewrite app_nil_r.
  - change (Chunked.batchMsgsFrom k (b :: b' :: rest'))
      with (GeneratePdfBatch k b false
            :: Chunked.batchMsgsFrom (k + 1) (b' :: rest')).
    cbn [deliver onMessage orb].
    replace (totalBatches s <=? receivedBatches s + 1) with false.
    2:{ symmetry; apply Z.leb_gt. rewrite Ht, Hr. cbn [List.length]. lia. }
    cbv iota.
    match goal with
    | |- context [deliver ?s1 (Chunked.batchMsgsFrom _ _)] =>
        specialize (IH (k + 1) s1)
    end.
    cbn [receivedBatches totalBatches batchedImages cropSettings sizeSettings]
      in IH.
    destruct (deliver _ (Chunked.batchMsgsFrom (k + 1) (b' :: rest')))
      as [s2 c2].
    cbn [snd app] in *.
    rewrite IH.
    + cbn [List.concat]. now rewrite <- app_assoc.
    + discriminate.
    + lia.
    + rewrite Ht. cbn [List.length]. lia.
Qed.

(** C1 (amended).  For every frame sequence and every partition of it into
    at least one batch, when the init message is followed by the batch
    messages in the order of their index, the offscreen document calls
    [buildPdf] exactly as a single [generatePdf] message carrying all the
    frames does: once, on the frames in capture order, with the same crop
    and size settings; the documents built are therefore the same. *)
Theorem chunked_in_order_equals_direct
    (toDataURL : Canvas -> DataUrl) (loadImage : DataUrl -> option Image)
    (s : State) (batches : list (list DataUrl)) (opts : PdfOptions) :
  batches <> [] ->
  Chunked.assembled s batches opts (Chunked.batchMsgsFrom 0 batches) =
    Chunked.direct s (List.concat batches) opts /\
  Chunked.direct s (List.concat batches) opts =
    [mkBuildCall (List.concat batches) (cropOf opts) (sizeOf opts)] /\
  map (buildPdf toDataURL loadImage)
      (Chunked.assembled s batches opts (Chunked.batchMsgsFrom 0 batches)) =
    map (buildPdf toDataURL loadImage)
        (Chunked.direct s (List.concat batches) opts).
Proof.
  intros Hne.
  assert (E : Chunked.assembled s batches opts (Chunked.batchMsgsFrom 0 batches)
              = Chunked.direct s (List.concat batches) opts).
  { unfold Chunked.assembled, Chunked.direct, Chunked.initMsg.
    cbn [deliver onMessage].
    match goal with
    | |- context [deliver ?s1 (Chunked.batchMsgsFrom 0 batches)] =>
        pose proof (batches_in_order batches 0 s1 Hne eq_refl eq_refl) as H
    end.
    cbn [batchedImages cropSettings sizeSettings app] in H.
    destruct (deliver _ (Chunked.batchMsgsFrom 0 batches)) as [s2 c2].
    cbn [snd app] in *. now rewrite H. }
  split; [exact E|]. split; [reflexivity|]. now rewrite E.
Qed.

Lemma chunked_in_order_equals_direct_witness :
  [["a"%string; "b"%string]; ["c"%string]] <> [] /\
  Chunked.assembled initial [["a"%string; "b"%string]; ["c"%string]]
      (mkPdfOptions 0 0 0 0)
      (Chunked.batchMsgsFrom 0 [["a"%string; "b"%string]; ["c"%string]]) =
    Chunked.direct initial ["a"%string; "b"%string; "c"%string]
      (mkPdfOptions 0 0 0 0).
Proof.
  split; [discriminate|].
  apply (chunked_in_order_equals_direct
           (fun _ => EmptyString) (fun _ => None) initial
           [["a"%string; "b"%string]; ["c"%string]] (mkPdfOptions 0 0 0 0)).
  discriminate.
Defined.

(** C1 as stated fails: three one-frame batches of which the first two
    arrive swapped are assembled in arrival order, [b; a; c], because the
    listener appends what arrives and never reads [batchIndex]. *)
Lemma chunked_any_order_counterexample :
  ~ (forall (s : State) (batches : list (list DataUrl)) (opts : PdfOptions)
            (arrival : list OffMsg),
        batches <> [] ->
        Permutation arrival (Chunked.batchMsgsFrom 0 batches) ->
        Chunked.assembled s batches opts arrival =
          Chunked.direct s (List.concat batches) opts).
Proof.
  intros H.
  specialize (H initial [["a"%string]; ["b"%string]; ["c"%string]]
                (mkPdfOptions 0 0 0 0)
                [GeneratePdfBatch 1 ["b"%string] false;
                 GeneratePdfBatch 0 ["a"%string] false;
                 GeneratePdfBatch 2 ["c"%string] true]).
  assert (Hne : [["a"%string]; ["b"%string]; ["c"%string]] <> [])
    by discriminate.
  specialize (H Hne (perm_swap _ _ _)).
  vm_compute in H. discriminate H.
Qed.

(** The same with the last batch arriving first: its [isLast] flag makes
    the listener build at once from that batch alone, and the earlier
    batches are built into a second document when the count is reached. *)
Lemma last_batch_first_builds_twice :
  Chunked.assembled initial [["a"%string]; ["b"%string]] (mkPdfOptions 0 0 0 0)
    [GeneratePdfBatch 1 ["b"%string] true;
     GeneratePdfBatch 0 ["a"%string] false] =
  [mkBuildCall ["b"%string] (0, 0) (0, 0);
   mkBuildCall ["a"%string] (0, 0) (0, 0)].
Proof. reflexivity. Qed.

(** ** The batches the service worker really sends *)

Import ServiceWorker.

Lemma batchCount_div (n : nat) : batchCount n = (Z.of_nat n + 19) / 20.
Proof.
  unfold batchCount, Qceiling, Qfloor, Qdiv, Qmult, Qinv, Qopp, inject_Z,
    BATCH_SIZE; simpl.
  Z.div_mod_to_equations; lia.
Qed.

Lemma firstn_extend {A} (i m : nat) (l : list A) :
  firstn i l ++ firstn m (skipn i l) = firstn (i + m) l.
Proof.
  rewrite firstn_skipn_comm.
  rewrite <- (firstn_skipn i (firstn (i + m) l)) at 2.
  f_equal. rewrite firstn_firstn. f_equal. lia.
Qed.

Lemma sendBatches_assemble (fuel : nat) :
  forall (j : nat) (s : State) (imgs : list DataUrl),
    (BATCH_SIZE * j < List.length imgs)%nat ->
    (List.length imgs - BATCH_SIZE * j <= fuel)%nat ->
    receivedBatches s = Z.of_nat j ->
    totalBatches s = batchCount (List.length imgs) ->
    batchedImages s = firstn (BATCH_SIZE * j) imgs ->
    snd (deliver s (sendBatchesFrom fuel (BATCH_SIZE * j) imgs)) =
      [mkBuildCall imgs (cropSettings s) (sizeSettings s)].
Proof.
  induction fuel as [|fuel IH]; intros j s imgs Hlt Hfuel Hr Ht Hb; [lia|].
  cbn [sendBatchesFrom].
  replace (BATCH_SIZE * j <? List.length imgs)%nat with true
    by (symmetry; now apply Nat.ltb_lt).
  cbn [deliver onMessage].
  destruct (List.length imgs <=? BATCH_SIZE * j + BATCH_SIZE)%nat eqn:Elast.
  - (* the last batch *)
    apply Nat.leb_le in Elast.
    cbn [orb].
    replace (sendBatchesFrom fuel (BATCH_SIZE * j + BATCH_SIZE) imgs)
      with (@nil OffMsg).
    2:{ destruct fuel; [reflexivity|]. cbn [sendBatchesFrom].
        replace (BATCH_SIZE * j + BATCH_SIZE <? List.length imgs)%nat
          with false by (symmetry; apply Nat.ltb_ge; lia).
        reflexivity. }
    cbn [deliver snd app].
    rewrite Hb. rewrite firstn_extend. rewrite firstn_all2 by lia.
    reflexivity.
  - (* a batch that is not the last *)
    apply Nat.leb_gt in Elast.
    cbn [orb].
    replace (totalBatches s <=? receivedBatches s + 1) with false.
    2:{ symmetry; apply Z.leb_gt. rewrite Ht, Hr, batchCount_div.
        unfold BATCH_SIZE in *. Z.div_mod_to_equations; lia. }
    replace (BATCH_SIZE * j + BATCH_SIZE)%nat with (BATCH_SIZE * S j)%nat
      in * by lia.
    match goal with
    | |- context [deliver ?s1 (sendBatchesFrom fuel _ imgs)] =>
        specialize (IH (S j) s1 imgs)
    end.
    cbn [receivedBatches totalBatches batchedImages cropSettings sizeSettings]
      in IH.
    destruct (deliver _ (sendBatchesFrom fuel (BATCH_SIZE * S j) imgs))
      as [s2 c2].
    cbn [snd app] in *.
    apply IH.
    + lia.
    + unfold BATCH_SIZE in *; lia.
    + lia.
    + assumption.
    + rewrite Hb. rewrite firstn_extend. f_equal. lia.
Qed.

(** Whatever the number of frames, the messages [generatePdf] sends, taken
    in the order they were sent, make the offscreen document call [buildPdf]
    exactly once, on all the frames in capture order. *)
Lemma pdfMessages_assemble (s : State) (imgs : list DataUrl) (opts : PdfOptions) :
  snd (deliver s (pdfMessages imgs opts)) =
    [mkBuildCall imgs (cropOf opts) (sizeOf opts)].
Proof.
  unfold pdfMessages.
  destruct (List.length imgs <=? BATCH_SIZE)%nat eqn:E; [reflexivity|].
  apply Nat.leb_gt in E.
  cbn [deliver onMessage].
  match goal with
  | |- context [deliver ?s1 (sendBatchesFrom _ 0%nat imgs)] =>
      pose proof (sendBatches_assemble (List.length imgs) 0 s1 imgs) as H
  end.
  replace (BATCH_SIZE * 0)%nat with 0%nat in H by lia.
  cbn [receivedBatches totalBatches batchedImages cropSettings sizeSettings
       firstn] in H.
  destruct (deliver _ (sendBatchesFrom (List.length imgs) 0 imgs)) as [s2 c2].
  cbn [snd app] in *.
  apply H; try reflexivity; unfold BATCH_SIZE in *; lia.
Qed.

End OffscreenProofs.

(* ================================================================== *)
(** * Properties of the service worker *)
(* ================================================================== *)

Module CaptureProofs.

Import ServiceWorker CaptureAux.

(** A stop request that arrives during an await is handled as the
    listener's [stopCapture] case does. *)
Lemma await_handles_stop (env : Env) (w : World) :
  snd (await env w) =
  let resumed := mkWorld (state w) (S (clock w)) (zoom w) (zooms w) (shots w)
                         (tabMsgs w) (keepAlive w) (sent w) (responses w)
                         (calls w) in
  if stopRequested env (clock w) then snd (handleStopCapture resumed)
  else resumed.
Proof.
  unfold await; cbn. now destruct (stopRequested env (clock w)).
Qed.

(** ** Computations that send nothing *)

Lemma set_isRunning_idem (b : bool) (s : CaptureState) :
  set_isRunning b (set_isRunning b s) = set_isRunning b s.
Proof. reflexivity. Qed.

Lemma quietStep_refl (env : Env) (w : World) : quietStep env w w.
Proof. unfold quietStep; intuition. Qed.

Lemma quietStep_trans (env : Env) (w1 w2 w3 : World) :
  quietStep env w1 w2 -> quietStep env w2 w3 -> quietStep env w1 w3.
Proof.
  intros (S1 & K1 & T1 & N1 & Z1 & C1) (S2 & K2 & T2 & N2 & Z2 & C2).
  unfold quietStep; repeat split; try congruence; try lia.
  - destruct T1 as [T1|T1], T2 as [T2|T2]; rewrite T2, T1; auto.
  - intros Hn. now rewrite N2, N1.
Qed.

Section Quiet.

Variable env : Env.

Lemma quiet_ret {A} (a : A) : quiet env (ret a).
Proof. intros w; apply quietStep_refl. Qed.

Lemma quiet_bind {A B} (c : M A) (k : A -> M B) :
  quiet env c -> (forall a, quiet env (k a)) -> quiet env (bind c k).
Proof.
  intros Hc Hk w. unfold bind.
  specialize (Hc w). destruct (c w) as [a w1]; simpl in Hc.
  eapply quietStep_trans; [exact Hc|apply Hk].
Qed.

Lemma quiet_await : quiet env (await env).
Proof.
  intros w; unfold await, quietStep, neverStopped; simpl.
  repeat split; try lia.
  - destruct (stopRequested env (clock w)); auto.
  - intros Hn. now rewrite Hn.
Qed.

Lemma quiet_logCall (c : Call) : quiet env (logCall c).
Proof. intros w; unfold logCall, quietStep; simpl; intuition. Qed.

Lemma quiet_getState : quiet env getState.
Proof. intros w; apply quietStep_refl. Qed.

Lemma quiet_sleep (ms : Z) : quiet env (sleep env ms).
Proof.
  unfold sleep.
  apply quiet_bind; [apply quiet_logCall|intros _].
  apply quiet_bind; [apply quiet_await|intros _; apply quiet_ret].
Qed.

Lemma quiet_setZoom (q : Q) : quiet env (setZoom env q).
Proof.
  unfold setZoom.
  apply quiet_bind; [apply quiet_logCall|intros _].
  apply quiet_bind; [apply quiet_await|intros _].
  intros w; unfold quietStep; simpl; intuition.
Qed.

Lemma quiet_captureVisibleTab : quiet env (captureVisibleTab env).
Proof.
  unfold captureVisibleTab.
  apply quiet_bind; [apply quiet_logCall|intros _].
  apply quiet_bind; [apply quiet_await|intros _].
  intros w; unfold quietStep; simpl; intuition.
Qed.

Lemma quiet_tabSend (r : TabRequest) : quiet env (tabSend env r).
Proof.
  unfold tabSend.
  apply quiet_bind; [apply quiet_logCall|intros _].
  apply quiet_bind; [apply quiet_await|intros _].
  intros w; unfold quietStep; simpl; intuition.
Qed.

End Quiet.

(** Composite computations are handled by walking down their binds. *)
Ltac quiet_walk :=
  repeat first
    [ apply quiet_ret
    | apply quiet_sleep
    | apply quiet_setZoom
    | apply quiet_captureVisibleTab
    | apply quiet_tabSend
    | apply quiet_getState
    | apply quiet_await
    | assumption
    | apply quiet_bind; [|intros ?]
    | match goal with
      | |- quiet _ (if ?b then _ else _) => destruct b
      | |- quiet _ (match ?x with _ => _ end) => destruct x
      end ].

Section QuietComposite.

Variable env : Env.

Lemma quiet_zoomedAttempt (level : Q) : quiet env (zoomedAttempt env level).
Proof. unfold zoomedAttempt; quiet_walk. Qed.

Lemma quiet_captureWithZoomFrom (fuel : nat) :
  forall attempt level, quiet env (captureWithZoomFrom env fuel attempt level).
Proof.
  induction fuel as [|fuel IH]; intros attempt level; simpl.
  - apply quiet_ret.
  - pose proof (quiet_zoomedAttempt level).
    pose proof (IH (attempt + 1) level).
    quiet_walk.
Qed.

Lemma quiet_captureWithZoom (level : Q) : quiet env (captureWithZoom env level).
Proof. apply quiet_captureWithZoomFrom. Qed.

Lemma quiet_turnPage (d : string) (ms : Z) : quiet env (turnPage env d ms).
Proof. unfold turnPage; quiet_walk. Qed.

Lemma quiet_waitForContentReadyFrom (fuel : nat) :
  forall i, quiet env (waitForContentReadyFrom env fuel i).
Proof.
  induction fuel as [|fuel IH]; intros i; simpl.
  - apply quiet_ret.
  - pose proof (IH (i + 1)). quiet_walk.
Qed.

Lemma quiet_waitForContentReady : quiet env (waitForContentReady env).
Proof. apply quiet_waitForContentReadyFrom. Qed.

Lemma quiet_captureWithRetryFrom (fuel : nat) :
  forall attempt level, quiet env (captureWithRetryFrom env fuel attempt level).
Proof.
  induction fuel as [|fuel IH]; intros attempt level; simpl.
  - apply quiet_captureWithZoom.
  - pose proof (quiet_captureWithZoom level).
    pose proof (IH (attempt + 1) level).
    pose proof quiet_waitForContentReady.
    quiet_walk.
Qed.

Lemma quiet_captureWithRetry (level : Q) : quiet env (captureWithRetry env level).
Proof. apply quiet_captureWithRetryFrom. Qed.

End QuietComposite.

(** ** Zoom restoration *)

Lemma lastZoom_snoc (cs : list Call) (c : Call) :
  lastZoom (cs ++ [c]) =
  match c with
  | SetZoom q => Some q
  | _ => lastZoom cs
  end.
Proof.
  induction cs as [|c0 cs IH]; simpl.
  - now destruct c.
  - rewrite IH. destruct c; try reflexivity.
Qed.

Section Zoom.

Variable env : Env.

Lemma setZoom_one_puts_back (w : World) :
  zoomPutBack env (snd (setZoom env 1 w)).
Proof.
  unfold zoomPutBack; cbn. rewrite lastZoom_snoc. split; [reflexivity|].
  intros H. now rewrite H.
Qed.

Lemma sleep_keeps_zoom (ms : Z) (w : World) :
  zoomPutBack env w -> zoomPutBack env (snd (sleep env ms w)).
Proof.
  unfold zoomPutBack; cbn. now rewrite lastZoom_snoc.
Qed.

Lemma capture_keeps_zoom (w : World) :
  zoomPutBack env w -> zoomPutBack env (snd (captureVisibleTab env w)).
Proof.
  unfold zoomPutBack; cbn. now rewrite lastZoom_snoc.
Qed.

(** An attempt that returns a picture has restored the zoom: the restoring
    call resolved, or the [try] block would have thrown. *)
Lemma zoomedAttempt_returned (level : Q) (w w' : World) (url : DataUrl) :
  zoomedAttempt env level w = (Returned url, w') ->
  lastZoom (calls w') = Some 1%Q /\ zoom w' = 1%Q.
Proof.
  unfold zoomedAttempt, bind.
  destruct (setZoom env level w) as [zoomed w1].
  destruct zoomed; [|discriminate].
  destruct (sleep env 400 w1) as [[] w2].
  destruct (captureVisibleTab env w2) as [[shot|] w3]; [|discriminate].
  destruct (setZoom env 1 w3) as [restored w4] eqn:E4.
  destruct restored; [|discriminate].
  destruct (sleep env 200 w4) as [[] w5] eqn:E5.
  intros [= _ <-].
  replace w5 with (snd (sleep env 200 w4)) by now rewrite E5.
  replace w4 with (snd (setZoom env 1 w3)) by now rewrite E4.
  assert (Hok : fst (setZoom env 1 w3) = true) by now rewrite E4.
  cbn in Hok |- *. rewrite !lastZoom_snoc. now rewrite Hok.
Qed.

Lemma captureWithZoomFrom_puts_back (level : Q) (fuel : nat) :
  forall (attempt : Z) (w : World),
    Z.of_nat fuel = MAX_RETRIES - attempt ->
    (0 < fuel)%nat ->
    zoomPutBack env (snd (captureWithZoomFrom env fuel attempt level w)).
Proof.
  induction fuel as [|fuel IH]; intros attempt w Hfuel Hpos; [lia|].
  cbn [captureWithZoomFrom].
  replace (attempt <? MAX_RETRIES) with true by (symmetry; apply Z.ltb_lt; lia).
  unfold bind at 1.
  destruct (zoomedAttempt env level w) as [[url|] w1] eqn:E1.
  - apply zoomedAttempt_returned in E1. destruct E1 as [E1 E2].
    split; [exact E1|intros _; exact E2].
  - unfold bind at 1.
    pose proof (setZoom_one_puts_back w1) as P2.
    destruct (setZoom env 1 w1) as [ok w2]; cbn [snd] in P2.
    unfold bind at 1.
    pose proof (sleep_keeps_zoom 300 w2 P2) as P3.
    destruct (sleep env 300 w2) as [[] w3]; cbn [snd] in P3.
    destruct (attempt =? MAX_RETRIES - 1) eqn:Elast.
    + now apply capture_keeps_zoom.
    + apply Z.eqb_neq in Elast. apply IH; lia.
Qed.

(** C6 (amended).  On every path through [captureWithZoom], whether an
    attempt succeeds, throws, or the function falls through to the final
    un-zoomed capture, the last zoom call made before it returns is
    [setZoom(tabId, 1.0)]; and provided the browser does not reject these
    restoring calls, the tab is at zoom 1.0 when [captureWithZoom]
    returns. *)
Theorem captureWithZoom_restores_zoom (level : Q) (w : World) :
  lastZoom (calls (snd (captureWithZoom env level w))) = Some 1%Q /\
  (restoreResolves env -> zoom (snd (captureWithZoom env level w)) = 1%Q).
Proof.
  apply (captureWithZoomFrom_puts_back level); [reflexivity|].
  unfold MAX_RETRIES; simpl; lia.
Qed.

End Zoom.

Lemma captureWithZoom_restores_zoom_witness :
  restoreResolves blind /\
  zoom (snd (captureWithZoom blind 2 initialWorld)) = 1%Q.
Proof.
  assert (H : restoreResolves blind) by (intros k; reflexivity).
  split; [exact H|].
  exact (proj2 (captureWithZoom_restores_zoom blind 2 initialWorld) H).
Defined.

(** C6 as stated fails: when the browser rejects the restoring calls, the
    rejection is caught and ignored, and [captureWithZoom] returns (here
    with the picture of the final un-zoomed attempt) while the tab is still
    at the zoom level of the capture. *)
Lemma captureWithZoom_zoom_counterexample :
  ~ (forall (env : Env) (level : Q) (w : World),
        (zoom (snd (captureWithZoom env level w)) == 1)%Q).
Proof.
  intros H.
  specialize (H restoreRejected 2%Q initialWorld).
  vm_compute in H. discriminate H.
Qed.

(** ** Blank-suspect classification *)



Lemma size_at_threshold (url : DataUrl) :
  (sizeKB url == 30)%Q <-> Z.of_nat (String.length url) = 40960.
Proof.
  unfold sizeKB, Qeq, Qdiv, Qmult, Qinv, inject_Z; simpl. lia.
Qed.

Section Retry.

Variable env : Env.





(** After the loop, the fourth capture is returned whatever its size. *)
Lemma captureWithRetry_last_unconditional (level : Q) (attempt : Z) (w : World) :
  MAX_RETRIES <= attempt ->
  forall fuel, captureWithRetryFrom env fuel attempt level w =
               captureWithZoom env level w.
Proof.
  intros H [|fuel]; cbn [captureWithRetryFrom]; [reflexivity|].
  replace (attempt <? MAX_RETRIES) with false
    by (symmetry; apply Z.ltb_ge; lia).
  reflexivity.
Qed.

End Retry.



(** ** What the capture loop sends *)

Lemma sameSession_refl (w : World) : sameSession w w.
Proof. unfold sameSession; auto. Qed.

Lemma sameSession_trans (w1 w2 w3 : World) :
  sameSession w1 w2 -> sameSession w2 w3 -> sameSession w1 w3.
Proof.
  unfold sameSession; intros (A1 & B1 & C1) (A2 & B2 & C2).
  repeat split; congruence.
Qed.

Lemma quietStep_sameSession (env : Env) (w w' : World) :
  quietStep env w w' -> sameSession w w'.
Proof.
  intros (_ & _ & [T|T] & _); unfold sameSession; rewrite T; auto.
Qed.

Lemma quietStep_running (env : Env) (w w' : World) :
  quietStep env w w' ->
  isRunning (state w') = true -> isRunning (state w) = true.
Proof.
  intros (_ & _ & [T|T] & _); rewrite T; [auto|discriminate].
Qed.





Section Loop.

Variable env : Env.

Lemma sendAll_spec (msgs : list OffMsg) (w : World) :
  snd (sendAll msgs w) =
  mkWorld (state w) (clock w) (zoom w) (zooms w) (shots w) (tabMsgs w)
          (keepAlive w) (sent w ++ map ToOffscreen msgs) (responses w)
          (calls w).
Proof.
  revert w; induction msgs as [|m msgs IH]; intros w; cbn.
  - rewrite app_nil_r. now destruct w.
  - unfold bind, send; cbn. rewrite IH; cbn. now rewrite <- app_assoc.
Qed.

Lemma quiet_setupOffscreenDocument : quiet env (setupOffscreenDocument env).
Proof. unfold setupOffscreenDocument; quiet_walk. Qed.

(** [generatePdf] leaves the session data alone and sends nothing when
    there is no frame. *)
Lemma generatePdf_spec (w : World) :
  sameSession w (snd (generatePdf env w)) /\
  keepAlive (snd (generatePdf env w)) = keepAlive w /\
  exists gen,
    sent (snd (generatePdf env w)) = sent w ++ gen /\ pdfOutput gen /\
    (images (state w) = [] -> gen = []).
Proof.
  unfold generatePdf, bind, getState.
  destruct (List.length (images (state w)) =? 0)%nat eqn:E.
  - cbn. split; [apply sameSession_refl|]. split; [reflexivity|].
    exists []. rewrite app_nil_r. repeat split; auto. now left.
  - apply Nat.eqb_neq in E.
    pose proof (quiet_setupOffscreenDocument w) as Q.
    destruct (setupOffscreenDocument env w) as [ready w1]; cbn [snd] in Q.
    pose proof (quietStep_sameSession _ _ _ Q) as SS.
    destruct Q as (Qs & Qk & _).
    destruct ready.
    + rewrite sendAll_spec; cbn.
      split; [exact SS|]. split; [exact Qk|].
      eexists; rewrite Qs; split; [reflexivity|]. split.
      * left. apply Forall_forall. intros m Hm.
        apply in_map_iff in Hm. destruct Hm as (x & <- & _). reflexivity.
      * intros Himgs. rewrite Himgs in E. cbn in E. lia.
    + cbn. split; [exact SS|]. split; [exact Qk|].
      eexists; rewrite Qs; split; [reflexivity|]. split.
      * now right.
      * intros Himgs. rewrite Himgs in E. cbn in E. lia.
Qed.

(** One iteration of the main loop, by the way it ends. *)
Lemma loopBody_spec (start : Z) (dir : string) (level : Q) (wait page : Z)
    (w w' : World) (r : BodyExit) :
  loopBody env start dir level wait page w = (r, w') ->
  totalPages (state w') = totalPages (state w) /\
  match r with
  | StoppedAtTop =>
      isRunning (state w) = false /\
      images (state w') = images (state w) /\
      exists gen, sent w' = sent w ++ CaptureStopped :: gen /\ pdfOutput gen
  | Broke =>
      isRunning (state w) = true /\ isRunning (state w') = false /\
      sent w' = sent w /\ images (state w') = images (state w)
  | Continued d =>
      isRunning (state w) = true /\
      sent w' = sent w ++ [Progress (page - start + 1) (totalPages (state w))] /\
      images (state w') = images (state w) ++ keep d
  end.
Proof.
  unfold loopBody. unfold bind at 1. unfold getState at 1.
  destruct (isRunning (state w)) eqn:Erun; cbn [negb].
  - unfold bind at 1. unfold modifyState at 1.
    unfold bind at 1.
    match goal with
    | |- context [(if start <? page then ?a else ?b) ?w0] =>
        assert (Q1 : quietStep env w0
                       (snd ((if start <? page then a else b) w0)))
          by (destruct (start <? page);
              [apply quiet_turnPage|apply quiet_sleep]);
        destruct ((if start <? page then a else b) w0) as [[] w1]
    end.
    cbn [snd] in Q1.
    unfold bind at 1. unfold getState at 1.
    destruct (isRunning (state w1)) eqn:Erun1; cbn [negb].
    + unfold bind at 1.
      pose proof (quiet_waitForContentReady env w1) as Q2.
      destruct (waitForContentReady env w1) as [[] w2]; cbn [snd] in Q2.
      unfold bind at 1.
      pose proof (quiet_captureWithRetry env level w2) as Q3.
      destruct (captureWithRetry env level w2) as [d w3]; cbn [snd] in Q3.
      pose proof (quietStep_trans _ _ _ _ Q1 (quietStep_trans _ _ _ _ Q2 Q3)) as Q.
      pose proof (quietStep_sameSession _ _ _ Q) as (Si & St & _).
      destruct Q as (Qs & _ & _ & _).
      cbn [state sent] in Si, St, Qs.
      destruct d as [url|]; [destruct (falsy (Some url)) eqn:Ef|];
        intros [= <- <-]; unfold keep; rewrite ?Ef; cbn;
        rewrite ?app_nil_r, ?Qs, ?Si, ?St; auto.
    + cbn. intros [= <- <-].
      pose proof (quietStep_sameSession _ _ _ Q1) as (Si & St & _).
      destruct Q1 as (Qs & _).
      cbn in *. auto.
  - unfold bind, broadcast, send, stopKeepAlive, setAlarm, getState; cbn [state].
    match goal with
    | |- context [(if ?b then generatePdf env else ret tt) ?w0] =>
        assert (G : sameSession
                      w0 (snd ((if b then generatePdf env else ret tt) w0)) /\
                    exists gen,
                      sent (snd ((if b then generatePdf env else ret tt) w0))
                      = sent w0 ++ gen /\
                      pdfOutput gen);
        [|destruct ((if b then generatePdf env else ret tt) w0) as [[] w1]]
    end.
    { destruct (0 <? _)%nat.
      - match goal with
        | |- context [generatePdf env ?w0] =>
            destruct (generatePdf_spec w0) as (A & _ & gen & B & C & _)
        end.
        split; [exact A|]. now exists gen.
      - cbn. split; [apply sameSession_refl|].
        exists []. rewrite app_nil_r. split; [reflexivity|].
        left; constructor. }
    cbn [snd] in G. destruct G as ((Si & St & _) & gen & Gs & Gp).
    cbn in Si, St, Gs.
    intros [= <- <-]. repeat split; auto.
    exists gen. rewrite Gs, <- app_assoc. auto.
Qed.

(** Without a stop request a running session goes through the whole body. *)
Lemma loopBody_running (start : Z) (dir : string) (level : Q) (wait page : Z)
    (w : World) :
  neverStopped env -> isRunning (state w) = true ->
  exists d w', loopBody env start dir level wait page w = (Continued d, w') /\
               isRunning (state w') = true.
Proof.
  intros Hn Hrun.
  destruct (loopBody env start dir level wait page w) as [r w'] eqn:E.
  revert E.
  unfold loopBody. unfold bind at 1. unfold getState at 1.
  rewrite Hrun; cbn [negb].
  unfold bind at 1. unfold modifyState at 1.
  unfold bind at 1.
  match goal with
  | |- context [(if start <? page then ?a else ?b) ?w0] =>
      assert (Q1 : quietStep env w0
                     (snd ((if start <? page then a else b) w0)))
        by (destruct (start <? page);
            [apply quiet_turnPage|apply quiet_sleep]);
      destruct ((if start <? page then a else b) w0) as [[] w1]
  end.
  cbn [snd] in Q1. destruct Q1 as (_ & _ & _ & N1 & _).
  specialize (N1 Hn). cbn [state] in N1.
  unfold bind at 1. unfold getState at 1.
  rewrite N1. cbn [isRunning set_currentPage]. rewrite Hrun. cbn [negb].
  unfold bind at 1.
  pose proof (quiet_waitForContentReady env w1) as (_ & _ & _ & N2 & _).
  destruct (waitForContentReady env w1) as [[] w2]; cbn [snd] in N2.
  unfold bind at 1.
  pose proof (quiet_captureWithRetry env level w2) as (_ & _ & _ & N3 & _).
  destruct (captureWithRetry env level w2) as [d w3]; cbn [snd] in N3.
  specialize (N2 Hn). specialize (N3 Hn).
  assert (R3 : isRunning (state w3) = true).
  { rewrite N3, N2, N1. exact Hrun. }
  destruct d as [url|]; [destruct (falsy (Some url))|];
    intros [= <- <-]; eexists; eexists; (split; [reflexivity|]); cbn;
    exact R3.
Qed.


Lemma mainLoopFrom_spec (start last : Z) (dir : string) (level : Q) (wait : Z)
    (fuel : nat) :
  forall (page : Z) (w w' : World) (r : LoopExit),
    mainLoopFrom env fuel page start last dir level wait w = (r, w') ->
    let results := pageResultsFrom env fuel page start last dir level wait w in
    totalPages (state w') = totalPages (state w) /\
    images (state w') = images (state w) ++ flat_map keep results /\
    (List.length results <= fuel)%nat /\
    Z.of_nat (List.length results) <= Z.max 0 (last - page + 1) /\
    exists rest,
      sent w' = sent w ++ progressFrom start (totalPages (state w)) page
                                       (List.length results) ++ rest /\
      match r with
      | FunctionReturned =>
          exists gen, rest = CaptureStopped :: gen /\ pdfOutput gen
      | LoopDone => rest = []
      end.
Proof.
  induction fuel as [|fuel IH]; intros page w w' r.
  - cbn. intros [= <- <-]. repeat split; rewrite ?app_nil_r; try lia; auto.
    exists []. now rewrite app_nil_r.
  - cbn [mainLoopFrom pageResultsFrom].
    destruct (page <=? last) eqn:Epage.
    2:{ cbn. intros [= <- <-]. repeat split; rewrite ?app_nil_r; try lia; auto.
        exists []. now rewrite app_nil_r. }
    apply Z.leb_le in Epage.
    unfold bind at 1.
    destruct (loopBody env start dir level wait page w) as [r0 w1] eqn:E0.
    pose proof (loopBody_spec _ _ _ _ _ _ _ _ E0) as (T0 & S0).
    destruct r0 as [| |d].
    + cbn. intros [= <- <-]. destruct S0 as (_ & I0 & gen & G0 & P0).
      repeat split; rewrite ?app_nil_r; try lia; auto.
      exists (CaptureStopped :: gen). split; [exact G0|]. now exists gen.
    + cbn. intros [= <- <-]. destruct S0 as (_ & _ & G0 & I0).
      repeat split; rewrite ?app_nil_r; try lia; auto.
      exists []. now rewrite app_nil_r.
    + intros E. destruct S0 as (_ & G0 & I0).
      specialize (IH _ _ _ _ E). cbv zeta in IH.
      destruct IH as (T1 & I1 & L1 & B1 & rest & G1 & R1).
      cbv zeta. cbn [List.length flat_map progressFrom].
      repeat split.
      * congruence.
      * rewrite I1, I0. now rewrite app_assoc.
      * lia.
      * lia.
      * exists rest. split; [|exact R1].
        rewrite G1, G0, T0. rewrite <- !app_assoc. reflexivity.
Qed.
Lemma quiet_skipToStartFrom (start : Z) (dir : string) (wait : Z) (fuel : nat) :
  forall i, quiet env (skipToStartFrom env fuel i start dir wait).
Proof.
  induction fuel as [|fuel IH]; intros i; cbn [skipToStartFrom].
  - apply quiet_ret.
  - pose proof (IH (i + 1)). pose proof (quiet_turnPage env dir wait).
    quiet_walk.
Qed.

Lemma navigateToStart_spec (st : CaptureState) (w : World) :
  sameSession w (snd (navigateToStart env st w)) /\
  sent (snd (navigateToStart env st w)) =
    sent w ++ (if 1 <? startPage st then [Progress 0 (totalPages st)] else []) /\
  (neverStopped env ->
   state (snd (navigateToStart env st w)) = state w).
Proof.
  unfold navigateToStart.
  destruct (1 <? startPage st).
  - unfold bind, broadcastProgress, broadcast, send.
    match goal with
    | |- context [skipToStartFrom env ?f ?i ?s ?d ?wt ?w0] =>
        pose proof (quiet_skipToStartFrom s d wt f i w0) as Q;
        destruct (skipToStartFrom env f i s d wt w0) as [[] w1]
    end.
    cbn [snd] in *.
    pose proof (quietStep_sameSession _ _ _ Q) as SS.
    destruct Q as (Qs & _ & _ & N & _). cbn in *.
    repeat split; try apply SS; auto.
  - cbn. rewrite app_nil_r. repeat split; auto.
Qed.

Lemma afterLoop_spec (w : World) :
  sameSession w (snd (afterLoop env w)) /\
  ((isRunning (state w) = false /\ images (state w) = [] /\
    sent (snd (afterLoop env w)) = sent w) \/
   (exists gen,
      sent (snd (afterLoop env w)) = sent w ++ CaptureComplete :: gen /\
      pdfOutput gen)).
Proof.
  destruct (afterLoop env w) as [[] w'] eqn:E. cbn [snd]. revert E.
  unfold afterLoop. unfold bind at 1. unfold getState at 1. cbv beta iota.
  destruct (negb (isRunning (state w)) && (List.length (images (state w)) =? 0)%nat)
    eqn:E.
  - apply andb_prop in E. destruct E as [E1 E2].
    apply negb_true_iff in E1. apply Nat.eqb_eq in E2.
    apply length_zero_iff_nil in E2.
    cbn. intros [= <-]. split; [unfold sameSession; cbn; auto|]. left. auto.
  - unfold bind, modifyState, stopKeepAlive, setAlarm, broadcast, send.
    match goal with
    | |- context [generatePdf env ?w0] =>
        destruct (generatePdf_spec w0) as (SS & _ & gen & G & P & _);
        destruct (generatePdf env w0) as [[] w1]
    end.
    cbn in *. intros [= <-]. split.
    + destruct SS as (A & B & C). repeat split; auto.
    + right. exists gen. rewrite G, <- app_assoc. auto.
Qed.

Lemma captureLoop_unfold (w : World) :
  captureLoop env w =
  let (r, w1) := mainLoop env (state w) (pagesToVisit (state w))
                          (atLoopEntry env w) in
  match r with
  | FunctionReturned => (tt, w1)
  | LoopDone => afterLoop env w1
  end.
Proof.
  unfold captureLoop, atLoopEntry, bind, getState.
  destruct (navigateToStart env (state w) w) as [[] w0]. cbn [snd].
  destruct (mainLoop env (state w) (pagesToVisit (state w)) w0) as [[|] w1];
    reflexivity.
Qed.

Lemma emitted_app (w w' : World) (new : list Msg) :
  sent w' = sent w ++ new -> emitted w w' = new.
Proof.
  intros H. unfold emitted. rewrite H.
  rewrite skipn_app, skipn_all, Nat.sub_diag. reflexivity.
Qed.

(** The whole of [captureLoop]: what it sends and the frames it leaves. *)
Lemma captureLoop_spec (w : World) :
  let results := pageResults env (state w) (pagesToVisit (state w))
                             (atLoopEntry env w) in
  let w' := snd (captureLoop env w) in
  images (state w') = images (state w) ++ flat_map keep results /\
  exists rest,
    sent w' =
      sent w
      ++ (if 1 <? startPage (state w)
          then [Progress 0 (totalPages (state w))] else [])
      ++ progressFrom (startPage (state w)) (totalPages (state w))
                      (startPage (state w)) (List.length results)
      ++ rest /\
    ((stoppedAtLoopTop env w /\
      exists gen, rest = CaptureStopped :: gen /\ pdfOutput gen) \/
     (~ stoppedAtLoopTop env w /\ rest = [] /\ images (state w') = []) \/
     (~ stoppedAtLoopTop env w /\
      exists gen, rest = CaptureComplete :: gen /\ pdfOutput gen)).
Proof.
  intros results w'. subst w'. rewrite captureLoop_unfold.
  unfold stoppedAtLoopTop.
  pose proof (navigateToStart_spec (state w) w) as ((I0 & T0 & _) & G0 & _).
  fold (atLoopEntry env w) in I0, T0, G0.
  destruct (mainLoop env (state w) (pagesToVisit (state w)) (atLoopEntry env w))
    as [r w1] eqn:E.
  pose proof (mainLoopFrom_spec _ _ _ _ _ _ _ _ _ _ E) as M.
  cbv zeta in M. fold (pageResults env (state w) (pagesToVisit (state w))
                                   (atLoopEntry env w)) in M.
  fold results in M.
  destruct M as (T1 & I1 & _ & _ & rest & G1 & R1).
  rewrite G0, T0 in G1. rewrite I0 in I1. rewrite T0 in T1.
  cbn [fst].
  destruct r.
  - cbn [snd]. split; [exact I1|].
    exists rest. split; [rewrite G1, <- !app_assoc; reflexivity|].
    left. split; [reflexivity|exact R1].
  - subst rest. rewrite app_nil_r in G1.
    pose proof (afterLoop_spec w1) as ((I2 & _) & A2).
    split; [congruence|].
    destruct A2 as [(_ & E2 & G2)|(gen & G2 & P2)].
    + exists []. split.
      * rewrite G2, G1, app_nil_r, <- !app_assoc. reflexivity.
      * right; left. repeat split; try discriminate. congruence.
    + exists (CaptureComplete :: gen). split.
      * rewrite G2, G1, <- !app_assoc. reflexivity.
      * right; right. split; [discriminate|]. now exists gen.
Qed.






(** C9.  When the capture of a page fails entirely ([captureWithRetry]
    returns null, so that no frame is appended), the iteration still sends
    exactly one progress notification, with [captured = page - startPage +
    1]: the field counts pages processed, not frames.  It can exceed the
    number of frames: over pages 1 to 2 with every capture rejected,
    [captured] reaches 2 while no frame was accumulated. *)
Theorem progress_counts_pages_not_frames :
  (forall (start : Z) (dir : string) (level : Q) (wait page : Z)
          (w w' : World) (d : option DataUrl),
      loopBody env start dir level wait page w = (Continued d, w') ->
      falsy d = true ->
      emitted w w' = [Progress (page - start + 1) (totalPages (state w))] /\
      images (state w') = images (state w)) /\
  (In (Progress 2 2) (sent (snd (captureLoop blind twoPages))) /\
   images (state (snd (captureLoop blind twoPages))) = []).
Proof.
  split.
  - intros start dir level wait page w w' d E Hd.
    pose proof (loopBody_spec _ _ _ _ _ _ _ _ E) as (_ & _ & G & I).
    split; [now apply emitted_app|].
    rewrite I. unfold keep. destruct d; [rewrite Hd|]; now rewrite app_nil_r.
  - vm_compute. auto.
Qed.


(** [handlePdfReady] reports the download exactly once: [downloadReady], or
    [captureError] when the download is rejected. *)
Lemma handlePdfReady_reports_once (w : World) :
  exists m, sent (snd (handlePdfReady env w)) = sent w ++ [m] /\
            (isDownload m = true \/ isError m = true).
Proof.
  unfold handlePdfReady, bind, await, getState, broadcast, send, modifyState.
  cbn [fst snd].
  destruct (downloadOk env (clock w)); cbn; eexists; split;
    try reflexivity; auto.
Qed.

End Loop.




Lemma progress_counts_pages_not_frames_witness :
  (loopBody blind 1 "prev" 2 2000 1 twoPages =
     (Continued None, snd (loopBody blind 1 "prev" 2 2000 1 twoPages)) /\
   falsy None = true) /\
  images (state (snd (loopBody blind 1 "prev" 2 2000 1 twoPages))) =
    images (state twoPages).
Proof.
  assert (H1 : loopBody blind 1 "prev" 2 2000 1 twoPages =
               (Continued None, snd (loopBody blind 1 "prev" 2 2000 1 twoPages)))
    by (vm_compute; reflexivity).
  assert (H2 : falsy None = true) by reflexivity.
  split; [exact (conj H1 H2)|].
  exact (proj2 (proj1 (progress_counts_pages_not_frames blind)
                  1 "prev"%string 2%Q 2000 1 twoPages _ None H1 H2)).
Defined.

(** ** The stop scenario of C5 *)

Lemma listEqb_sound {A} (eqb : A -> A -> bool) :
  (forall x y, eqb x y = true -> x = y) ->
  forall a b, listEqb eqb a b = true -> a = b.
Proof.
  intros Hs. induction a as [|x a IH]; intros [|y b]; cbn; try discriminate.
  - reflexivity.
  - intros H. apply andb_prop in H. destruct H as [H1 H2].
    f_equal; [now apply Hs|now apply IH].
Qed.

Lemma optsEqb_sound (a b : PdfOptions) : optsEqb a b = true -> a = b.
Proof.
  unfold optsEqb. destruct a, b; cbn. intros H.
  repeat (apply andb_prop in H; destruct H as [H ?]).
  repeat match goal with E : (_ =? _) = true |- _ => apply Z.eqb_eq in E end.
  congruence.
Qed.

Lemma offMsgEqb_sound (a b : OffMsg) : offMsgEqb a b = true -> a = b.
Proof.
  destruct a, b; cbn; try discriminate; intros H;
    repeat (apply andb_prop in H; destruct H as [H ?]);
    repeat match goal with
           | E : (_ =? _) = true |- _ => apply Z.eqb_eq in E
           | E : optsEqb _ _ = true |- _ => apply optsEqb_sound in E
           | E : listEqb String.eqb _ _ = true |- _ =>
               apply (listEqb_sound String.eqb) in E;
               [|intros x y; apply String.eqb_eq]
           | E : Bool.eqb _ _ = true |- _ => apply Bool.eqb_prop in E
           end; congruence.
Qed.

Lemma msgEqb_sound (a b : Msg) : msgEqb a b = true -> a = b.
Proof.
  destruct a, b; cbn; try discriminate; intros H.
  - apply andb_prop in H. destruct H as [H1 H2].
    apply Z.eqb_eq in H1, H2. congruence.
  - reflexivity.
  - reflexivity.
  - destruct e, e0; try discriminate; reflexivity.
  - apply Z.eqb_eq in H. congruence.
  - apply offMsgEqb_sound in H. congruence.
Qed.

Lemma same_log (a b : list Msg) : listEqb msgEqb a b = true -> a = b.
Proof. apply listEqb_sound. exact msgEqb_sound. Qed.

Lemma same_frames (a b : list DataUrl) : listEqb String.eqb a b = true -> a = b.
Proof. apply listEqb_sound. intros x y. apply String.eqb_eq. Qed.

(** C5, the code at the failing input.  Pages 1 to 5, every call
    succeeding, and the stop request handled while the worker awaits the
    page turn to page 3, after two frames were captured: the loop is left
    by the [break] that follows the page turn, the terminal notification is
    [captureComplete], no [captureStopped] is sent, and [generatePdf] is
    invoked over exactly the two captured frames. *)
Theorem stop_during_page_turn_reports_complete :
  let w' := snd (handleStartCapture stopDuringThirdTurn fivePages initialWorld) in
  shots w' = 2%nat /\
  images (state w') = [pageFrame 0; pageFrame 1] /\
  sent w' = [Progress 1 5; Progress 2 5; CaptureComplete;
             ToOffscreen (GeneratePdf [pageFrame 0; pageFrame 1]
                                      (mkPdfOptions 0 0 0 0))] /\
  countIf isStopped (sent w') = 0%nat.
Proof.
  cbv zeta. split; [|split; [|split]].
  - vm_compute. reflexivity.
  - apply same_frames. vm_compute. reflexivity.
  - apply same_log. vm_compute. reflexivity.
  - vm_compute. reflexivity.
Qed.

(** The sibling path: when the same stop request is handled during the
    capture of page 3 instead, it is observed at the top of the next
    iteration, and the session does report [captureStopped], then
    assembles the three captured frames. *)
Lemma stop_during_capture_reports_stopped :
  let w' := snd (handleStartCapture stopDuringThirdCapture fivePages
                                    initialWorld) in
  sent w' = [Progress 1 5; Progress 2 5; Progress 3 5; CaptureStopped;
             ToOffscreen (GeneratePdf [pageFrame 0; pageFrame 1; pageFrame 2]
                                      (mkPdfOptions 0 0 0 0))].
Proof.
  cbv zeta. apply same_log. vm_compute. reflexivity.
Qed.

(** A stop request that arrives while the last page is being captured
    finds no further check: the loop ends by exhaustion of the range and
    the session reports [captureComplete]. *)
Lemma stop_during_last_capture_reports_complete :
  let w' := snd (handleStartCapture stopDuringLastCapture fivePages
                                    initialWorld) in
  sent w' = [Progress 1 5; Progress 2 5; Progress 3 5; Progress 4 5;
             Progress 5 5; CaptureComplete;
             ToOffscreen (GeneratePdf [pageFrame 0; pageFrame 1; pageFrame 2;
                                       pageFrame 3; pageFrame 4]
                                      (mkPdfOptions 0 0 0 0))].
Proof.
  cbv zeta. apply same_log. vm_compute. reflexivity.
Qed.

(** ** Validation of the start request *)

Import Popup.

(** Requests the popup sends always have a valid range and delay. *)
Lemma onStartClick_sends_valid (f : Form) (msg : StartMsg) :
  onStartClick f = SendStart msg ->
  1 <= m_startPage msg <= m_endPage msg /\ 500 <= m_delay msg.
Proof.
  unfold onStartClick.
  destruct (f_startPage f) as [s|]; [|discriminate].
  destruct (f_endPage f) as [e|]; [|discriminate].
  destruct ((s <? 1) || (e <? 1)) eqn:E1; [discriminate|].
  destruct (e <? s) eqn:E2; [discriminate|].
  destruct (f_delay f) as [d|]; [|discriminate].
  destruct (d <? 500) eqn:E3; [discriminate|].
  intros [= <-]. cbn.
  apply orb_false_elim in E1. destruct E1 as [E1 E1'].
  apply Z.ltb_ge in E1, E1', E2, E3. lia.
Qed.

(** C4 (amended).  The configuration is validated by the popup's
    start-button handler before any request is sent: when the start page is
    after the end page or the delay is below 500 ms, the handler shows an
    error and sends no [startCapture] message, so that nothing changes in
    the service worker: no session state is created, [isRunning] stays as
    it was and no frame is captured. *)
Theorem popup_validates_before_sending
    (env : Env) (f : Form) (s e d : Z) (w : World) :
  f_startPage f = Some s -> f_endPage f = Some e -> f_delay f = Some d ->
  e < s \/ d < 500 ->
  (exists err, onStartClick f = ShowError err) /\
  clickStart env f w = (tt, w).
Proof.
  intros Hs He Hd Hbad.
  assert (H : exists err, onStartClick f = ShowError err).
  { unfold onStartClick. rewrite Hs, He, Hd.
    destruct ((s <? 1) || (e <? 1)); [eauto|].
    destruct (e <? s) eqn:E2; [eauto|].
    destruct (d <? 500) eqn:E3; [eauto|].
    apply Z.ltb_ge in E2, E3. lia. }
  split; [exact H|].
  destruct H as [err H]. unfold clickStart. now rewrite H.
Qed.

Lemma popup_validates_before_sending_witness :
  (f_startPage (mkForm "left" (Some 5) (Some 3) 2 (Some 2000)) = Some 5 /\
   f_endPage (mkForm "left" (Some 5) (Some 3) 2 (Some 2000)) = Some 3 /\
   f_delay (mkForm "left" (Some 5) (Some 3) 2 (Some 2000)) = Some 2000 /\
   (3 < 5 \/ 2000 < 500)) /\
  clickStart (cooperative never (fun _ => Some tinyFrame))
             (mkForm "left" (Some 5) (Some 3) 2 (Some 2000)) initialWorld =
    (tt, initialWorld).
Proof.
  assert (H : 3 < 5 \/ 2000 < 500) by (left; reflexivity).
  split; [repeat split; exact H|].
  exact (proj2 (popup_validates_before_sending
                  (cooperative never (fun _ => Some tinyFrame))
                  (mkForm "left" (Some 5) (Some 3) 2 (Some 2000))
                  5 3 2000 initialWorld eq_refl eq_refl eq_refl H)).
Defined.

(** C4 as stated fails: the service worker's own handler does not look at
    the range or the delay.  A [startCapture] request for page 1 with a
    delay of 100 ms, received on a Kindle tab, is answered [{ ok: true }]
    and a frame is captured. *)
Lemma unvalidated_start_counterexample :
  ~ (forall (env : Env) (msg : StartMsg),
        m_endPage msg < m_startPage msg \/ m_delay msg < 500 ->
        let w' := snd (handleStartCapture env msg initialWorld) in
        (exists e, responses w' = [RespError e]) /\ images (state w') = []).
Proof.
  intros H.
  specialize (H (cooperative never (fun _ => Some tinyFrame))
                (mkStartMsg 1 1 (Some "left"%string) None None None None 2 100)).
  destruct H as [[e He] _]; [right; reflexivity|].
  vm_compute in He. discriminate He.
Qed.

(** The same for a reversed range: the request for pages 5 to 3 is accepted
    and the session runs to [captureComplete] with [totalPages = -1]. *)
Lemma reversed_range_is_accepted :
  let w' := snd (handleStartCapture
                   (cooperative never (fun _ => Some tinyFrame))
                   (mkStartMsg 5 3 (Some "left"%string) None None None None
                               2 2000)
                   initialWorld) in
  responses w' = [RespOk] /\
  sent w' = [Progress 0 (-1); CaptureComplete].
Proof. vm_compute. split; reflexivity. Qed.

End CaptureProofs.

(* ================================================================== *)
(** * Further properties of the offscreen document *)
(* ================================================================== *)

Module OffscreenExtras.

Import Offscreen OffscreenAux OffscreenProofs OffscreenMore ServiceWorker.

(** ** Geometry of crop and resize *)

Section Geometry.

Variable toDataURL : Canvas -> DataUrl.

Lemma floorHalf_centres (n : Z) :
  0 <= n -> 0 <= floorHalf n /\ floorHalf n <= n /\ 0 <= n - 2 * floorHalf n <= 1.
Proof. unfold floorHalf. intros H. Z.div_mod_to_equations. lia. Qed.

Ltac crop_cases tw th srcW srcH :=
  unfold cropImage, truthy;
  destruct (tw =? 0) eqn:Etw; destruct (th =? 0) eqn:Eth;
  destruct (srcW <=? tw) eqn:Ew; destruct (srcH <=? th) eqn:Eh;
  destruct (tw <? srcW) eqn:Ew'; destruct (th <? srcH) eqn:Eh';
  rewrite ?Z.eqb_eq, ?Z.eqb_neq, ?Z.leb_le, ?Z.leb_gt, ?Z.ltb_lt, ?Z.ltb_ge in *;
  try lia; cbn [negb andb orb p_width p_height].


(** X1.  The size [cropImage] returns, for any image and any targets: on
    each axis it is the source's size when the target is zero, and the
    smaller of the target and the source's size otherwise, whether the
    function returned the original or drew on a canvas. *)
Theorem cropImage_size (img : Image) (tw th : Z) :
  p_width (cropImage toDataURL img tw th) =
    (if tw =? 0 then naturalWidth img else Z.min tw (naturalWidth img)) /\
  p_height (cropImage toDataURL img tw th) =
    (if th =? 0 then naturalHeight img else Z.min th (naturalHeight img)).
Proof.
  crop_cases tw th (naturalWidth img) (naturalHeight img); split; lia.
Qed.

Lemma cropImage_original (img : Image) (tw th : Z) :
  (tw = 0 /\ th = 0) \/ (naturalWidth img <= tw /\ naturalHeight img <= th) ->
  cropImage toDataURL img tw th =
    mkProcessed (src img) (naturalWidth img) (naturalHeight img).
Proof.
  intros H.
  crop_cases tw th (naturalWidth img) (naturalHeight img);
    try reflexivity; lia.
Qed.


(** X2.  [cropImage] either returns the original picture, or draws on a
    canvas of the returned size the rectangle of the source that starts at
    [(sx, sy)]: the rectangle lies inside the source and is centred, the
    margins on the two sides of each axis differing by at most one
    pixel. *)
Theorem cropImage_rectangle (img : Image) (tw th : Z) :
  let r := cropImage toDataURL img tw th in
  r = mkProcessed (src img) (naturalWidth img) (naturalHeight img) \/
  exists sx sy,
    r = mkProcessed
          (toDataURL (mkCanvas (p_width r) (p_height r) img sx sy
                               (p_width r) (p_height r)
                               (p_width r) (p_height r)))
          (p_width r) (p_height r) /\
    0 <= sx /\ sx + p_width r <= naturalWidth img /\
    0 <= naturalWidth img - p_width r - 2 * sx <= 1 /\
    0 <= sy /\ sy + p_height r <= naturalHeight img /\
    0 <= naturalHeight img - p_height r - 2 * sy <= 1.
Proof.
  cbv zeta.
  crop_cases tw th (naturalWidth img) (naturalHeight img);
    first [ left; reflexivity
          | right; eexists; eexists; split; [reflexivity|];
            match goal with
            | |- context [floorHalf (naturalWidth img - ?a)] =>
                pose proof (floorHalf_centres (naturalWidth img - a))
            end;
            match goal with
            | |- context [floorHalf (naturalHeight img - ?a)] =>
                pose proof (floorHalf_centres (naturalHeight img - a))
            end; lia ].
Qed.








End Geometry.

(** ** Building the document *)

Section Build.

Variable toDataURL : Canvas -> DataUrl.
Variable loadImage : DataUrl -> option Image.


Lemma addPages_some (call : BuildCall) (first : Processed) (imgs : list DataUrl) :
  forall (i : nat) (pages : list Page),
    addPages toDataURL loadImage call first i imgs = Some pages ->
    List.length pages = List.length imgs /\
    Forall (fun u => loadAndProcess toDataURL loadImage call u <> None) imgs.
Proof.
  induction imgs as [|u imgs IH]; intros i pages; cbn [addPages].
  - intros [= <-]. split; [reflexivity|constructor].
  - destruct (loadAndProcess toDataURL loadImage call u) as [p|] eqn:E; [|discriminate].
    destruct (addPages toDataURL loadImage call first (S i) imgs) as [rest|] eqn:Er;
      [|discriminate].
    intros [= <-]. destruct (IH _ _ Er) as [L F].
    split; [cbn; now rewrite L|].
    constructor; [congruence|exact F].
Qed.

Lemma addPages_succeeds (call : BuildCall) (first : Processed) (imgs : list DataUrl) :
  Forall (fun u => loadAndProcess toDataURL loadImage call u <> None) imgs ->
  forall i, exists pages, addPages toDataURL loadImage call first i imgs = Some pages.
Proof.
  induction 1 as [|u imgs Hu _ IH]; intros i; cbn [addPages].
  - eauto.
  - destruct (loadAndProcess toDataURL loadImage call u) as [p|]; [|congruence].
    destruct (IH (S i)) as [rest ->]. eauto.
Qed.

Lemma buildPdf_ready_iff (call : BuildCall) :
  (exists pages, buildPdf toDataURL loadImage call = PdfReady pages) <->
  bc_images call <> [] /\
  Forall (fun u => loadAndProcess toDataURL loadImage call u <> None) (bc_images call).
Proof.
  unfold buildPdf. destruct (bc_images call) as [|u imgs] eqn:Ei.
  - split; [intros [pages Hp]; discriminate|intros [Hne _]; congruence].
  - split.
    + intros [pages Hp]. split; [discriminate|].
      destruct (loadAndProcess toDataURL loadImage call u) as [first|] eqn:E; [|discriminate].
      destruct (addPages toDataURL loadImage call first 0 (u :: imgs))
        as [ps|] eqn:Ea; [|discriminate].
      now apply addPages_some in Ea.
    + intros [_ F].
      assert (Hu : loadAndProcess toDataURL loadImage call u <> None) by now inversion F.
      destruct (loadAndProcess toDataURL loadImage call u) as [first|]; [|congruence].
      destruct (addPages_succeeds call first (u :: imgs) F 0%nat) as [ps ->].
      eauto.
Qed.

Lemma buildPdf_page_count (call : BuildCall) (pages : list Page) :
  buildPdf toDataURL loadImage call = PdfReady pages ->
  List.length pages = List.length (bc_images call).
Proof.
  unfold buildPdf. destruct (bc_images call) as [|u imgs] eqn:Ei;
    [discriminate|].
  destruct (loadAndProcess toDataURL loadImage call u) as [first|] eqn:E;
    [|discriminate].
  destruct (addPages toDataURL loadImage call first 0 (u :: imgs))
    as [ps|] eqn:Ea; [|discriminate].
  intros [= <-]. now apply addPages_some in Ea.
Qed.

Lemma addPages_covered (call : BuildCall) (first : Processed)
    (imgs : list DataUrl) :
  forall (i : nat) (pages : list Page),
    (i = 0%nat -> match imgs with
                  | u :: _ => loadAndProcess toDataURL loadImage call u = Some first
                  | [] => True
                  end) ->
    addPages toDataURL loadImage call first i imgs = Some pages ->
    Forall covered pages.
Proof.
  induction imgs as [|u imgs IH]; intros i pages Hfirst; cbn [addPages].
  - intros [= <-]. constructor.
  - destruct (loadAndProcess toDataURL loadImage call u) as [p|] eqn:E; [|discriminate].
    destruct (addPages toDataURL loadImage call first (S i) imgs) as [rest|] eqn:Er;
      [|discriminate].
    intros [= <-]. constructor.
    + destruct i; [|reflexivity].
      specialize (Hfirst eq_refl). cbv beta iota in Hfirst.
      injection Hfirst as <-. reflexivity.
    + apply (IH (S i)); [discriminate|exact Er].
Qed.

Lemma buildPdf_covered (call : BuildCall) (pages : list Page) :
  buildPdf toDataURL loadImage call = PdfReady pages ->
  Forall covered pages.
Proof.
  unfold buildPdf. destruct (bc_images call) as [|u imgs] eqn:Ei;
    [discriminate|].
  destruct (loadAndProcess toDataURL loadImage call u) as [first|] eqn:E;
    [|discriminate].
  destruct (addPages toDataURL loadImage call first 0 (u :: imgs))
    as [ps|] eqn:Ea; [|discriminate].
  intros [= <-]. apply (addPages_covered call first (u :: imgs) 0%nat);
    [intros _; exact E|exact Ea].
Qed.

(** Without crop and resize settings. *)
Lemma process_plain (call : BuildCall) (u : DataUrl) :
  bc_crop call = (0, 0) -> bc_size call = (0, 0) ->
  loadAndProcess toDataURL loadImage call u =
  match loadImage u with
  | Some img => Some (mkProcessed u (naturalWidth img) (naturalHeight img))
  | None => None
  end.
Proof.
  intros Hc Hs. unfold loadAndProcess. rewrite Hc, Hs.
  destruct (loadImage u); reflexivity.
Qed.

Lemma addPages_plain (call : BuildCall) (first : Processed) (imgs : list DataUrl) :
  bc_crop call = (0, 0) -> bc_size call = (0, 0) ->
  forall (i : nat) (pages : list Page),
    addPages toDataURL loadImage call first i imgs = Some pages ->
    map pg_image pages = imgs /\
    Forall2 (fun u pg =>
               exists img, loadImage u = Some img /\
                 pg_imageSize pg =
                   ((inject_Z (naturalWidth img) * pxToMm)%Q,
                    (inject_Z (naturalHeight img) * pxToMm)%Q))
            imgs pages.
Proof.
  intros Hc Hs.
  induction imgs as [|u imgs IH]; intros i pages; cbn [addPages].
  - intros [= <-]. split; [reflexivity|constructor].
  - rewrite (process_plain call u Hc Hs).
    destruct (loadImage u) as [img|] eqn:E; [|discriminate].
    destruct (addPages toDataURL loadImage call first (S i) imgs) as [rest|] eqn:Er;
      [|discriminate].
    intros [= <-]. destruct (IH _ _ Er) as [L F].
    split.
    + cbn [map]. rewrite L. now destruct i.
    + constructor; [|exact F]. exists img. split; [exact E|].
      now destruct i.
Qed.


(** X7.  Without crop and resize settings a successful [buildPdf] keeps
    the frames as they are: the pictures of the pages are the data URLs it
    was given, in order, each drawn at the natural size of its decoded
    image converted to millimetres. *)
Theorem buildPdf_plain (call : BuildCall) (pages : list Page) :
  bc_crop call = (0, 0) -> bc_size call = (0, 0) ->
  buildPdf toDataURL loadImage call = PdfReady pages ->
  map pg_image pages = bc_images call /\
  Forall2 (fun u pg =>
             exists img, loadImage u = Some img /\
               pg_imageSize pg =
                 ((inject_Z (naturalWidth img) * pxToMm)%Q,
                  (inject_Z (naturalHeight img) * pxToMm)%Q))
          (bc_images call) pages.
Proof.
  intros Hc Hs. unfold buildPdf.
  destruct (bc_images call) as [|u imgs] eqn:Ei; [discriminate|].
  destruct (loadAndProcess toDataURL loadImage call u) as [first|] eqn:E;
    [|discriminate].
  destruct (addPages toDataURL loadImage call first 0 (u :: imgs))
    as [ps|] eqn:Ea; [|discriminate].
  intros [= <-]. now apply (addPages_plain call first (u :: imgs) Hc Hs) in Ea.
Qed.

(** X5.  [buildPdf] is all or nothing.  It answers [pdfReady] only for a
    non-empty list of frames that all load and process, and then with one
    page per frame; an empty list gives the error for a missing input; and
    when a frame fails to load, the [catch] clause reports an error for the
    whole document, whatever the other frames are. *)
Theorem buildPdf_is_all_or_nothing (call : BuildCall) :
  match buildPdf toDataURL loadImage call with
  | PdfReady pages =>
      bc_images call <> [] /\
      Forall (fun u => loadAndProcess toDataURL loadImage call u <> None)
             (bc_images call) /\
      List.length pages = List.length (bc_images call)
  | CaptureError NoImagesToBuild => bc_images call = []
  | CaptureError BuildThrew =>
      bc_images call <> [] /\
      exists u, In u (bc_images call) /\
                loadAndProcess toDataURL loadImage call u = None
  end.
Proof.
  destruct (buildPdf toDataURL loadImage call) as [pages|[|]] eqn:E.
  - destruct (proj1 (buildPdf_ready_iff call) (ex_intro _ pages E)) as [N F].
    split; [exact N|]. split; [exact F|]. now apply buildPdf_page_count.
  - unfold buildPdf in E. destruct (bc_images call) as [|u imgs]; [reflexivity|].
    destruct (loadAndProcess toDataURL loadImage call u); [|discriminate].
    destruct (addPages toDataURL loadImage call _ 0 (u :: imgs)); discriminate.
  - assert (N : bc_images call <> []).
    { intros N. unfold buildPdf in E. rewrite N in E. discriminate. }
    split; [exact N|].
    assert (D : forall u,
               {loadAndProcess toDataURL loadImage call u <> None} +
               {~ loadAndProcess toDataURL loadImage call u <> None}).
    { intros u. destruct (loadAndProcess toDataURL loadImage call u);
        [left; discriminate|right; intros H; now apply H]. }
    destruct (Forall_Exists_dec _ D (bc_images call)) as [F|X].
    + destruct (proj2 (buildPdf_ready_iff call) (conj N F)) as [pages Hp].
      congruence.
    + apply Exists_exists in X. destruct X as (u & Hin & Hu).
      exists u. split; [exact Hin|].
      destruct (loadAndProcess toDataURL loadImage call u); [|reflexivity].
      exfalso. apply Hu. discriminate.
Qed.

(** X6.  In the document a successful [buildPdf] produces, every frame has
    its own page and covers it exactly: the page format is the size at
    which the picture is drawn, for the first page (whose format comes from
    the separately processed first frame) as for the others. *)
Theorem buildPdf_one_covered_page_per_frame (call : BuildCall) (pages : list Page) :
  buildPdf toDataURL loadImage call = PdfReady pages ->
  List.length pages = List.length (bc_images call) /\ Forall covered pages.
Proof.
  intros H. split;
    [exact (buildPdf_page_count call pages H)
    |exact (buildPdf_covered call pages H)].
Qed.

End Build.

(** ** The completion rule of the batch listener *)

Lemma batchMsgs_cons2 (k : Z) (b b' : list DataUrl) (rest : list (list DataUrl)) :
  Chunked.batchMsgsFrom k (b :: b' :: rest) =
  GeneratePdfBatch k b false :: Chunked.batchMsgsFrom (k + 1) (b' :: rest).
Proof. reflexivity. Qed.






(** X9.  Two transfers sent one after the other by [generatePdf] are
    assembled independently, from any state of the offscreen document: the
    listener calls [buildPdf] once per transfer, each on exactly its own
    frames and settings, and no frame of the first leaks into the
    second. *)
Theorem consecutive_transfers_are_independent
    (s : State) (a b : list DataUrl) (oa ob : PdfOptions) :
  snd (deliver s (pdfMessages a oa ++ pdfMessages b ob)) =
  [mkBuildCall a (cropOf oa) (sizeOf oa); mkBuildCall b (cropOf ob) (sizeOf ob)].
Proof.
  rewrite deliver_app. cbn [snd]. now rewrite !pdfMessages_assemble.
Qed.

Lemma chunksFrom_done (fuel i : nat) (imgs : list DataUrl) :
  (List.length imgs <= i)%nat -> chunksFrom fuel i imgs = [].
Proof.
  intros H. destruct fuel; [reflexivity|]. cbn [chunksFrom].
  replace (i <? List.length imgs)%nat with false
    by (symmetry; apply Nat.ltb_ge; lia).
  reflexivity.
Qed.

Lemma chunksFrom_spec (imgs : list DataUrl) (fuel : nat) :
  forall j : nat,
    (BATCH_SIZE * j < List.length imgs)%nat ->
    (List.length imgs - BATCH_SIZE * j <= fuel)%nat ->
    sendBatchesFrom fuel (BATCH_SIZE * j) imgs =
      Chunked.batchMsgsFrom (Z.of_nat j)
                            (chunksFrom fuel (BATCH_SIZE * j) imgs) /\
    List.concat (chunksFrom fuel (BATCH_SIZE * j) imgs) =
      skipn (BATCH_SIZE * j) imgs /\
    Forall (fun c => (1 <= List.length c <= BATCH_SIZE)%nat)
           (chunksFrom fuel (BATCH_SIZE * j) imgs) /\
    Z.of_nat (List.length (chunksFrom fuel (BATCH_SIZE * j) imgs)) =
      batchCount (List.length imgs) - Z.of_nat j.
Proof.
  induction fuel as [|fuel IH]; intros j Hlt Hfuel; [lia|].
  cbn [sendBatchesFrom chunksFrom].
  replace (BATCH_SIZE * j <? List.length imgs)%nat with true
    by (symmetry; now apply Nat.ltb_lt).
  assert (Hsize : (1 <= List.length (firstn BATCH_SIZE (skipn (BATCH_SIZE * j) imgs))
                   <= BATCH_SIZE)%nat).
  { rewrite length_firstn, length_skipn. unfold BATCH_SIZE in *. lia. }
  replace (Z.of_nat (BATCH_SIZE * j / BATCH_SIZE)) with (Z.of_nat j).
  2:{ f_equal. rewrite Nat.mul_comm. symmetry. apply Nat.div_mul.
      unfold BATCH_SIZE; lia. }
  replace (BATCH_SIZE * j + BATCH_SIZE)%nat with (BATCH_SIZE * S j)%nat by lia.
  destruct (List.length imgs <=? BATCH_SIZE * S j)%nat eqn:Elast.
  - (* the last batch *)
    apply Nat.leb_le in Elast.
    rewrite (chunksFrom_done fuel (BATCH_SIZE * S j) imgs Elast).
    replace (sendBatchesFrom fuel (BATCH_SIZE * S j) imgs) with (@nil OffMsg).
    2:{ destruct fuel; [reflexivity|]. cbn [sendBatchesFrom].
        replace (BATCH_SIZE * S j <? List.length imgs)%nat
          with false by (symmetry; apply Nat.ltb_ge; lia).
        reflexivity. }
    cbn [Chunked.batchMsgsFrom List.concat List.length app].
    repeat split.
    + rewrite app_nil_r. apply firstn_all2. rewrite length_skipn.
      unfold BATCH_SIZE in *. lia.
    + constructor; [exact Hsize|constructor].
    + rewrite batchCount_div. unfold BATCH_SIZE in *.
      Z.div_mod_to_equations. lia.
  - apply Nat.leb_gt in Elast.
    destruct (IH (S j)) as (I1 & I2 & I3 & I4); [lia|unfold BATCH_SIZE in *; lia|].
    destruct (chunksFrom fuel (BATCH_SIZE * S j) imgs) as [|c rest] eqn:Ec.
    { exfalso. cbn in I4. rewrite batchCount_div in I4.
      unfold BATCH_SIZE in *. Z.div_mod_to_equations. lia. }
    repeat split.
    + rewrite batchMsgs_cons2. f_equal. rewrite I1. f_equal. lia.
    + cbn [List.concat] in *. rewrite I2.
      replace (skipn (BATCH_SIZE * S j) imgs)
        with (skipn BATCH_SIZE (skipn (BATCH_SIZE * j) imgs))
        by (rewrite skipn_skipn; f_equal; lia).
      apply firstn_skipn.
    + constructor; [exact Hsize|exact I3].
    + cbn [List.length] in *. lia.
Qed.


(** X10.  For more than 20 frames [generatePdf] sends the init message and
    then the batches of a partition of the frames: the batches, put end to
    end, are the frames in capture order, and every batch holds between 1
    and 20 frames. *)
Theorem sender_batches_shape (imgs : list DataUrl) (opts : PdfOptions) :
  (BATCH_SIZE < List.length imgs)%nat ->
  pdfMessages imgs opts =
    Chunked.initMsg (chunks imgs) opts :: Chunked.batchMsgsFrom 0 (chunks imgs) /\
  List.concat (chunks imgs) = imgs /\
  Forall (fun c => (1 <= List.length c <= BATCH_SIZE)%nat) (chunks imgs).
Proof.
  intros H.
  destruct (chunksFrom_spec imgs (List.length imgs) 0) as (I1 & I2 & I3 & I4);
    [unfold BATCH_SIZE in *; lia|lia|].
  replace (BATCH_SIZE * 0)%nat with 0%nat in * by lia.
  fold (chunks imgs) in *. cbn [skipn] in I2.
  unfold pdfMessages.
  replace (List.length imgs <=? BATCH_SIZE)%nat with false
    by (symmetry; apply Nat.leb_gt; lia).
  repeat split; auto.
  unfold Chunked.initMsg. rewrite I2. f_equal; [|exact I1].
  f_equal. rewrite I4. cbn. lia.
Qed.

(** ** Instances *)



Lemma buildPdf_one_covered_page_per_frame_witness :
  buildPdf sampleEncode sampleLoad plainCall = PdfReady plainPages /\
  List.length plainPages = List.length (bc_images plainCall) /\
  Forall covered plainPages.
Proof.
  assert (H : buildPdf sampleEncode sampleLoad plainCall = PdfReady plainPages)
    by (vm_compute; reflexivity).
  split; [exact H|].
  exact (buildPdf_one_covered_page_per_frame sampleEncode sampleLoad
                                             plainCall plainPages H).
Defined.

Lemma buildPdf_plain_witness :
  (bc_crop plainCall = (0, 0) /\ bc_size plainCall = (0, 0) /\
   buildPdf sampleEncode sampleLoad plainCall = PdfReady plainPages) /\
  map pg_image plainPages = bc_images plainCall.
Proof.
  assert (H : buildPdf sampleEncode sampleLoad plainCall = PdfReady plainPages)
    by (vm_compute; reflexivity).
  split; [repeat split; exact H|].
  exact (proj1 (buildPdf_plain sampleEncode sampleLoad plainCall plainPages
                               eq_refl eq_refl H)).
Defined.


Lemma sender_batches_shape_witness :
  (BATCH_SIZE < List.length twentyOneFrames)%nat /\
  List.concat (chunks twentyOneFrames) = twentyOneFrames.
Proof.
  assert (H : (BATCH_SIZE < List.length twentyOneFrames)%nat)
    by (vm_compute; lia).
  split; [exact H|].
  exact (proj1 (proj2 (sender_batches_shape twentyOneFrames
                                            (mkPdfOptions 0 0 0 0) H))).
Defined.

End OffscreenExtras.

(** * Further properties of the service worker *)

Module CaptureExtras.

Import Offscreen ServiceWorker CaptureAux CaptureMore CaptureProofs OffscreenProofs
       OffscreenExtras Popup.

Section Counters.

Variable env : Env.

Lemma pollCount_bounds (n : nat) :
  forall k,
    (pollCount env k n <= n)%nat /\
    ((0 < n)%nat -> (0 < pollCount env k n)%nat) /\
    (forall j, (S j < pollCount env k n)%nat ->
               tabReply env (k + j) = Some false) /\
    ((0 < pollCount env k n < n)%nat ->
     tabReply env (k + pollCount env k n - 1) <> Some false).
Proof.
  induction n as [|n IH]; intros k; cbn [pollCount].
  - split; [lia|]. split; [lia|]. split; intros; lia.
  - destruct (IH (S k)) as (B1 & B2 & B3 & B4).
    destruct (tabReply env k) as [[|]|] eqn:E.
    + split; [lia|]. split; [lia|]. split; [intros; lia|].
      intros _. replace (k + 1 - 1)%nat with k by lia. congruence.
    + split; [lia|]. split; [lia|]. split.
      * intros [|j] Hj.
        -- now rewrite Nat.add_0_r.
        -- replace (k + S j)%nat with (S k + j)%nat by lia. apply B3. lia.
      * intros Hn.
        replace (k + S (pollCount env (S k) n) - 1)%nat
          with (S k + pollCount env (S k) n - 1)%nat by lia.
        apply B4. split; [apply B2|]; lia.
    + split; [lia|]. split; [lia|]. split; [intros; lia|].
      intros _. replace (k + 1 - 1)%nat with k by lia. congruence.
Qed.

Lemma tabSend_effect (r : TabRequest) (w : World) :
  tabSend env r w = (tabReply env (tabMsgs w), snd (tabSend env r w)) /\
  tabMsgs (snd (tabSend env r w)) = S (tabMsgs w) /\
  sameCamera w (snd (tabSend env r w)).
Proof. unfold sameCamera; repeat split; reflexivity. Qed.

Lemma sleep_effect (ms : Z) (w : World) :
  tabMsgs (snd (sleep env ms w)) = tabMsgs w /\
  sameCamera w (snd (sleep env ms w)).
Proof. unfold sameCamera; repeat split; reflexivity. Qed.

Lemma sameCamera_trans (w1 w2 w3 : World) :
  sameCamera w1 w2 -> sameCamera w2 w3 -> sameCamera w1 w3.
Proof. unfold sameCamera; intuition congruence. Qed.

Lemma waitForContentReadyFrom_polls (fuel : nat) :
  forall (i : Z) (w w' : World) (u : unit),
    Z.of_nat fuel = MAX_CHECKS - i ->
    waitForContentReadyFrom env fuel i w = (u, w') ->
    tabMsgs w' = (tabMsgs w + pollCount env (tabMsgs w) fuel)%nat /\
    sameCamera w w'.
Proof.
  induction fuel as [|fuel IH]; intros i w w' u Hf.
  - cbn. intros [= _ <-]. split; [lia|]. unfold sameCamera; auto.
  - cbn [waitForContentReadyFrom pollCount].
    replace (i <? MAX_CHECKS) with true by (symmetry; apply Z.ltb_lt; lia).
    unfold bind at 1.
    destruct (tabSend_effect IsContentReady w) as (E0 & T0 & S0).
    rewrite E0. set (w1 := snd (tabSend env IsContentReady w)) in *.
    destruct (tabReply env (tabMsgs w)) as [[|]|].
    + unfold ret. intros [= _ <-]. split; [lia|exact S0].
    + unfold bind at 1.
      destruct (sleep_effect CHECK_INTERVAL w1) as (T2 & S2).
      destruct (sleep env CHECK_INTERVAL w1) as [[] w2]. cbn [snd] in *.
      intros E. destruct (IH (i + 1) w2 w' u ltac:(lia) E) as (I1 & I2).
      split.
      * rewrite I1, T2, T0. lia.
      * exact (sameCamera_trans _ _ _ S0 (sameCamera_trans _ _ _ S2 I2)).
    + unfold ret. intros [= _ <-]. split; [lia|exact S0].
Qed.


(** X11.  [waitForContentReady] asks the content script between one and
    five times.  Every poll before the last was answered "not ready"; when
    it stops before the fifth poll, the last answer was "ready" or the
    message failed; and it captures nothing, leaves the zoom alone and
    sends no notification. *)
Theorem waitForContentReady_polls_are_bounded (w : World) :
  let w' := snd (waitForContentReady env w) in
  let n := (tabMsgs w' - tabMsgs w)%nat in
  (tabMsgs w' = tabMsgs w + n)%nat /\
  (1 <= n <= 5)%nat /\
  (forall j, (S j < n)%nat -> tabReply env (tabMsgs w + j) = Some false) /\
  ((n < 5)%nat -> tabReply env (tabMsgs w + n - 1) <> Some false) /\
  shots w' = shots w /\ zooms w' = zooms w /\ zoom w' = zoom w /\
  sent w' = sent w.
Proof.
  intros w' n.
  destruct (waitForContentReady env w) as [u w1] eqn:E.
  destruct (waitForContentReadyFrom_polls 5 0 w w1 u eq_refl E) as (P & S0).
  subst w'. cbn [snd] in *.
  destruct (pollCount_bounds 5 (tabMsgs w)) as (B1 & B2 & B3 & B4).
  assert (En : n = pollCount env (tabMsgs w) 5) by (unfold n; lia).
  rewrite En. destruct S0 as (A1 & A2 & A3 & A4).
  repeat split; try assumption; try lia.
  intros Hn. apply B4. lia.
Qed.

Lemma setZoom_shots (q : Q) (w : World) :
  shots (snd (setZoom env q w)) = shots w.
Proof. reflexivity. Qed.

Lemma capture_effect (w : World) :
  captureVisibleTab env w =
    (captured env (shots w), snd (captureVisibleTab env w)) /\
  shots (snd (captureVisibleTab env w)) = S (shots w).
Proof. split; reflexivity. Qed.

Lemma zoomedAttempt_shots (level : Q) (w w1 : World) (r : Outcome DataUrl) :
  zoomedAttempt env level w = (r, w1) ->
  (shots w <= shots w1 <= S (shots w))%nat /\
  (forall url, r = Returned url ->
               shots w1 = S (shots w) /\ captured env (shots w) = Some url).
Proof.
  unfold zoomedAttempt. unfold bind at 1.
  pose proof (setZoom_shots level w) as Z1.
  destruct (setZoom env level w) as [zoomed w2]. cbn [snd] in Z1.
  destruct zoomed.
  2:{ unfold ret. intros [= <- <-]. split; [lia|]. intros url H; discriminate. }
  unfold bind at 1.
  destruct (sleep_effect 400 w2) as (_ & (S2 & _)).
  destruct (sleep env 400 w2) as [[] w3]. cbn [snd] in S2.
  unfold bind at 1.
  destruct (capture_effect w3) as (E3 & S3). rewrite E3.
  set (w4 := snd (captureVisibleTab env w3)) in *.
  destruct (captured env (shots w3)) as [url|] eqn:Ec.
  2:{ unfold ret. intros [= <- <-]. split; [lia|]. intros url H; discriminate. }
  unfold bind at 1.
  pose proof (setZoom_shots 1 w4) as Z5.
  destruct (setZoom env 1 w4) as [restored w5]. cbn [snd] in Z5.
  destruct restored.
  2:{ unfold ret. intros [= <- <-]. split; [lia|]. intros u H; discriminate. }
  unfold bind at 1.
  destruct (sleep_effect 200 w5) as (_ & (S6 & _)).
  destruct (sleep env 200 w5) as [[] w6]. cbn [snd] in S6.
  unfold ret. intros [= <- <-]. split; [lia|].
  intros u [= <-]. split; [lia|]. rewrite <- Ec. f_equal. lia.
Qed.

Lemma captureWithZoomFrom_shots (level : Q) (fuel : nat) :
  forall (attempt : Z) (w w' : World) (r : option DataUrl),
    Z.of_nat fuel = MAX_RETRIES - attempt ->
    (0 < fuel)%nat ->
    captureWithZoomFrom env fuel attempt level w = (r, w') ->
    (shots w < shots w' <= shots w + fuel + 1)%nat /\
    r = captured env (pred (shots w')).
Proof.
  induction fuel as [|fuel IH]; intros attempt w w' r Hf Hpos; [lia|].
  cbn [captureWithZoomFrom].
  replace (attempt <? MAX_RETRIES) with true by (symmetry; apply Z.ltb_lt; lia).
  unfold bind at 1.
  destruct (zoomedAttempt env level w) as [[url|] w1] eqn:E1;
    apply zoomedAttempt_shots in E1; destruct E1 as (B1 & R1).
  - destruct (R1 url eq_refl) as (S1 & C1).
    unfold ret. intros [= <- <-]. split; [lia|].
    rewrite S1. cbn [pred]. now rewrite C1.
  - unfold bind at 1.
    pose proof (setZoom_shots 1 w1) as Z2.
    destruct (setZoom env 1 w1) as [ok w2]. cbn [snd] in Z2.
    unfold bind at 1.
    destruct (sleep_effect 300 w2) as (_ & (S3 & _)).
    destruct (sleep env 300 w2) as [[] w3]. cbn [snd] in S3.
    destruct (attempt =? MAX_RETRIES - 1) eqn:Elast.
    + destruct (capture_effect w3) as (E4 & S4). rewrite E4.
      intros [= <- <-]. cbn [shots Nat.pred]. split; [lia|reflexivity].
    + apply Z.eqb_neq in Elast. intros E.
      destruct (IH (attempt + 1) w3 w' r ltac:(lia) ltac:(lia) E) as (I1 & I2).
      split; [lia|exact I2].
Qed.

Lemma captureWithZoom_shots (level : Q) (w w' : World) (r : option DataUrl) :
  captureWithZoom env level w = (r, w') ->
  (shots w < shots w' <= shots w + 4)%nat /\
  r = captured env (pred (shots w')).
Proof.
  intros E.
  destruct (captureWithZoomFrom_shots level 3 0 w w' r eq_refl ltac:(lia) E)
    as (B & R).
  split; [lia|exact R].
Qed.


(** X12.  [captureWithZoom] calls [captureVisibleTab] at least once and at
    most four times (three zoomed attempts and the capture at normal
    zoom), and what it returns is the result of the last of these calls:
    never a frame of an earlier attempt. *)
Theorem captureWithZoom_returns_latest_capture (level : Q) (w : World) :
  let r := fst (captureWithZoom env level w) in
  let w' := snd (captureWithZoom env level w) in
  (shots w < shots w' <= shots w + 4)%nat /\
  r = captured env (pred (shots w')).
Proof.
  cbv zeta. destruct (captureWithZoom env level w) as [r w'] eqn:E.
  cbn [fst snd]. exact (captureWithZoom_shots level w w' r E).
Qed.

Lemma captureWithRetryFrom_shots (level : Q) (fuel : nat) :
  forall (attempt : Z) (w w' : World) (r : option DataUrl),
    captureWithRetryFrom env fuel attempt level w = (r, w') ->
    (shots w < shots w' <= shots w + 4 * (fuel + 1))%nat /\
    (r = None \/ r = captured env (pred (shots w'))).
Proof.
  assert (Z := captureWithZoom_shots level).
  induction fuel as [|fuel IH]; intros attempt w w' r;
    cbn [captureWithRetryFrom].
  - intros E. apply Z in E. destruct E as (B & R). split; [lia|now right].
  - destruct (attempt <? MAX_RETRIES).
    2:{ intros E. apply Z in E. destruct E as (B & R). split; [lia|now right]. }
    unfold bind at 1.
    destruct (captureWithZoom env level w) as [d w1] eqn:E1.
    apply Z in E1. destruct E1 as (B1 & R1).
    destruct (falsy d) eqn:Ef.
    { unfold ret. intros [= <- <-]. split; [lia|now left]. }
    destruct d as [url|]; [|discriminate].
    destruct (looksReal url).
    { unfold ret. intros [= <- <-]. split; [lia|now right]. }
    unfold bind at 1.
    destruct (sleep_effect (RETRY_WAIT * (attempt + 1)) w1) as (_ & (S2 & _)).
    destruct (sleep env (RETRY_WAIT * (attempt + 1)) w1) as [[] w2].
    cbn [snd] in S2.
    unfold bind at 1.
    destruct (waitForContentReady env w2) as [u w3] eqn:E3.
    destruct (waitForContentReadyFrom_polls 5 0 w2 w3 u eq_refl E3)
      as (_ & (S3 & _)).
    intros E. destruct (IH _ _ _ _ E) as (I1 & I2).
    split; [lia|exact I2].
Qed.


(** X13.  [captureWithRetry] makes between 1 and 16 captures.  It returns
    null or the result of the capture made last, and it neither sends a
    notification nor touches the accumulated frames: appending is left to
    the caller. *)
Theorem captureWithRetry_attempts_are_bounded (level : Q) (w : World) :
  let r := fst (captureWithRetry env level w) in
  let w' := snd (captureWithRetry env level w) in
  (shots w < shots w' <= shots w + 16)%nat /\
  (r = None \/ r = captured env (pred (shots w'))) /\
  sent w' = sent w /\ images (state w') = images (state w).
Proof.
  cbv zeta. destruct (captureWithRetry env level w) as [r w'] eqn:E.
  pose proof (quiet_captureWithRetry env level w) as Q. rewrite E in Q.
  cbn [fst snd] in *.
  destruct (captureWithRetryFrom_shots level 3 0 w w' r E) as (B & R).
  pose proof (quietStep_sameSession _ _ _ Q) as (I & _).
  destruct Q as (Qs & _).
  repeat split; try lia; assumption.
Qed.

End Counters.

Lemma offscreenRequests_app (a b : list Msg) :
  offscreenRequests (a ++ b) = offscreenRequests a ++ offscreenRequests b.
Proof.
  induction a as [|m a IH]; [reflexivity|].
  destruct m; cbn; rewrite ?IH; reflexivity.
Qed.

Lemma offscreenRequests_map (msgs : list OffMsg) :
  offscreenRequests (map ToOffscreen msgs) = msgs.
Proof. induction msgs as [|m msgs IH]; cbn; [|rewrite IH]; reflexivity. Qed.

Lemma stoppedOrSame_refl (s : CaptureState) : stoppedOrSame s s.
Proof. now left. Qed.

Lemma stoppedOrSame_trans (s1 s2 s3 : CaptureState) :
  stoppedOrSame s1 s2 -> stoppedOrSame s2 s3 -> stoppedOrSame s1 s3.
Proof.
  intros [A|A] [B|B]; subst; unfold stoppedOrSame; auto.
Qed.

Lemma stoppedOrSame_fields (s s' : CaptureState) :
  stoppedOrSame s s' ->
  currentPage s' = currentPage s /\ images s' = images s /\
  pdfOpts s' = pdfOpts s /\ startPage s' = startPage s /\
  endPage s' = endPage s /\ totalPages s' = totalPages s /\
  (isRunning s = false -> s' = s) /\
  (isRunning s' = true -> isRunning s = true).
Proof.
  intros [H|H]; subst; repeat split; auto.
  - intros Hr. destruct s; cbn in *. now subst.
  - discriminate.
Qed.

Lemma sameSettings_refl (s : CaptureState) : sameSettings s s.
Proof. unfold sameSettings; auto. Qed.

Lemma sameSettings_trans (s1 s2 s3 : CaptureState) :
  sameSettings s1 s2 -> sameSettings s2 s3 -> sameSettings s1 s3.
Proof. unfold sameSettings; intuition congruence. Qed.

Lemma stoppedOrSame_settings (s s' : CaptureState) :
  stoppedOrSame s s' -> sameSettings s s'.
Proof. intros [H|H]; subst; unfold sameSettings; auto. Qed.

Section State.

Variable env : Env.

Lemma quiet_state {A} (c : M A) (w : World) :
  quiet env c -> stoppedOrSame (state w) (state (snd (c w))).
Proof. intros Q. destruct (Q w) as (_ & _ & T & _). exact T. Qed.

Lemma generatePdf_exact (w : World) :
  let w' := snd (generatePdf env w) in
  stoppedOrSame (state w) (state w') /\
  keepAlive w' = keepAlive w /\
  ((exists gen, sent w' = sent w ++ gen /\ offscreenRequests gen = [] /\
                (gen = [] \/ gen = [CaptureErrorMsg PdfSetupFailed]))
   \/
   images (state w) <> [] /\
   sent w' = sent w ++ map ToOffscreen
                         (pdfMessages (images (state w)) (pdfOpts (state w)))).
Proof.
  cbv zeta. unfold generatePdf, bind, getState.
  destruct (List.length (images (state w)) =? 0)%nat eqn:E.
  - cbn. split; [apply stoppedOrSame_refl|]. split; [reflexivity|].
    left. exists []. rewrite app_nil_r. auto.
  - apply Nat.eqb_neq in E.
    assert (Hne : images (state w) <> [])
      by (intros H; rewrite H in E; cbn in E; lia).
    pose proof (quiet_setupOffscreenDocument env w) as Q.
    destruct (setupOffscreenDocument env w) as [ready w1]; cbn [snd] in Q.
    destruct Q as (Qs & Qk & Qt & _).
    destruct (stoppedOrSame_fields _ _ Qt) as (_ & Fi & Fo & _).
    destruct ready.
    + rewrite sendAll_spec; cbn.
      split; [exact Qt|]. split; [exact Qk|].
      right. split; [exact Hne|]. now rewrite Qs, Fi, Fo.
    + cbn. split; [exact Qt|]. split; [exact Qk|].
      left. exists [CaptureErrorMsg PdfSetupFailed]. rewrite Qs. auto.
Qed.

Lemma generatePdf_requests (w : World) :
  assemblyRequested w (snd (generatePdf env w)).
Proof.
  destruct (generatePdf_exact w) as (T & _ & [(gen & G & R & _)|(Hne & G)]).
  - left. now rewrite G, offscreenRequests_app, R, app_nil_r.
  - destruct (stoppedOrSame_fields _ _ T) as (_ & Fi & Fo & _).
    right. rewrite Fi, Fo. split; [exact Hne|].
    now rewrite G, offscreenRequests_app, offscreenRequests_map.
Qed.


Lemma assemblyRequested_after (w w0 w' : World) :
  offscreenRequests (sent w0) = offscreenRequests (sent w) ->
  assemblyRequested w0 w' -> assemblyRequested w w'.
Proof. unfold assemblyRequested. intros <-. auto. Qed.

Lemma assemblyRequested_none (w w' : World) :
  offscreenRequests (sent w') = offscreenRequests (sent w) ->
  assemblyRequested w w'.
Proof. now left. Qed.

(** What the session settings are: the fields no step of the loop writes. *)
Lemma quietStep_settings (w w' : World) :
  quietStep env w w' ->
  currentPage (state w') = currentPage (state w) /\
  sameSettings (state w) (state w') /\
  (isRunning (state w) = false -> isRunning (state w') = false).
Proof.
  intros (_ & _ & T & _).
  destruct (stoppedOrSame_fields _ _ T) as (A & _ & _ & _ & _ & _ & D & _).
  split; [exact A|]. split; [now apply stoppedOrSame_settings|].
  intros H. now rewrite (D H).
Qed.

(** One iteration of the main loop: the page it records, and how it leaves
    the running flag, the keep-alive alarm and the offscreen requests. *)
Lemma loopBody_status (start : Z) (dir : string) (level : Q) (wait page : Z)
    (w w' : World) (r : BodyExit) :
  loopBody env start dir level wait page w = (r, w') ->
  sameSettings (state w) (state w') /\
  match r with
  | StoppedAtTop =>
      isRunning (state w') = false /\ keepAlive w' = false /\
      currentPage (state w') = currentPage (state w) /\
      assemblyRequested w w'
  | Broke =>
      isRunning (state w') = false /\ keepAlive w' = keepAlive w /\
      currentPage (state w') = page /\
      offscreenRequests (sent w') = offscreenRequests (sent w)
  | Continued _ =>
      keepAlive w' = keepAlive w /\
      currentPage (state w') = page /\
      offscreenRequests (sent w') = offscreenRequests (sent w)
  end.
Proof.
  unfold loopBody. unfold bind at 1. unfold getState at 1.
  destruct (isRunning (state w)) eqn:Erun; cbn [negb].
  - unfold bind at 1. unfold modifyState at 1.
    unfold bind at 1.
    match goal with
    | |- context [(if start <? page then ?a else ?b) ?w0] =>
        assert (Q1 : quietStep env w0
                       (snd ((if start <? page then a else b) w0)))
          by (destruct (start <? page);
              [apply quiet_turnPage|apply quiet_sleep]);
        destruct ((if start <? page then a else b) w0) as [[] w1]
    end.
    cbn [snd] in Q1.
    unfold bind at 1. unfold getState at 1.
    destruct (isRunning (state w1)) eqn:Erun1; cbn [negb].
    + unfold bind at 1.
      pose proof (quiet_waitForContentReady env w1) as Q2.
      destruct (waitForContentReady env w1) as [[] w2]; cbn [snd] in Q2.
      unfold bind at 1.
      pose proof (quiet_captureWithRetry env level w2) as Q3.
      destruct (captureWithRetry env level w2) as [d w3]; cbn [snd] in Q3.
      pose proof (quietStep_trans _ _ _ _ Q1 (quietStep_trans _ _ _ _ Q2 Q3)) as Q.
      destruct (quietStep_settings _ _ Q) as (Sc & Ss & _).
      destruct Q as (Qs & Qk & _).
      cbn [state sent keepAlive currentPage set_currentPage] in Sc, Qs, Qk.
      unfold sameSettings in *. cbn in Ss.
      destruct d as [url|]; [destruct (falsy (Some url))|];
        intros [= <- <-]; cbn;
        rewrite ?offscreenRequests_app, ?app_nil_r, ?Qs; cbn;
        rewrite ?app_nil_r; intuition auto.
    + cbn. intros [= <- <-].
      destruct (quietStep_settings _ _ Q1) as (Sc & Ss & _).
      destruct Q1 as (Qs & Qk & _).
      unfold sameSettings in *.
      cbn in *. rewrite Qs. intuition auto.
  - unfold bind, broadcast, send, stopKeepAlive, setAlarm, getState; cbn [state].
    match goal with
    | |- context [(if ?b then generatePdf env else ret tt) ?w0] =>
        assert (G : stoppedOrSame (state w0)
                      (state (snd ((if b then generatePdf env else ret tt) w0))) /\
                    keepAlive (snd ((if b then generatePdf env else ret tt) w0))
                    = keepAlive w0 /\
                    assemblyRequested
                      w0 (snd ((if b then generatePdf env else ret tt) w0)));
        [|destruct ((if b then generatePdf env else ret tt) w0) as [[] w1]]
    end.
    { destruct (0 <? _)%nat.
      - match goal with
        | |- context [generatePdf env ?w0] =>
            destruct (generatePdf_exact w0) as (A & B & _);
            pose proof (generatePdf_requests w0) as C
        end.
        auto.
      - cbn. split; [apply stoppedOrSame_refl|]. split; [reflexivity|].
        now left. }
    cbn [snd] in G. destruct G as (T & K & R).
    destruct (stoppedOrSame_fields _ _ T) as (Fc & _ & _ & _ & _ & _ & Fr & _).
    apply stoppedOrSame_settings in T.
    cbn in Fc, Fr, K, T.
    intros [= <- <-]. split; [exact T|]. repeat split; auto.
    + now rewrite (Fr Erun).
    + eapply assemblyRequested_after; [|exact R].
      cbn. rewrite offscreenRequests_app. cbn. now rewrite app_nil_r.
Qed.

Lemma mainLoopFrom_status (start last : Z) (dir : string) (level : Q)
    (wait : Z) (fuel : nat) :
  forall (page : Z) (w w' : World) (r : LoopExit),
    mainLoopFrom env fuel page start last dir level wait w = (r, w') ->
    sameSettings (state w) (state w') /\
    (currentPage (state w') = currentPage (state w) \/
     page <= currentPage (state w') <= last) /\
    match r with
    | FunctionReturned =>
        isRunning (state w') = false /\ keepAlive w' = false /\
        assemblyRequested w w'
    | LoopDone =>
        keepAlive w' = keepAlive w /\
        offscreenRequests (sent w') = offscreenRequests (sent w)
    end.
Proof.
  induction fuel as [|fuel IH]; intros page w w' r.
  - cbn. intros [= <- <-]. split; [apply sameSettings_refl|auto].
  - cbn [mainLoopFrom].
    destruct (page <=? last) eqn:Epage.
    2:{ cbn. intros [= <- <-]. split; [apply sameSettings_refl|auto]. }
    apply Z.leb_le in Epage.
    unfold bind at 1.
    destruct (loopBody env start dir level wait page w) as [r0 w1] eqn:E0.
    pose proof (loopBody_status _ _ _ _ _ _ _ _ E0) as (S0 & B0).
    destruct r0 as [| |d].
    + cbn. intros [= <- <-]. destruct B0 as (R0 & K0 & C0 & A0).
      split; [exact S0|]. repeat split; auto.
    + cbn. intros [= <- <-]. destruct B0 as (R0 & K0 & C0 & A0).
      split; [exact S0|]. repeat split; auto. right. lia.
    + intros E. destruct B0 as (K0 & C0 & A0).
      specialize (IH _ _ _ _ E).
      destruct IH as (S1 & C1 & B1).
      split; [exact (sameSettings_trans _ _ _ S0 S1)|]. split.
      * right. destruct C1 as [C1|C1]; [rewrite C1, C0|]; lia.
      * destruct r.
        -- destruct B1 as (R1 & K1 & A1). repeat split; auto.
           eapply assemblyRequested_after; [exact A0|exact A1].
        -- destruct B1 as (K1 & A1). split; congruence.
Qed.

Lemma afterLoop_status (w : World) :
  let w' := snd (afterLoop env w) in
  isRunning (state w') = false /\ keepAlive w' = false /\
  currentPage (state w') = currentPage (state w) /\
  sameSettings (state w) (state w') /\
  assemblyRequested w w'.
Proof.
  cbv zeta.
  destruct (afterLoop env w) as [[] w'] eqn:E. cbn [snd]. revert E.
  unfold afterLoop. unfold bind at 1. unfold getState at 1. cbv beta iota.
  destruct (negb (isRunning (state w)) && (List.length (images (state w)) =? 0)%nat)
    eqn:E.
  - apply andb_prop in E. destruct E as [E1 E2].
    apply negb_true_iff in E1.
    cbn. intros [= <-]. cbn.
    split; [exact E1|]. split; [reflexivity|]. split; [reflexivity|].
    split; [apply sameSettings_refl|now left].
  - unfold bind, modifyState, stopKeepAlive, setAlarm, broadcast, send.
    match goal with
    | |- context [generatePdf env ?w0] =>
        destruct (generatePdf_exact w0) as (T & K & _);
        pose proof (generatePdf_requests w0) as R;
        destruct (generatePdf env w0) as [[] w1]
    end.
    cbn [snd] in *.
    destruct (stoppedOrSame_fields _ _ T) as (Fc & _ & _ & _ & _ & _ & Fr & _).
    apply stoppedOrSame_settings in T.
    cbn in Fc, Fr, K, T.
    intros [= <-]. split; [|split; [|split; [|split]]]; auto.
    + now rewrite (Fr eq_refl).
    + eapply assemblyRequested_after; [|exact R].
      cbn. rewrite offscreenRequests_app. cbn. now rewrite app_nil_r.
Qed.

Lemma navigateToStart_status (st : CaptureState) (w : World) :
  let w0 := snd (navigateToStart env st w) in
  stoppedOrSame (state w) (state w0) /\ keepAlive w0 = keepAlive w /\
  offscreenRequests (sent w0) = offscreenRequests (sent w).
Proof.
  cbv zeta. unfold navigateToStart.
  destruct (1 <? startPage st).
  - unfold bind, broadcastProgress, broadcast, send.
    match goal with
    | |- context [skipToStartFrom env ?f ?i ?s ?d ?wt ?w0] =>
        pose proof (quiet_skipToStartFrom env s d wt f i w0) as Q;
        destruct (skipToStartFrom env f i s d wt w0) as [[] w1]
    end.
    cbn [snd] in *. destruct Q as (Qs & Qk & Qt & _). cbn in *.
    repeat split; auto. rewrite Qs, offscreenRequests_app. cbn.
    now rewrite app_nil_r.
  - cbn. repeat split; auto. apply stoppedOrSame_refl.
Qed.

(** The whole of [captureLoop]: the session is idle afterwards, the page
    recorded is one the loop visited, and the offscreen document was asked
    at most once, for the frames held at the end. *)
Lemma captureLoop_status (w : World) :
  let w' := snd (captureLoop env w) in
  isRunning (state w') = false /\ keepAlive w' = false /\
  sameSettings (state w) (state w') /\
  (currentPage (state w') = currentPage (state w) \/
   startPage (state w) <= currentPage (state w') <= endPage (state w)) /\
  assemblyRequested w w'.
Proof.
  cbv zeta. rewrite captureLoop_unfold.
  pose proof (navigateToStart_status (state w) w) as (T0 & K0 & A0).
  fold (atLoopEntry env w) in T0, K0, A0.
  destruct (stoppedOrSame_fields _ _ T0) as (Fc & _).
  apply stoppedOrSame_settings in T0.
  destruct (mainLoop env (state w) (pagesToVisit (state w)) (atLoopEntry env w))
    as [r w1] eqn:E.
  pose proof (mainLoopFrom_status _ _ _ _ _ _ _ _ _ _ E) as (S1 & C1 & B1).
  rewrite Fc in C1.
  pose proof (sameSettings_trans _ _ _ T0 S1) as S01.
  destruct r.
  - cbn [snd]. destruct B1 as (R1 & K1 & A1).
    split; [exact R1|]. split; [exact K1|]. split; [exact S01|].
    split; [exact C1|].
    eapply assemblyRequested_after; [exact A0|exact A1].
  - destruct B1 as (K1 & A1).
    destruct (afterLoop_status w1) as (R2 & K2 & C2 & S2 & A2).
    cbn [snd].
    split; [exact R2|]. split; [exact K2|].
    split; [exact (sameSettings_trans _ _ _ S01 S2)|]. split.
    + rewrite C2. exact C1.
    + eapply assemblyRequested_after; [|exact A2]. congruence.
Qed.

End State.









Section Session.

Variable env : Env.

Lemma startFailed_idle (w : World) :
  let w' := snd (startFailed w) in
  isRunning (state w') = false /\ keepAlive w' = false /\ sent w' = sent w.
Proof. cbv. auto. Qed.

Lemma quiet_ensureContentScript : quiet env (ensureContentScript env).
Proof. unfold ensureContentScript. quiet_walk. Qed.


(** X14.  Whatever the browser, the content script and the user do,
    [handleStartCapture] started from an idle service worker (no session
    running, keep-alive alarm off) ends idle: [isRunning] is false and the
    keep-alive alarm is cleared, whether the request was refused, failed in
    the [catch] clause, was stopped or ran to its end. *)
Theorem start_request_ends_idle (msg : StartMsg) (w : World) :
  isRunning (state w) = false -> keepAlive w = false ->
  let w' := snd (handleStartCapture env msg w) in
  isRunning (state w') = false /\ keepAlive w' = false.
Proof.
  intros Hrun Hk. cbv zeta.
  destruct (handleStartCapture env msg w) as [u w'] eqn:E. cbn [snd].
  revert E.
  unfold handleStartCapture. unfold bind at 1. unfold getState at 1.
  rewrite Hrun. unfold bind at 1.
  pose proof (quiet_await env w) as Q0.
  destruct (await env w) as [t w0]. cbn [snd] in Q0.
  destruct (quietStep_settings env _ _ Q0) as (_ & _ & R0).
  destruct Q0 as (_ & K0 & _).
  assert (F : forall w1, startFailed w1 = (u, w') ->
                isRunning (state w') = false /\ keepAlive w' = false).
  { intros w1 H. unfold startFailed, bind, modifyState, stopKeepAlive,
      setAlarm, sendResponse in H. injection H as _ <-. cbn. auto. }
  destruct (activeTab env t) as [[tab|]|].
  - destruct (negb _).
    + intros H. injection H as _ <-. cbn. split; [now apply R0|congruence].
    + unfold bind at 1. unfold modifyState at 1.
      unfold bind at 1. unfold sendResponse at 1.
      unfold bind at 1.
      destruct (ensureContentScript env _) as [[|] w1].
      * unfold bind at 1. unfold startKeepAlive, setAlarm.
        match goal with
        | |- context [captureLoop env ?w2] =>
            destruct (captureLoop_status env w2) as (A & B & _)
        end.
        intros E. rewrite E in A, B. auto.
      * apply F.
  - intros H. injection H as _ <-. cbn. split; [now apply R0|congruence].
  - apply F.
Qed.







(** X18.  The requests a run of [captureLoop] sends to the offscreen
    document, handled by its listener in the order sent and from any state
    of the document, make it call [buildPdf] at most once; and when it
    does, on exactly the frames the service worker holds at the end of the
    run, which are not empty, with the crop and size settings of the
    session. *)
Theorem finished_run_requests_one_assembly (w : World) (s : Offscreen.State) :
  let w' := snd (captureLoop env w) in
  let built := snd (deliver s (offscreenRequests (emitted w w'))) in
  built = [] \/
  (images (state w') <> [] /\
   built = [mkBuildCall (images (state w')) (cropOf (pdfOpts (state w)))
                        (sizeOf (pdfOpts (state w)))]).
Proof.
  intros w' built.
  destruct (captureLoop_spec env w) as (_ & rest & G & _).
  fold w' in G. apply emitted_app in G as Em.
  assert (Hs : sent w' = sent w ++ emitted w w') by (rewrite Em; exact G).
  destruct (captureLoop_status env w) as (_ & _ & (_ & _ & _ & O) & _ & A).
  fold w' in O, A.
  unfold assemblyRequested in A. rewrite Hs, offscreenRequests_app in A.
  destruct A as [A|(Hne & A)].
  - left. subst built.
    rewrite <- (app_nil_r (offscreenRequests (sent w))) in A at 2.
    apply app_inv_head in A. now rewrite A.
  - right. split; [exact Hne|]. subst built.
    apply app_inv_head in A. rewrite A, O. apply pdfMessages_assemble.
Qed.


(** X15.  A refused start request leaves no trace.  When a session is
    already running, when there is no active tab, or when the active tab is
    not a Kindle page, [handleStartCapture] answers with an error, sends no
    notification, captures nothing, sends nothing to the tab, leaves zoom
    and keep-alive alarm alone, and does not touch the session data (a
    stop request handled while the tab is queried can only clear
    [isRunning]); a running session is left exactly as it was. *)
Theorem refused_start_leaves_no_trace (msg : StartMsg) (w : World) :
  isRunning (state w) = true \/
  activeTab env (clock w) = Returned None \/
  (exists tab, activeTab env (clock w) = Returned (Some tab) /\
               includes (optDefault (tab_url tab) EmptyString)
                        "read.amazon."%string = false) ->
  let w' := snd (handleStartCapture env msg w) in
  stoppedOrSame (state w) (state w') /\
  (isRunning (state w) = true -> state w' = state w) /\
  sent w' = sent w /\ keepAlive w' = keepAlive w /\
  shots w' = shots w /\ tabMsgs w' = tabMsgs w /\ zooms w' = zooms w /\
  exists e, last (responses w') RespOk = RespError e /\
            (isRunning (state w) = true -> e = AlreadyRunning).
Proof.
  intros H. cbv zeta.
  destruct (handleStartCapture env msg w) as [u w'] eqn:E. cbn [snd].
  revert E.
  unfold handleStartCapture. unfold bind at 1. unfold getState at 1.
  destruct (isRunning (state w)) eqn:Erun.
  - intros E. injection E as _ <-. cbn.
    split; [apply stoppedOrSame_refl|]. repeat split; auto.
    exists AlreadyRunning. rewrite last_last. auto.
  - unfold bind at 1. unfold await at 1. cbn [fst snd].
    destruct H as [H|[H|(tab & H & Hurl)]]; [discriminate| |]; rewrite H.
    + intros E. injection E as _ <-. cbn.
      split; [destruct (stopRequested env (clock w)); [now right|now left]|].
      repeat split; auto; try discriminate.
      exists NoActiveTab. rewrite last_last. split; [reflexivity|discriminate].
    + rewrite Hurl. cbn [negb].
      intros E. injection E as _ <-. cbn.
      split; [destruct (stopRequested env (clock w)); [now right|now left]|].
      repeat split; auto; try discriminate.
      exists NotKindlePage. rewrite last_last. split; [reflexivity|discriminate].
Qed.



End Session.


(** X20.  A session started from the popup is never cropped or resized.
    The request the click handler sends carries no crop and no output size,
    so the session's PDF options are all zero, and the transfer
    [generatePdf] makes with them leads the offscreen document to one
    [buildPdf] call with crop and size settings (0, 0). *)
Theorem popup_sessions_are_never_cropped
    (f : Form) (msg : StartMsg) (tab : Tab) (s : Offscreen.State)
    (frames : list DataUrl) :
  onStartClick f = SendStart msg ->
  pdfOpts (initSession msg tab) = mkPdfOptions 0 0 0 0 /\
  snd (deliver s (pdfMessages frames (pdfOpts (initSession msg tab)))) =
    [mkBuildCall frames (0, 0) (0, 0)].
Proof.
  intros H.
  assert (O : pdfOpts (initSession msg tab) = mkPdfOptions 0 0 0 0).
  { unfold onStartClick in H.
    destruct (f_startPage f) as [a|]; [|discriminate].
    destruct (f_endPage f) as [b|]; [|discriminate].
    destruct ((a <? 1) || (b <? 1)); [discriminate|].
    destruct (b <? a); [discriminate|].
    destruct (f_delay f) as [d|]; [|discriminate].
    destruct (d <? 500); [discriminate|].
    injection H as <-. reflexivity. }
  split; [exact O|]. rewrite O. apply pdfMessages_assemble.
Qed.

(** ** Counting the page turns *)

Lemma turns_logged (c : Call) (w : World) :
  turns (snd (logCall c w)) = (turns w + if isTurn c then 1 else 0)%nat.
Proof.
  unfold turns, logCall. cbn. rewrite filter_app, length_app. cbn.
  now destruct (isTurn c).
Qed.

Lemma noTurn_ret {A} (a : A) : noTurn (ret a).
Proof. intros w; reflexivity. Qed.

Lemma noTurn_bind {A B} (c : M A) (k : A -> M B) :
  noTurn c -> (forall a, noTurn (k a)) -> noTurn (bind c k).
Proof.
  intros Hc Hk w. unfold bind.
  specialize (Hc w). destruct (c w) as [a w1]; cbn [snd] in Hc.
  rewrite <- Hc. apply Hk.
Qed.

Lemma noTurn_getState : noTurn getState.
Proof. intros w; reflexivity. Qed.

Lemma noTurn_modifyState (f : CaptureState -> CaptureState) :
  noTurn (modifyState f).
Proof. intros w; reflexivity. Qed.

Lemma noTurn_send (m : Msg) : noTurn (send m).
Proof. intros w; reflexivity. Qed.

Lemma noTurn_setAlarm (b : bool) : noTurn (setAlarm b).
Proof. intros w; reflexivity. Qed.

Lemma noTurn_sendResponse (r : Response) : noTurn (sendResponse r).
Proof. intros w; reflexivity. Qed.

Lemma noTurn_logCall (c : Call) : isTurn c = false -> noTurn (logCall c).
Proof. intros H w. rewrite turns_logged, H. lia. Qed.

Section Turns.

Variable env : Env.

Lemma noTurn_await : noTurn (await env).
Proof. intros w; reflexivity. Qed.

Lemma noTurn_sleep (ms : Z) : noTurn (sleep env ms).
Proof.
  unfold sleep.
  apply noTurn_bind; [now apply noTurn_logCall|intros _].
  apply noTurn_bind; [apply noTurn_await|intros _; apply noTurn_ret].
Qed.

Lemma noTurn_setZoom (q : Q) : noTurn (setZoom env q).
Proof.
  unfold setZoom.
  apply noTurn_bind; [now apply noTurn_logCall|intros _].
  apply noTurn_bind; [apply noTurn_await|intros _].
  intros w; reflexivity.
Qed.

Lemma noTurn_captureVisibleTab : noTurn (captureVisibleTab env).
Proof.
  unfold captureVisibleTab.
  apply noTurn_bind; [now apply noTurn_logCall|intros _].
  apply noTurn_bind; [apply noTurn_await|intros _].
  intros w; reflexivity.
Qed.

Lemma turns_tabSend (r : TabRequest) (w : World) :
  turns (snd (tabSend env r w)) =
  (turns w + if isTurn (TabSend r) then 1 else 0)%nat.
Proof.
  unfold tabSend, bind. 
  pose proof (turns_logged (TabSend r) w) as L.
  destruct (logCall (TabSend r) w) as [[] w1]. cbn [snd] in L.
  rewrite <- L. reflexivity.
Qed.

Lemma noTurn_tabSend (r : TabRequest) :
  isTurn (TabSend r) = false -> noTurn (tabSend env r).
Proof. intros H w. rewrite turns_tabSend, H. lia. Qed.

End Turns.

Ltac noTurn_walk :=
  repeat first
    [ apply noTurn_ret
    | apply noTurn_sleep
    | apply noTurn_setZoom
    | apply noTurn_captureVisibleTab
    | apply noTurn_tabSend; reflexivity
    | apply noTurn_getState
    | apply noTurn_modifyState
    | apply noTurn_send
    | apply noTurn_setAlarm
    | apply noTurn_sendResponse
    | apply noTurn_await
    | assumption
    | match goal with
      | H : forall _, noTurn _ |- _ => apply H
      end
    | apply noTurn_bind; [|intros ?]
    | match goal with
      | |- noTurn (if ?b then _ else _) => destruct b
      | |- noTurn (match ?x with _ => _ end) => destruct x
      end ].

Section TurnsComposite.

Variable env : Env.

Lemma noTurn_zoomedAttempt (level : Q) : noTurn (zoomedAttempt env level).
Proof. unfold zoomedAttempt; noTurn_walk. Qed.

Lemma noTurn_captureWithZoomFrom (fuel : nat) :
  forall attempt level, noTurn (captureWithZoomFrom env fuel attempt level).
Proof.
  induction fuel as [|fuel IH]; intros attempt level; simpl.
  - apply noTurn_ret.
  - pose proof (noTurn_zoomedAttempt level).
    pose proof (IH (attempt + 1) level).
    noTurn_walk.
Qed.

Lemma noTurn_waitForContentReadyFrom (fuel : nat) :
  forall i, noTurn (waitForContentReadyFrom env fuel i).
Proof.
  induction fuel as [|fuel IH]; intros i; simpl.
  - apply noTurn_ret.
  - pose proof (IH (i + 1)). noTurn_walk.
Qed.

Lemma noTurn_captureWithRetryFrom (fuel : nat) :
  forall attempt level, noTurn (captureWithRetryFrom env fuel attempt level).
Proof.
  induction fuel as [|fuel IH]; intros attempt level; simpl.
  - apply noTurn_captureWithZoomFrom.
  - pose proof (noTurn_captureWithZoomFrom 3 0 level).
    pose proof (IH (attempt + 1) level).
    pose proof (noTurn_waitForContentReadyFrom 5 0).
    unfold captureWithZoom, waitForContentReady in *.
    noTurn_walk.
Qed.

Lemma noTurn_sendAll (msgs : list OffMsg) : noTurn (sendAll msgs).
Proof.
  induction msgs as [|m msgs IH]; cbn [sendAll]; noTurn_walk.
Qed.

Lemma noTurn_generatePdf : noTurn (generatePdf env).
Proof.
  pose proof noTurn_sendAll.
  unfold generatePdf, setupOffscreenDocument, broadcast. noTurn_walk.
Qed.

Lemma noTurn_afterLoop : noTurn (afterLoop env).
Proof.
  pose proof noTurn_generatePdf.
  unfold afterLoop, stopKeepAlive, broadcast. noTurn_walk.
Qed.

Lemma turns_turnPage (d : string) (ms : Z) (w : World) :
  turns (snd (turnPage env d ms w)) = S (turns w).
Proof.
  unfold turnPage. unfold bind at 1. unfold bind at 1.
  pose proof (turns_tabSend env (TurnPage d ms) w) as T1.
  destruct (tabSend env (TurnPage d ms) w) as [r w1]. cbn [snd] in T1.
  cbn [isTurn] in T1.
  destruct r.
  - unfold ret. rewrite (noTurn_sleep env 300 w1). lia.
  - unfold bind.
    pose proof (turns_tabSend env (TurnPageClick d ms) w1) as T2.
    destruct (tabSend env (TurnPageClick d ms) w1) as [r2 w2].
    cbn [snd isTurn] in T2. unfold ret.
    rewrite (noTurn_sleep env 300 w2). lia.
Qed.

Lemma turns_skipToStartFrom (start : Z) (dir : string) (wait : Z) (fuel : nat) :
  forall (i : Z) (w w' : World) (u : unit),
    skipToStartFrom env fuel i start dir wait w = (u, w') ->
    (turns w <= turns w')%nat /\
    Z.of_nat (turns w') - Z.of_nat (turns w)
      <= Z.min (Z.of_nat fuel) (Z.max 0 (start - i)) /\
    (neverStopped env -> isRunning (state w) = true ->
     Z.of_nat (turns w') - Z.of_nat (turns w)
       = Z.min (Z.of_nat fuel) (Z.max 0 (start - i))).
Proof.
  induction fuel as [|fuel IH]; intros i w w' u.
  - cbn. intros [= _ <-]. repeat split; lia.
  - cbn [skipToStartFrom].
    destruct (i <? start) eqn:E.
    2:{ apply Z.ltb_ge in E. intros [= _ <-]. repeat split; lia. }
    apply Z.ltb_lt in E.
    unfold bind at 1. unfold getState at 1.
    destruct (isRunning (state w)) eqn:R; cbn [negb].
    2:{ intros [= _ <-]. repeat split; try lia;
        try (intros _ H; discriminate H). }
    unfold bind at 1.
    pose proof (turns_turnPage dir wait w) as T1.
    pose proof (quiet_turnPage env dir wait w) as Q1.
    destruct (turnPage env dir wait w) as [[] w1]. cbn [snd] in T1, Q1.
    intros E1. specialize (IH (i + 1) w1 w' u E1).
    destruct IH as (I0 & I1 & I2).
    split; [lia|]. split; [lia|].
    intros Hn _. destruct Q1 as (_ & _ & _ & N1 & _).
    rewrite Nat2Z.inj_succ in *.
    assert (R1 : isRunning (state w1) = true) by (rewrite (N1 Hn); exact R).
    specialize (I2 Hn R1). lia.
Qed.

Lemma turns_loopBody (start : Z) (dir : string) (level : Q) (wait page : Z)
    (w w' : World) (r : BodyExit) :
  loopBody env start dir level wait page w = (r, w') ->
  turns w' =
  match r with
  | StoppedAtTop => turns w
  | _ => (turns w + if (start <? page)%Z then 1 else 0)%nat
  end.
Proof.
  unfold loopBody. unfold bind at 1. unfold getState at 1.
  destruct (isRunning (state w)) eqn:Erun; cbn [negb].
  - unfold bind at 1. unfold modifyState at 1.
    unfold bind at 1.
    match goal with
    | |- context [(if start <? page then ?a else ?b) ?w0] =>
        assert (T1 : turns (snd ((if start <? page then a else b) w0)) =
                     (turns w + if (start <? page)%Z then 1 else 0)%nat)
          by (destruct (start <? page);
              [rewrite turns_turnPage; unfold turns; cbn; lia
              |rewrite noTurn_sleep; unfold turns; cbn; lia]);
        destruct ((if start <? page then a else b) w0) as [[] w1]
    end.
    cbn [snd] in T1.
    unfold bind at 1. unfold getState at 1.
    destruct (isRunning (state w1)) eqn:Erun1; cbn [negb].
    + unfold bind at 1.
      assert (T2 : turns (snd (waitForContentReady env w1)) = turns w1)
        by apply noTurn_waitForContentReadyFrom.
      destruct (waitForContentReady env w1) as [[] w2]; cbn [snd] in T2.
      unfold bind at 1.
      assert (T3 : turns (snd (captureWithRetry env level w2)) = turns w2)
        by apply noTurn_captureWithRetryFrom.
      destruct (captureWithRetry env level w2) as [d w3]; cbn [snd] in T3.
      destruct d as [url|]; [destruct (falsy (Some url))|];
        intros [= <- <-]; rewrite <- T1, <- T2, <- T3; reflexivity.
    + cbn. intros [= <- <-]. exact T1.
  - unfold bind at 1. unfold broadcast, send at 1.
    unfold bind at 1. unfold stopKeepAlive, setAlarm at 1.
    unfold bind at 1. unfold getState at 1. cbn [state].
    unfold bind at 1.
    match goal with
    | |- context [(if ?b then generatePdf env else ret tt) ?w0] =>
        assert (G : turns (snd ((if b then generatePdf env else ret tt) w0))
                    = turns w)
          by (destruct b; [rewrite noTurn_generatePdf|]; reflexivity);
        destruct ((if b then generatePdf env else ret tt) w0) as [[] w1]
    end.
    cbn [snd] in G. intros [= <- <-]. exact G.
Qed.

Lemma turns_mainLoopFrom (start last : Z) (dir : string) (level : Q)
    (wait : Z) (fuel : nat) :
  forall (page : Z) (w w' : World) (r : LoopExit),
    start <= page ->
    mainLoopFrom env fuel page start last dir level wait w = (r, w') ->
    (turns w <= turns w')%nat /\
    Z.of_nat (turns w') - Z.of_nat (turns w)
      <= Z.max 0 (last - Z.max page (start + 1) + 1) /\
    (neverStopped env -> isRunning (state w) = true ->
     last - page + 1 <= Z.of_nat fuel ->
     Z.of_nat (turns w') - Z.of_nat (turns w)
       = Z.max 0 (last - Z.max page (start + 1) + 1)).
Proof.
  induction fuel as [|fuel IH]; intros page w w' r Hp.
  - cbn. intros [= _ <-]. repeat split; lia.
  - cbn [mainLoopFrom].
    destruct (page <=? last) eqn:Epage.
    2:{ apply Z.leb_gt in Epage. cbn. intros [= _ <-]. repeat split; lia. }
    apply Z.leb_le in Epage.
    unfold bind at 1.
    destruct (loopBody env start dir level wait page w) as [r0 w1] eqn:E0.
    pose proof (turns_loopBody _ _ _ _ _ _ _ _ E0) as T0.
    assert (B : (if (start <? page)%Z then 1 else 0)%nat =
                Z.to_nat (if start <? page then 1 else 0))
      by (now destruct (start <? page)).
    assert (Hb : (if start <? page then 1 else 0) + (last - page)
                 = Z.max 0 (last - Z.max page (start + 1) + 1)).
    { destruct (start <? page) eqn:Es;
        [apply Z.ltb_lt in Es|apply Z.ltb_ge in Es]; lia. }
    assert (Hb0 : 0 <= (if start <? page then 1 else 0) <= 1)
      by (destruct (start <? page); lia).
    destruct r0 as [| |d].
    + intros [= _ <-]. rewrite T0. split; [lia|]. split; [lia|].
      intros Hn Hrun _.
      destruct (loopBody_running env start dir level wait page w Hn Hrun)
        as (d & w2 & E2 & _). congruence.
    + intros [= _ <-]. rewrite T0, B. split; [lia|]. split; [lia|].
      intros Hn Hrun _.
      destruct (loopBody_running env start dir level wait page w Hn Hrun)
        as (d' & w2 & E2 & _). congruence.
    + intros E1.
      destruct (IH (page + 1) w1 w' r ltac:(lia) E1) as (I0 & I1 & I2).
      rewrite T0, B in *.
      replace (Z.max 0 (last - Z.max (page + 1) (start + 1) + 1))
        with (last - page) in * by lia.
      split; [lia|]. split; [lia|].
      intros Hn Hrun Hf.
      destruct (loopBody_running env start dir level wait page w Hn Hrun)
        as (d' & w2 & E2 & R2).
      rewrite E0 in E2. injection E2 as _ <-.
      specialize (I2 Hn R2 ltac:(lia)). lia.
Qed.

Lemma turns_navigateToStart (st : CaptureState) (w : World) :
  let w0 := snd (navigateToStart env st w) in
  (turns w <= turns w0)%nat /\
  Z.of_nat (turns w0) - Z.of_nat (turns w) <= Z.max 0 (startPage st - 1) /\
  (neverStopped env -> isRunning (state w) = true ->
   Z.of_nat (turns w0) - Z.of_nat (turns w) = Z.max 0 (startPage st - 1)).
Proof.
  cbv zeta.
  destruct (navigateToStart env st w) as [u w0] eqn:E. cbn [snd]. revert E.
  unfold navigateToStart.
  destruct (1 <? startPage st) eqn:Es.
  - apply Z.ltb_lt in Es.
    unfold bind at 1. unfold broadcastProgress, broadcast, send at 1.
    intros E. apply turns_skipToStartFrom in E.
    unfold turns in *. cbn [calls state] in E.
    destruct E as (E0 & E1 & E2). split; [exact E0|]. split; [lia|].
    intros Hn Hrun. specialize (E2 Hn Hrun). lia.
  - apply Z.ltb_ge in Es. intros [= _ <-]. repeat split; lia.
Qed.

End TurnsComposite.

Section TurnsOfARun.

Variable env : Env.

(** X24.  The page turns of a run.  For a session over pages
    [startPage] to [endPage] with [1 <= startPage <= endPage],
    [captureLoop] sends at most [endPage - 1] [turnPage] requests to the
    content script: [startPage - 1] to reach the start page and one before
    every page after the first; and exactly [endPage - 1] when the session
    is running and no stop request arrives. *)
Theorem page_turns_of_a_run (w : World) :
  1 <= startPage (state w) <= endPage (state w) ->
  let w' := snd (captureLoop env w) in
  (turns w <= turns w')%nat /\
  Z.of_nat (turns w') - Z.of_nat (turns w) <= endPage (state w) - 1 /\
  (neverStopped env -> isRunning (state w) = true ->
   Z.of_nat (turns w') - Z.of_nat (turns w) = endPage (state w) - 1).
Proof.
  intros Hv. cbv zeta. rewrite captureLoop_unfold.
  destruct (turns_navigateToStart env (state w) w) as (N0 & N1 & N2).
  pose proof (navigateToStart_spec env (state w) w) as (_ & _ & N3).
  fold (atLoopEntry env w) in N0, N1, N2, N3.
  destruct (mainLoop env (state w) (pagesToVisit (state w)) (atLoopEntry env w))
    as [r w1] eqn:E.
  destruct (turns_mainLoopFrom env _ _ _ _ _ _ _ _ _ _ (Z.le_refl _) E)
    as (M0 & M1 & M2).
  assert (A : turns (snd (match r with
                          | FunctionReturned => (tt, w1)
                          | LoopDone => afterLoop env w1
                          end)) = turns w1).
  { destruct r; [reflexivity|apply noTurn_afterLoop]. }
  rewrite A. split; [lia|]. split; [lia|].
  intros Hn Hrun.
  specialize (N2 Hn Hrun).
  assert (R0 : isRunning (state (atLoopEntry env w)) = true)
    by (rewrite (N3 Hn); exact Hrun).
  assert (F : endPage (state w) - startPage (state w) + 1
              <= Z.of_nat (pagesToVisit (state w)))
    by (unfold pagesToVisit; lia).
  specialize (M2 Hn R0 F). lia.
Qed.

End TurnsOfARun.

(** ** Instances *)

Lemma waitForContentReady_polls_are_bounded_witness :
  (tabMsgs (snd (waitForContentReady slowPage initialWorld))
   - tabMsgs initialWorld < 5)%nat /\
  tabReply slowPage
    (tabMsgs initialWorld
     + (tabMsgs (snd (waitForContentReady slowPage initialWorld))
        - tabMsgs initialWorld) - 1) <> Some false.
Proof.
  assert (H : (tabMsgs (snd (waitForContentReady slowPage initialWorld))
               - tabMsgs initialWorld < 5)%nat) by (vm_compute; lia).
  split; [exact H|].
  exact (proj1 (proj2 (proj2 (proj2
           (waitForContentReady_polls_are_bounded slowPage initialWorld)))) H).
Defined.

Lemma start_request_ends_idle_witness :
  (isRunning (state initialWorld) = false /\ keepAlive initialWorld = false) /\
  isRunning (state (snd (handleStartCapture blind fivePages initialWorld)))
  = false.
Proof.
  split; [split; reflexivity|].
  exact (proj1 (start_request_ends_idle blind fivePages initialWorld
                                        eq_refl eq_refl)).
Defined.

Lemma refused_start_leaves_no_trace_witness :
  isRunning (state twoPages) = true /\
  state (snd (handleStartCapture blind fivePages twoPages)) = state twoPages.
Proof.
  assert (H : isRunning (state twoPages) = true) by reflexivity.
  split; [exact H|].
  exact (proj1 (proj2 (refused_start_leaves_no_trace
                         blind fivePages twoPages (or_introl H))) H).
Defined.




Lemma popup_sessions_are_never_cropped_witness :
  onStartClick threeToFive =
    SendStart (mkStartMsg 3 5 (Some "right"%string) None None None None 2 2000) /\
  pdfOpts (initSession
             (mkStartMsg 3 5 (Some "right"%string) None None None None 2 2000)
             kindleTab) = mkPdfOptions 0 0 0 0.
Proof.
  assert (H : onStartClick threeToFive =
              SendStart (mkStartMsg 3 5 (Some "right"%string)
                                    None None None None 2 2000))
    by reflexivity.
  split; [exact H|].
  exact (proj1 (popup_sessions_are_never_cropped
                  threeToFive _ kindleTab Offscreen.initial [] H)).
Defined.

Lemma page_turns_of_a_run_witness :
  (1 <= startPage (state twoPages) <= endPage (state twoPages) /\
   neverStopped blind /\ isRunning (state twoPages) = true) /\
  Z.of_nat (turns (snd (captureLoop blind twoPages)))
  - Z.of_nat (turns twoPages) = endPage (state twoPages) - 1.
Proof.
  assert (H1 : 1 <= startPage (state twoPages) <= endPage (state twoPages))
    by (vm_compute; split; discriminate).
  assert (H2 : neverStopped blind) by (intros t; reflexivity).
  assert (H3 : isRunning (state twoPages) = true) by reflexivity.
  split; [exact (conj H1 (conj H2 H3))|].
  exact (proj2 (proj2 (page_turns_of_a_run blind twoPages H1)) H2 H3).
Defined.

End CaptureExtras.

(** * Properties of the content script *)

Module ContentExtras.

Import Content ContentMore.

Lemma samplePoints_inside (w h x y : Z) :
  0 < w -> 0 < h -> In (x, y) (samplePoints w h) ->
  0 <= x < w /\ 0 <= y < h.
Proof.
  assert (A : forall n, 0 < n ->
            0 <= n / 2 < n /\ 0 <= n / 4 < n /\ 0 <= 3 * n / 4 < n).
  { intros n Hn. repeat split;
      try (apply Z.div_pos; lia);
      try (apply Z.div_lt_upper_bound; lia). }
  intros Hw Hh.
  destruct (A w Hw) as (W1 & W2 & W3). destruct (A h Hh) as (H1 & H2 & H3).
  unfold samplePoints. cbn [In].
  intros [H|[H|[H|[]]]]; injection H as <- <-;
    (split; [first [exact W1|exact W2|exact W3]
            |first [exact H1|exact H2|exact H3]]).
Qed.

Lemma hasContentAt_iff (pixelAt : Z -> Z -> Pixel) (points : list (Z * Z)) :
  hasContentAt pixelAt points = true <->
  exists x y, In (x, y) points /\ showsContent (pixelAt x y) = true.
Proof.
  induction points as [|[x y] rest IH]; cbn [hasContentAt].
  - split; [discriminate|intros (x & y & [] & _)].
  - destruct (showsContent (pixelAt x y)) eqn:E.
    + split; [intros _; exists x, y; split; [now left|exact E]|reflexivity].
    + rewrite IH. split.
      * intros (a & b & Hin & Hs). exists a, b. split; [now right|exact Hs].
      * intros (a & b & [[= <- <-]|Hin] & Hs); [congruence|].
        exists a, b. auto.
Qed.

Lemma canvasesRendered_iff (cs : list CanvasEl) :
  canvasesRendered cs = true <->
  forall c, In c cs -> canvas_visible c = true -> canvasPasses c.
Proof.
  induction cs as [|c rest IH]; cbn [canvasesRendered].
  - split; [intros _ c []|reflexivity].
  - destruct (canvas_visible c) eqn:Ev; cbn [negb].
    2:{ rewrite IH. split.
        - intros H c' [<-|Hin] Hv; [congruence|now apply H].
        - intros H c' Hin. apply H. now right. }
    destruct ((canvas_width c =? 0) || (canvas_height c =? 0)) eqn:Ez.
    { split; [discriminate|]. intros H.
      destruct (H c (or_introl eq_refl) Ev) as (Hw & Hh & _).
      apply orb_true_iff in Ez. destruct Ez as [Ez|Ez]; apply Z.eqb_eq in Ez;
        contradiction. }
    apply orb_false_iff in Ez. destruct Ez as [Ew Eh].
    apply Z.eqb_neq in Ew. apply Z.eqb_neq in Eh.
    assert (Hrest : (forall c', In c' (c :: rest) -> canvas_visible c' = true ->
                                canvasPasses c') <->
                    canvasPasses c /\
                    (forall c', In c' rest -> canvas_visible c' = true ->
                                canvasPasses c')).
    { split.
      - intros H. split; [apply H; [now left|exact Ev]|].
        intros c' Hin. apply H. now right.
      - intros [Hc H] c' [<-|Hin] Hv; [exact Hc|now apply H]. }
    rewrite Hrest, <- IH. unfold canvasPasses.
    destruct (canvas_context c) as [| |pixelAt] eqn:Ec.
    + split; [|tauto]. intros H. split; [|exact H].
      split; [exact Ew|]. split; [exact Eh|]. discriminate.
    + split; [|tauto]. intros H. split; [|exact H].
      split; [exact Ew|]. split; [exact Eh|]. discriminate.
    + destruct (hasContentAt pixelAt _) eqn:Eh'.
      * apply hasContentAt_iff in Eh'.
        split; [|tauto]. intros H. split; [|exact H].
        split; [exact Ew|]. split; [exact Eh|].
        intros p [= <-]. exact Eh'.
      * split; [discriminate|]. intros [(_ & _ & H) _].
        specialize (H pixelAt eq_refl).
        apply hasContentAt_iff in H. congruence.
Qed.

Lemma iframesRendered_iff (fs : list IframeEl) :
  iframesRendered fs = true <->
  forall f, In f fs -> iframe_visible f = true ->
            iframe_body f <> FrameChildren 0.
Proof.
  induction fs as [|f rest IH]; cbn [iframesRendered].
  - split; [intros _ f []|reflexivity].
  - destruct (iframe_visible f) eqn:Ev; cbn [negb].
    + destruct (iframe_body f) as [| |[|n]] eqn:Eb.
      1,2,4: rewrite IH; split;
        [intros H f' [<-|Hin] Hv; [rewrite Eb; discriminate|now apply H]
        |intros H f' Hin; apply H; now right].
      split; [discriminate|]. intros H.
      now specialize (H f (or_introl eq_refl) Ev).
    + rewrite IH. split.
      * intros H f' [<-|Hin] Hv; [congruence|now apply H].
      * intros H f' Hin. apply H. now right.
Qed.

Lemma noLoadingIndicator_iff (d : Dom) (sels : list LoadingSelector) :
  noLoadingIndicator d sels = true <->
  forall sel el, In sel sels -> querySelector d sel = Some el ->
                 indicatesLoading el = false.
Proof.
  induction sels as [|sel rest IH]; cbn [noLoadingIndicator].
  - split; [intros _ sel el []|reflexivity].
  - destruct (querySelector d sel) as [el|] eqn:Eq.
    + destruct (indicatesLoading el) eqn:Ei.
      * split; [discriminate|]. intros H.
        specialize (H sel el (or_introl eq_refl) Eq). congruence.
      * rewrite IH. split.
        -- intros H sel' el' [<-|Hin] Hq; [congruence|now apply (H sel')].
        -- intros H sel' el' Hin. apply H. now right.
    + rewrite IH. split.
      * intros H sel' el' [<-|Hin] Hq; [congruence|now apply (H sel')].
      * intros H sel' el' Hin. apply H. now right.
Qed.

Lemma areImagesLoadedIn_iff (imgs : list ImgEl) :
  areImagesLoadedIn imgs = true <->
  forall img, In img imgs -> img_visible img = true -> img_complete img = true.
Proof.
  induction imgs as [|img rest IH]; cbn [areImagesLoadedIn].
  - split; [intros _ img []|reflexivity].
  - destruct (img_visible img) eqn:Ev; destruct (img_complete img) eqn:Ec;
      cbn [andb negb].
    2:{ split; [discriminate|]. intros H.
        specialize (H img (or_introl eq_refl) Ev). congruence. }
    all: rewrite IH; split;
      [intros H img' [<-|Hin] Hv; [congruence|now apply H]
      |intros H img' Hin; apply H; now right].
Qed.

Lemma all_selectors (sel : LoadingSelector) : In sel loadingSelectors.
Proof. destruct sel; cbn; auto. Qed.


(** X22.  [isContentRendered] answers true exactly when: every visible
    canvas has a non-zero size and, if its pixels can be read, shows
    content at one of the three sampled points; no visible iframe has an
    empty body; no element found for a loading selector is a visible
    loading indicator; and every visible image is complete.  Invisible
    elements, canvases without a 2d context and cross-origin canvases and
    iframes never block. *)
Theorem isContentRendered_iff (d : Dom) :
  isContentRendered d = true <-> rendered d.
Proof.
  unfold isContentRendered, rendered, areImagesLoaded.
  rewrite <- canvasesRendered_iff, <- iframesRendered_iff,
          <- areImagesLoadedIn_iff.
  assert (L : noLoadingIndicator d loadingSelectors = true <->
              forall sel el, querySelector d sel = Some el ->
                             indicatesLoading el = false).
  { rewrite noLoadingIndicator_iff. split.
    - intros H sel el. apply H, all_selectors.
    - intros H sel el _. apply H. }
  rewrite <- L.
  destruct (canvasesRendered (canvases d)), (iframesRendered (iframes d)),
    (noLoadingIndicator d loadingSelectors), (areImagesLoadedIn (images d));
    cbn; intuition congruence.
Qed.


(** X23.  The pixels [isContentRendered] samples lie inside the canvas:
    for a visible canvas that passes the check, the three sampled points
    have coordinates from 0 up to the width and height excluded, because a
    canvas of zero width or height is rejected before the sampling. *)
Theorem samples_stay_inside_checked_canvas (c : CanvasEl) (rest : list CanvasEl) :
  0 <= canvas_width c -> 0 <= canvas_height c ->
  canvas_visible c = true ->
  canvasesRendered (c :: rest) = true ->
  forall x y,
    In (x, y) (samplePoints (canvas_width c) (canvas_height c)) ->
    0 <= x < canvas_width c /\ 0 <= y < canvas_height c.
Proof.
  intros Hw Hh Hv Hr x y Hin.
  assert (P : canvasPasses c).
  { apply (proj1 (canvasesRendered_iff (c :: rest)) Hr); [now left|exact Hv]. }
  destruct P as (Nw & Nh & _).
  apply samplePoints_inside; [lia|lia|exact Hin].
Qed.

(** ** Instances *)

Lemma isContentRendered_iff_witness :
  isContentRendered paintedDom = true /\ rendered paintedDom.
Proof.
  assert (H : isContentRendered paintedDom = true) by reflexivity.
  split; [exact H|].
  exact (proj1 (isContentRendered_iff paintedDom) H).
Defined.

Lemma samples_stay_inside_checked_canvas_witness :
  (0 <= canvas_width paintedCanvas /\ 0 <= canvas_height paintedCanvas /\
   canvas_visible paintedCanvas = true /\
   canvasesRendered [paintedCanvas] = true /\
   In (400, 300) (samplePoints (canvas_width paintedCanvas)
                               (canvas_height paintedCanvas))) /\
  0 <= 400 < canvas_width paintedCanvas /\
  0 <= 300 < canvas_height paintedCanvas.
Proof.
  assert (H1 : 0 <= canvas_width paintedCanvas) by (vm_compute; discriminate).
  assert (H2 : 0 <= canvas_height paintedCanvas) by (vm_compute; discriminate).
  assert (H3 : canvas_visible paintedCanvas = true) by reflexivity.
  assert (H4 : canvasesRendered [paintedCanvas] = true) by reflexivity.
  assert (H5 : In (400, 300) (samplePoints (canvas_width paintedCanvas)
                                           (canvas_height paintedCanvas)))
    by (left; reflexivity).
  split; [exact (conj H1 (conj H2 (conj H3 (conj H4 H5))))|].
  exact (samples_stay_inside_checked_canvas paintedCanvas [] H1 H2 H3 H4
                                            400 300 H5).
Defined.

End ContentExtras.

(** * The page turn, from the service worker to the content script *)

Module NavigationExtras.

Import ServiceWorker Content ContentMore.

(** X21.  A page turn follows the reading direction of the session.
    [turnPage] sends the [turnPage] request, the [turnPageClick] request
    only when the first could not be delivered, and then waits 300 ms; for
    the reading direction "left" the content script presses ArrowLeft (key
    code 37) and its click fallback aims at the left page-turn area or the
    left edge of the viewport, and for any other direction ArrowRight (39)
    and the right area or edge. *)
Theorem page_turn_follows_reading_direction
    (env : Env) (v : Viewport) (pageDirection : string) (wait : Z) (w : World) :
  let dir := nextDirectionOf pageDirection in
  let w' := snd (turnPage env dir wait w) in
  let k := fst (arrowOf pageDirection) in
  let n := snd (arrowOf pageDirection) in
  let area := fst (turnAreaOf v pageDirection) in
  let x := snd (turnAreaOf v pageDirection) in
  calls w' =
    calls w
    ++ TabSend (TurnPage dir wait)
       :: match tabReply env (tabMsgs w) with
          | Some _ => []
          | None => [TabSend (TurnPageClick dir wait)]
          end
    ++ [Sleep 300] /\
  onMessage v (TurnPage dir wait) =
    [KeyDown (mkKeyOpts k k n n true true);
     KeyUp (mkKeyOpts k k n n true true)] /\
  onMessage v (TurnPageClick dir wait) =
    if hasElementWithId v area then [ElementClick area]
    else match elementFromPoint v x (inject_Z (innerHeight v) / 2)%Q with
         | Some target =>
             [MouseClick target x (inject_Z (innerHeight v) / 2)%Q]
         | None => []
         end.
Proof.
  cbv zeta. split; [|split].
  - unfold turnPage, bind, tabSend, logCall, await, sleep, ret. cbn.
    destruct (tabReply env (tabMsgs w)); cbn; rewrite <- ?app_assoc;
      reflexivity.
  - unfold nextDirectionOf, arrowOf.
    destruct (String.eqb pageDirection "left"); reflexivity.
  - unfold nextDirectionOf, turnAreaOf.
    destruct (String.eqb pageDirection "left"); reflexivity.
Qed.

End NavigationExtras.
